(** * RetroSnap-AI: the image grading pipeline and its call sites

    A shallow embedding of
      - [src/utils/imageUtils.ts]        ([applyVintageFilter], the final-capture path;
                                          [createPolaroidCanvas]),
      - [src/components/RetroCamera.tsx] ([renderPreview], [takePhoto], the handlers of
                                          the camera body),
      - [src/components/PhotoPreviewModal.tsx] ([handleDownload], [handleKeyDown]),
      - [src/services/geminiService.ts]  ([generatePhotoCaption]),
      - the two revisions of [App.tsx]   ([handlePhotoTaken], the caption handlers, the
                                          gallery),
    followed by the properties of the specification that were checked against
    them.

    JavaScript numbers are taken as exact rationals ([Q]); the bytes of a
    [Uint8ClampedArray] are integers ([Z]).  The 2D rendering engine of the
    browser (how a filtered, blended draw changes the pixels) is a parameter of
    the development, see [Renderer]. *)

From Stdlib Require Import String Ascii DecimalString ZArith QArith Qround Qminmax Qabs Lqa List Bool Lia Arith.
Import ListNotations.

Open Scope Q_scope.

(** ** [types.ts] *)

Inductive FilterType : Type :=
  | ORIGINAL
  | RETRO_CLASSIC
  | RETRO_NOIR
  | RETRO_INSTANT
  | CINE_TEAL_ORANGE
  | CINE_MOODY
  | CINE_VIVID.

Definition FilterType_eq_dec (a b : FilterType) : {a = b} + {a <> b}.
Proof. decide equality. Defined.

(** [a === b] on two members of the enum. *)
Definition filter_eqb (a b : FilterType) : bool :=
  if FilterType_eq_dec a b then true else false.

(** ** Numbers *)

(** [a > b] on JavaScript numbers. *)
Definition Qgtb (a b : Q) : bool := negb (Qle_bool a b).

(** ECMAScript [ToUint8Clamp]: the conversion performed by a store into a
    [Uint8ClampedArray] (clamp to 0..255, round half to even). *)
Definition ToUint8Clamp (x : Q) : Z :=
  if Qle_bool x 0 then 0%Z
  else if Qle_bool 255 x then 255%Z
  else
    let f := Qfloor x in
    match Qcompare (inject_Z f + 0.5) x with
    | Lt => (f + 1)%Z
    | Gt => f
    | Eq => if Z.even f then f else (f + 1)%Z
    end.

(** [Math.max(0, Math.min(255, x))]. *)
Definition clamp255 (x : Q) : Q := Qmax 0 (Qmin 255 x).

(** ** The grain loop of [applyVintageFilter] (imageUtils.ts, 273-290) *)

(** [const noiseAmount = filterType === ORIGINAL ? 0
                        : (filterType === RETRO_NOIR ? 45 : 25)]. *)
Definition noiseAmount (filterType : FilterType) : Q :=
  if filter_eqb filterType ORIGINAL then 0
  else if filter_eqb filterType RETRO_NOIR then 45
  else 25.

(** [Math.random()] is an explicit source of draws: [random k] is the value
    returned by the [k]-th call.  Every draw of the real generator lies in
    [0, 1). *)
Definition RandomSource := nat -> Q.

Definition in_unit_interval (random : RandomSource) : Prop :=
  forall n, 0 <= random n /\ random n < 1.

(** [(Math.random() - 0.5) * noiseAmount] for the [k]-th draw. *)
Definition noiseOf (amount : Q) (random : RandomSource) (k : nat) : Q :=
  (random k - 0.5) * amount.

(** [data[i] = Math.max(0, Math.min(255, data[i] + noise))]: the value is
    clamped, then converted by the typed array. *)
Definition grainChannel (c : Z) (noise : Q) : Z :=
  ToUint8Clamp (clamp255 (inject_Z c + noise)).

(** [for (let i = 0; i < data.length; i += 4) { ... }] over the flat RGBA
    array; [k] counts the calls of [Math.random] made so far.  An [ImageData]
    array has a multiple of four entries; on a shorter tail the loop body still
    runs once and its in-range stores take place. *)
Fixpoint grainLoop (amount : Q) (random : RandomSource) (k : nat)
                   (data : list Z) : list Z :=
  match data with
  | [] => []
  | r :: tl =>
      let noise := noiseOf amount random k in
      match tl with
      | g :: b :: a :: rest =>
          grainChannel r noise :: grainChannel g noise :: grainChannel b noise
            :: a :: grainLoop amount random (S k) rest
      | [g; b] => [grainChannel r noise; grainChannel g noise; grainChannel b noise]
      | [g] => [grainChannel r noise; grainChannel g noise]
      | [] => [grainChannel r noise]
      end
  end.

(** Number of iterations of the loop, i.e. of calls to [Math.random]. *)
Definition grainIterations (data : list Z) : nat := Nat.div (length data + 3) 4.

(** ** The 2D canvas API used by both paths *)

(** [ctx.globalCompositeOperation]. *)
Inductive CompositeOp : Type :=
  | SourceOver | Screen | Overlay | Multiply | ColorBurn | SoftLight.

(** One function of a CSS [filter] list; the list [[]] is ['none']. *)
Inductive FilterFn : Type :=
  | Blur (px : Q)
  | Sepia (amount : Q)
  | Saturate (amount : Q)
  | Contrast (amount : Q)
  | Brightness (amount : Q)
  | Grayscale (amount : Q).

Definition CssFilter := list FilterFn.

(** [rgba(r, g, b, a)]. *)
Record Color : Type := rgba { red : Z; green : Z; blue : Z; opacity : Q }.

Inductive FillStyle : Type :=
  | Solid (c : Color)
  | RadialGradient (x0 y0 r0 x1 y1 r1 : Q) (stops : list (Q * Color)).

Inductive TransformOp : Type :=
  | Translate (x y : Q)
  | Scale (x y : Q).

(** The drawing state of a context, as saved by [save()] and brought back
    by [restore()]. *)
Record DrawState : Type := {
  filter : CssFilter;
  globalCompositeOperation : CompositeOp;
  globalAlpha : Q;
  fillStyle : FillStyle;
  transform : list TransformOp
}.

(** The state of a fresh context. *)
Definition defaultState : DrawState :=
  {| filter := [];
     globalCompositeOperation := SourceOver;
     globalAlpha := 1;
     fillStyle := Solid (rgba 0 0 0 1);
     transform := [] |}.

(** A pixel grid: [data] is the flat RGBA array of [getImageData]. *)
Record Bitmap : Type := { width : Z; height : Z; data : list Z }.

(** Transparent black, the content of a new or cleared canvas. *)
Definition blank (w h : Z) : Bitmap :=
  {| width := w; height := h; data := repeat 0%Z (Z.to_nat (4 * w * h)) |}.

(** The calls that touch the pixels, recorded in the order they are made
    (instrumentation: the pixels themselves never depend on it). *)
Inductive Call : Type :=
  | DrawImageCall (st : DrawState) (src : Bitmap)
  | FillRectCall (st : DrawState)
  | ClearRectCall
  | GetImageDataCall
  | PutImageDataCall.

(** A canvas together with its 2D context. *)
Record Canvas : Type := {
  pixels : Bitmap;
  state : DrawState;
  saved : list DrawState;
  calls : list Call
}.

(** The browser's rendering engine: what a draw under a given state does to
    the destination pixels, how an image source decodes, and the JPEG
    encoder behind [toDataURL].  A source that decodes is one the canvas may
    read back after drawing it: a data URL, as [takePhoto] passes, or an
    image of the page's own origin. *)
Record Renderer : Type := {
  drawOnto : DrawState -> Bitmap -> Bitmap -> Bitmap;
  fillOnto : DrawState -> Bitmap -> Bitmap;
  decodeImage : string -> option Bitmap;
  jpegBase64 : Bitmap -> Q -> string
}.

(** Drawing an image with the default state (no filter, source-over,
    alpha 1, no transform) on a cleared canvas of its size reproduces it. *)
Definition copies_faithfully (R : Renderer) : Prop :=
  forall src, drawOnto R defaultState src (blank (width src) (height src)) = src.

Notation "c |> f" := (f c) (at level 45, left associativity, only parsing).

Definition withState (f : DrawState -> DrawState) (c : Canvas) : Canvas :=
  {| pixels := pixels c; state := f (state c); saved := saved c; calls := calls c |}.

Definition setFilter (v : CssFilter) : Canvas -> Canvas :=
  withState (fun s =>
    {| filter := v; globalCompositeOperation := globalCompositeOperation s;
       globalAlpha := globalAlpha s; fillStyle := fillStyle s; transform := transform s |}).

Definition setGlobalCompositeOperation (v : CompositeOp) : Canvas -> Canvas :=
  withState (fun s =>
    {| filter := filter s; globalCompositeOperation := v;
       globalAlpha := globalAlpha s; fillStyle := fillStyle s; transform := transform s |}).

Definition setGlobalAlpha (v : Q) : Canvas -> Canvas :=
  withState (fun s =>
    {| filter := filter s; globalCompositeOperation := globalCompositeOperation s;
       globalAlpha := v; fillStyle := fillStyle s; transform := transform s |}).

Definition setFillStyle (v : FillStyle) : Canvas -> Canvas :=
  withState (fun s =>
    {| filter := filter s; globalCompositeOperation := globalCompositeOperation s;
       globalAlpha := globalAlpha s; fillStyle := v; transform := transform s |}).

Definition pushTransform (t : TransformOp) : Canvas -> Canvas :=
  withState (fun s =>
    {| filter := filter s; globalCompositeOperation := globalCompositeOperation s;
       globalAlpha := globalAlpha s; fillStyle := fillStyle s;
       transform := transform s ++ [t] |}).

Definition translate (x y : Q) : Canvas -> Canvas := pushTransform (Translate x y).
Definition scale (x y : Q) : Canvas -> Canvas := pushTransform (Scale x y).

Definition save (c : Canvas) : Canvas :=
  {| pixels := pixels c; state := state c; saved := state c :: saved c; calls := calls c |}.

(** [restore()] on an empty stack does nothing. *)
Definition restore (c : Canvas) : Canvas :=
  match saved c with
  | [] => c
  | s :: rest => {| pixels := pixels c; state := s; saved := rest; calls := calls c |}
  end.

(** [document.createElement('canvas')] followed by the assignment of its
    width and height. *)
Definition newCanvas (w h : Z) : Canvas :=
  {| pixels := blank w h; state := defaultState; saved := []; calls := [] |}.

(** Assigning [canvas.width] or [canvas.height] clears the canvas and resets
    its context. *)
Definition resize (w h : Z) (c : Canvas) : Canvas :=
  {| pixels := blank w h; state := defaultState; saved := []; calls := calls c |}.

(** [ctx.clearRect(0, 0, canvas.width, canvas.height)]. *)
Definition clearRect (c : Canvas) : Canvas :=
  {| pixels := blank (width (pixels c)) (height (pixels c));
     state := state c; saved := saved c; calls := calls c ++ [ClearRectCall] |}.

(** [ctx.getImageData(0, 0, w, h).data]; the call is recorded by
    [putImageData], which always follows it in the source. *)
Definition getImageData (c : Canvas) : list Z := data (pixels c).

(** [ctx.putImageData(imageData, 0, 0)]: stores the array as it is, whatever
    the drawing state. *)
Definition putImageData (d : list Z) (c : Canvas) : Canvas :=
  {| pixels := {| width := width (pixels c); height := height (pixels c); data := d |};
     state := state c; saved := saved c;
     calls := calls c ++ [GetImageDataCall; PutImageDataCall] |}.

Section Rendering.

Variable R : Renderer.

(** [ctx.drawImage(src, 0, 0)]. *)
Definition drawImage (src : Bitmap) (c : Canvas) : Canvas :=
  {| pixels := drawOnto R (state c) src (pixels c);
     state := state c; saved := saved c;
     calls := calls c ++ [DrawImageCall (state c) src] |}.

(** [ctx.fillRect(0, 0, canvas.width, canvas.height)]. *)
Definition fillRect (c : Canvas) : Canvas :=
  {| pixels := fillOnto R (state c) (pixels c);
     state := state c; saved := saved c;
     calls := calls c ++ [FillRectCall (state c)] |}.

(** [canvas.toDataURL('image/jpeg', quality)]; a canvas without pixels
    yields ["data:,"]. *)
Definition toDataURL (quality : Q) (c : Canvas) : string :=
  if ((width (pixels c) =? 0) || (height (pixels c) =? 0))%Z
  then "data:,"%string
  else ("data:image/jpeg;base64," ++ jpegBase64 R (pixels c) quality)%string.

End Rendering.

(** ** [applyVintageFilter] (imageUtils.ts): the final-capture path *)

(** Whether each [getContext('2d')] of one invocation returns a context. *)
Record Contexts : Type := {
  ctxAvailable : bool;       (* [ctx], of the output canvas *)
  tempCtxAvailable : bool;   (* [tempCtx], of the blur canvas *)
  bCtxAvailable : bool       (* [bCtx], of the base canvas *)
}.

(** How the returned promise settles. *)
Inductive Settled : Type :=
  | Resolved (value : string)
  | Rejected (reason : string).

Section FinalCapture.

Variable R : Renderer.

(** BEAUTYPIXEL SIMULATION (148-170). *)
Definition beautify (tempCtxOk : bool) (beautyLevel : Q) (ctx : Canvas) : Canvas :=
  if Qgtb beautyLevel 0 then
    let strength := beautyLevel / 100 in
    if tempCtxOk then
      let blurRadius := 3 + (strength * 8) in
      let tempCtx :=
        newCanvas (width (pixels ctx)) (height (pixels ctx))
          |> drawImage R (pixels ctx)
          |> setFilter [Blur blurRadius]
          |> drawImage R (pixels ctx)
          |> setFilter [] in
      ctx |> setGlobalCompositeOperation Screen
          |> setGlobalAlpha (0.5 * strength)
          |> drawImage R (pixels tempCtx)
          |> setGlobalCompositeOperation SourceOver
          |> setGlobalAlpha 1
    else ctx
  else ctx.

(** STRONG VINTAGE FILTERS (172-271): the base canvas, the clear, and the
    [switch] on the preset. *)
Definition vintage (bCtxOk : bool) (filterType : FilterType) (canvas : Canvas) : Canvas :=
  let w := width (pixels canvas) in
  let h := height (pixels canvas) in
  let baseCanvas :=
    if bCtxOk then newCanvas w h |> drawImage R (pixels canvas) else newCanvas w h in
  let base := pixels baseCanvas in
  let ctx := canvas |> clearRect |> setGlobalAlpha 1 in
  match filterType with
  | RETRO_CLASSIC =>
      ctx |> setFilter [Sepia 0.4; Saturate 1.4; Contrast 1.1; Brightness 1.05]
          |> drawImage R base
          |> setFilter []
          |> setGlobalCompositeOperation Overlay
          |> setFillStyle (Solid (rgba 255 190 100 0.3))
          |> fillRect R
  | RETRO_NOIR =>
      let gradNoir :=
        RadialGradient (inject_Z w / 2) (inject_Z h / 2) (inject_Z w / 3)
                       (inject_Z w / 2) (inject_Z h / 2) (inject_Z w * 0.8)
                       [(0, rgba 0 0 0 0); (1, rgba 0 0 0 0.7)] in
      ctx |> setFilter [Grayscale 1; Contrast 1.8; Brightness 0.9]
          |> drawImage R base
          |> setFilter []
          |> setGlobalCompositeOperation Multiply
          |> setFillStyle gradNoir
          |> fillRect R
  | RETRO_INSTANT =>
      ctx |> setFilter [Contrast 1.1; Brightness 1.2; Saturate 0.85; Sepia 0.2]
          |> drawImage R base
          |> setFilter []
          |> setGlobalCompositeOperation Screen
          |> setFillStyle (Solid (rgba 30 40 100 0.25))
          |> fillRect R
          |> setGlobalCompositeOperation Overlay
          |> setFillStyle (Solid (rgba 255 240 200 0.15))
          |> fillRect R
  | CINE_TEAL_ORANGE =>
      ctx |> setFilter [Contrast 1.2; Saturate 1.1]
          |> drawImage R base
          |> setFilter []
          |> setGlobalCompositeOperation Overlay
          |> setFillStyle (Solid (rgba 255 160 0 0.4))
          |> fillRect R
          |> setGlobalCompositeOperation ColorBurn
          |> setFillStyle (Solid (rgba 0 220 255 0.4))
          |> fillRect R
  | CINE_MOODY =>
      ctx |> setFilter [Saturate 0.7; Contrast 1.4; Brightness 0.85]
          |> drawImage R base
          |> setFilter []
          |> setGlobalCompositeOperation Overlay
          |> setFillStyle (Solid (rgba 20 60 50 0.6))
          |> fillRect R
  | CINE_VIVID =>
      ctx |> setFilter [Saturate 2.2; Contrast 1.2; Brightness 1.05]
          |> drawImage R base
          |> setFilter []
          |> setGlobalCompositeOperation SoftLight
          |> setFillStyle (Solid (rgba 80 0 100 0.1))
          |> fillRect R
  | ORIGINAL =>
      ctx |> drawImage R base
  end.

(** The guarded block [if (noiseAmount > 0) { getImageData; loop;
    putImageData }] for an arbitrary amount: the new canvas and the new count
    of random draws. *)
Definition grainWith (amount : Q) (random : RandomSource) (k : nat)
                     (ctx : Canvas) : Canvas * nat :=
  if Qgtb amount 0 then
    let data := getImageData ctx in
    (putImageData (grainLoop amount random k data) ctx,
     (k + grainIterations data)%nat)
  else (ctx, k).

(** UNIVERSAL GRAIN (273-290). *)
Definition grain (filterType : FilterType) (random : RandomSource) (k : nat)
                 (ctx : Canvas) : Canvas * nat :=
  grainWith (noiseAmount filterType) random k
    (ctx |> setGlobalCompositeOperation Overlay |> setGlobalAlpha 1).

(** The body of [img.onload] once the context is there (143-290): the graded
    canvas, before it is encoded. *)
Definition gradedCanvas (cx : Contexts) (img : Bitmap) (filterType : FilterType)
                        (beautyLevel : Q) (random : RandomSource) (k : nat)
  : Canvas * nat :=
  newCanvas (width img) (height img)
    |> drawImage R img
    |> beautify (tempCtxAvailable cx) beautyLevel
    |> vintage (bCtxAvailable cx) filterType
    |> grain filterType random k.

(** [applyVintageFilter(imageSrc, filterType, beautyLevel)]: how the promise
    settles, and the count of random draws afterwards. *)
Definition applyVintageFilter (cx : Contexts) (random : RandomSource) (k : nat)
    (imageSrc : string) (filterType : FilterType) (beautyLevel : Q)
  : Settled * nat :=
  match decodeImage R imageSrc with
  | None => (Resolved imageSrc, k)                          (* img.onerror *)
  | Some img =>                                             (* img.onload *)
      if negb (ctxAvailable cx) then (Resolved imageSrc, k)
      else
        let (canvas, k') := gradedCanvas cx img filterType beautyLevel random k in
        (Resolved (toDataURL R 0.92 canvas), k')
  end.

End FinalCapture.

(** ** [renderPreview] (RetroCamera.tsx, 142-232): the live-preview path *)

(** The [<video>] element: its [readyState] and its current frame
    ([videoWidth] and [videoHeight] are the frame's). *)
Record Video : Type := { readyState : Z; frame : Bitmap }.

Section LivePreview.

Variable R : Renderer.

(** 1. Draw Raw Video (Mirrored) (158-163). *)
Definition drawRawVideo (video : Video) (ctx : Canvas) : Canvas :=
  ctx |> save
      |> translate (inject_Z (width (pixels ctx))) 0
      |> scale (-1) 1
      |> drawImage R (frame video)
      |> restore.

(** 2. Real-time Beauty (165-177). *)
Definition previewBeauty (video : Video) (beautyLevel : Q) (ctx : Canvas) : Canvas :=
  if Qgtb beautyLevel 0 then
    let strength := beautyLevel / 100 in
    ctx |> save
        |> setFilter [Blur (5 + strength * 12)]
        |> setGlobalCompositeOperation Screen
        |> setGlobalAlpha (strength * 0.6)
        |> translate (inject_Z (width (pixels ctx))) 0
        |> scale (-1) 1
        |> drawImage R (frame video)
        |> restore
  else ctx.

(** The [switch (activeFilter)] of step 3 (181-205): every case only assigns
    [ctx.filter]. *)
Definition previewCssFilter (activeFilter : FilterType) : CssFilter :=
  match activeFilter with
  | RETRO_CLASSIC => [Sepia 0.4; Saturate 1.4; Contrast 1.1; Brightness 1.05]
  | RETRO_NOIR => [Grayscale 1; Contrast 1.8; Brightness 0.9]
  | RETRO_INSTANT => [Contrast 1.1; Brightness 1.1; Saturate 0.85; Sepia 0.2]
  | CINE_TEAL_ORANGE => [Contrast 1.2; Saturate 1.1]
  | CINE_MOODY => [Saturate 0.7; Contrast 1.4; Brightness 0.85]
  | CINE_VIVID => [Saturate 2.2; Contrast 1.2; Brightness 1.05]
  | ORIGINAL => []
  end.

(** Apply Color Grading Layers (207-227). *)
Definition previewLayers (activeFilter : FilterType) (ctx : Canvas) : Canvas :=
  if negb (filter_eqb activeFilter ORIGINAL) then
    let ctx := ctx |> setGlobalCompositeOperation Overlay in
    if filter_eqb activeFilter RETRO_CLASSIC then
      ctx |> setFillStyle (Solid (rgba 255 190 100 0.3))
          |> fillRect R
    else if filter_eqb activeFilter CINE_TEAL_ORANGE then
      ctx |> setFillStyle (Solid (rgba 255 160 0 0.3))
          |> fillRect R
          |> setGlobalCompositeOperation ColorBurn
          |> setFillStyle (Solid (rgba 0 220 255 0.3))
          |> fillRect R
    else if filter_eqb activeFilter CINE_MOODY then
      ctx |> setFillStyle (Solid (rgba 20 60 50 0.5))
          |> fillRect R
    else if filter_eqb activeFilter RETRO_INSTANT then
      ctx |> setGlobalCompositeOperation Screen
          |> setFillStyle (Solid (rgba 30 40 100 0.25))
          |> fillRect R
    else ctx
  else ctx.

(** 3. Filters (179-228). *)
Definition previewFilters (activeFilter : FilterType) (ctx : Canvas) : Canvas :=
  ctx |> save
      |> setFilter (previewCssFilter activeFilter)
      |> previewLayers activeFilter
      |> restore.

(** The three numbered steps of one frame (158-228). *)
Definition previewFrame (video : Video) (beautyLevel : Q) (activeFilter : FilterType)
                        (ctx : Canvas) : Canvas :=
  ctx |> drawRawVideo video
      |> previewBeauty video beautyLevel
      |> previewFilters activeFilter.

(** One frame of the preview loop on the preview canvas; [None] when the
    canvas element is not mounted.  A frame that is skipped leaves the canvas
    as it is. *)
Definition renderPreview (video : option Video) (canvas : option Canvas)
    (isCameraOn : bool) (error : option string) (ctxOk : bool)
    (beautyLevel : Q) (activeFilter : FilterType) : option Canvas :=
  match video, canvas with
  | Some video, Some canvas =>
      if isCameraOn && (match error with None => true | Some _ => false end)
                    && (readyState video =? 4)%Z
      then
        if ctxOk then
          let vw := width (frame video) in
          let vh := height (frame video) in
          let ctx :=
            if negb (width (pixels canvas) =? vw)%Z || negb (height (pixels canvas) =? vh)%Z
            then resize vw vh canvas else canvas in
          Some (ctx |> setFilter []
                    |> setGlobalCompositeOperation SourceOver
                    |> setGlobalAlpha 1
                    |> previewFrame video beautyLevel activeFilter)
        else Some canvas
      else Some canvas
  | _, _ => canvas
  end.

End LivePreview.

(** ** The recipe a path applies, read off the calls it makes *)

(** A tint layer: the blend mode and the fill of one [fillRect]. *)
Definition Layer : Type := (CompositeOp * FillStyle)%type.

Definition layersOf (cs : list Call) : list Layer :=
  flat_map (fun c =>
    match c with
    | FillRectCall st => [(globalCompositeOperation st, fillStyle st)]
    | _ => []
    end) cs.

(** The filters under which images were drawn. *)
Definition drawFiltersOf (cs : list Call) : list CssFilter :=
  flat_map (fun c =>
    match c with
    | DrawImageCall st _ => [filter st]
    | _ => []
    end) cs.

(** Whether the pixel array was read back and rewritten (the grain pass). *)
Definition rewritesPixels (cs : list Call) : bool :=
  existsb (fun c => match c with PutImageDataCall => true | _ => false end) cs.

(** The calls made by a step [f] on a canvas [c], beyond those already made. *)
Definition callsMadeBy (f : Canvas -> Canvas) (c : Canvas) : list Call :=
  skipn (length (calls c)) (calls (f c)).

(** The recipe a path applies, as far as its calls show it: the filters
    under which it draws images, the tint layers it fills, and whether it
    reads back and rewrites the pixels (the grain pass).  The same observer
    serves both paths. *)
Record Recipe : Type := {
  baseAdjust : list CssFilter;
  tintLayers : list Layer;
  grainPass : bool
}.

Definition recipeOf (cs : list Call) : Recipe :=
  {| baseAdjust := drawFiltersOf cs;
     tintLayers := layersOf cs;
     grainPass := rewritesPixels cs |}.

(** Final-capture path: the filter pass followed by the grain pass
    (172-290), on the canvas the beautify pass has left. *)
Definition finalRecipe (R : Renderer) (bCtxOk : bool) (filterType : FilterType)
    (random : RandomSource) (k : nat) (c : Canvas) : Recipe :=
  recipeOf
    (callsMadeBy (fun x => fst (grain filterType random k (vintage R bCtxOk filterType x)))
       c).

(** Live-preview path: the three steps of one frame (158-228). *)
Definition previewRecipe (R : Renderer) (video : Video) (beautyLevel : Q)
    (activeFilter : FilterType) (c : Canvas) : Recipe :=
  recipeOf (callsMadeBy (previewFrame R video beautyLevel activeFilter) c).

(** A layer without its opacity: blend mode and RGB of a solid fill. *)
Definition layerKind (l : Layer) : option (CompositeOp * (Z * Z * Z)) :=
  match snd l with
  | Solid c => Some (fst l, (red c, green c, blue c))
  | RadialGradient _ _ _ _ _ _ _ => None
  end.

(** [isPrefix eqb xs ys]: [xs] is a leading part of [ys]. *)
Fixpoint isPrefix {A : Type} (eqb : A -> A -> bool) (xs ys : list A) : bool :=
  match xs, ys with
  | [], _ => true
  | x :: xs', y :: ys' => eqb x y && isPrefix eqb xs' ys'
  | _ :: _, [] => false
  end.

Definition compositeOp_eqb (a b : CompositeOp) : bool :=
  match a, b with
  | SourceOver, SourceOver | Screen, Screen | Overlay, Overlay
  | Multiply, Multiply | ColorBurn, ColorBurn | SoftLight, SoftLight => true
  | _, _ => false
  end.

Definition layerKind_eqb (a b : Layer) : bool :=
  match layerKind a, layerKind b with
  | Some (oa, (ra, ga, ba)), Some (ob, (rb, gb, bb)) =>
      compositeOp_eqb oa ob && (ra =? rb)%Z && (ga =? gb)%Z && (ba =? bb)%Z
  | _, _ => false
  end.

(** ** [Photo] (types.ts) *)

Record Photo : Type := {
  id : string;
  dataUrl : string;
  caption : option string;        (* [string | null] *)
  timestamp : Z;
  isDeveloping : bool;
  x : Q;
  y : Q;
  rotation : Q;
  zIndex : Z
}.

(** [{ ...p, caption: c }]. *)
Definition withCaption (c : string) (p : Photo) : Photo :=
  {| id := id p; dataUrl := dataUrl p; caption := Some c; timestamp := timestamp p;
     isDeveloping := isDeveloping p; x := x p; y := y p; rotation := rotation p;
     zIndex := zIndex p |}.

(** [!p.caption]: a caption that is [null] or the empty string. *)
Definition noCaption (c : option string) : bool :=
  match c with
  | None => true
  | Some s => String.eqb s ""
  end.

(** [p.caption === s]. *)
Definition captionIs (c : option string) (s : string) : bool :=
  match c with
  | None => false
  | Some c' => String.eqb c' s
  end.

(** ** [takePhoto] and the shutter (RetroCamera.tsx, 361-425 and 546-548) *)

Inductive Sound : Type := shutter | motor.

(** What the component has asked the outside world to do. *)
Inductive Effect : Type :=
  | PlaySound (s : Sound)
  | SetTimeout (ms : Z) (task : Task)
  | AwaitFilter (rawDataUrl : string) (filterType : FilterType) (beautyLevel : Q)
  | OnPhotoTaken (photo : Photo) (startX startY : Q) (enableAi : bool)
with Task : Type :=
  | MotorSound
  | Eject (photo : Photo) (startX startY : Q) (enableAi : bool).

(** The state and refs of [RetroCamera] that [takePhoto] reads or writes. *)
Record Camera : Type := {
  videoRef : option Video;
  captureCanvasRef : option Canvas;
  isShooting : bool;
  tempPhoto : option string;
  isCameraOn : bool;
  error : option string;
  showSettings : bool;
  position : Q * Q;
  beautyLevel : Q;
  activeFilter : FilterType;
  useAiCaption : bool
}.

(** The state after [setIsShooting(b)], [setShowSettings(showS)],
    [setTempPhoto(tp)] and the drawing left on the capture canvas. *)
Definition updateCamera (b : bool) (showS : bool) (tp : option string)
                       (cv : option Canvas) (s : Camera) : Camera :=
  {| videoRef := videoRef s; captureCanvasRef := cv; isShooting := b;
     tempPhoto := tp; isCameraOn := isCameraOn s; error := error s;
     showSettings := showS; position := position s; beautyLevel := beautyLevel s;
     activeFilter := activeFilter s; useAiCaption := useAiCaption s |}.

(** [Date.now().toString()]. *)
Definition numberToString (n : Z) : string :=
  NilZero.string_of_int (Z.to_int n).

Section Shutter.

Variable R : Renderer.

(** The source rectangle of the nine-argument [drawImage]. *)
Variable subImage : Bitmap -> Q -> Q -> Q -> Bitmap.

(** [takePhoto] up to its [await]: the new state and the effects, in order.
    [contextOk] tells whether [canvas.getContext('2d')] returns a context. *)
Definition takePhoto (contextOk : bool) (s : Camera) : Camera * list Effect :=
  match videoRef s, captureCanvasRef s with
  | Some video, Some canvas =>
      if isShooting s || negb (isCameraOn s) then (s, [])
      else if (readyState video <? 2)%Z then (s, [])
      else
        let started := [PlaySound shutter; SetTimeout 400 MotorSound] in
        if contextOk then
          let size := Z.min (width (frame video)) (height (frame video)) in
          let xOffset := inject_Z (width (frame video) - size) / 2 in
          let yOffset := inject_Z (height (frame video) - size) / 2 in
          let context :=
            resize size size canvas
              |> save
              |> translate (inject_Z size) 0
              |> scale (-1) 1
              |> drawImage R (subImage (frame video) xOffset yOffset (inject_Z size))
              |> restore in
          let rawDataUrl := toDataURL R 0.95 context in
          (updateCamera true false (tempPhoto s) (Some context) s,
           started ++ [AwaitFilter rawDataUrl (activeFilter s) (beautyLevel s)])
        else
          (updateCamera true false (tempPhoto s) (Some canvas) s, started)
  | _, _ => (s, [])
  end.

(** The continuation of [takePhoto] after [await applyVintageFilter(...)]
    (392-423); [s0] is the state captured by the closure, [now] and [now']
    the two readings of [Date.now()]. *)
Definition takePhotoResume (s0 : Camera) (filteredDataUrl : string) (now now' : Z)
                           (s : Camera) : Camera * list Effect :=
  let newPhoto :=
    {| id := numberToString now; dataUrl := filteredDataUrl; caption := Some ""%string;
       timestamp := now'; isDeveloping := true; x := 0; y := 0; rotation := 0;
       zIndex := 0 |} in
  let startX := fst (position s0) + 107 in
  let startY := snd (position s0) - 224 in
  (updateCamera (isShooting s) (showSettings s) (Some filteredDataUrl) (captureCanvasRef s) s,
   [SetTimeout 2050 (Eject newPhoto startX startY (useAiCaption s0))]).

(** The 2050 ms timer of [takePhoto] (407-423). *)
Definition ejectTimer (photo : Photo) (startX startY : Q) (enableAi : bool)
                      (s : Camera) : Camera * list Effect :=
  (updateCamera false (showSettings s) None (captureCanvasRef s) s,
   [OnPhotoTaken photo startX startY enableAi]).

(** The shutter button: [onClick={takePhoto}], [disabled={isShooting ||
    !!error || !isCameraOn}]. *)
Definition shutterDisabled (s : Camera) : bool :=
  isShooting s || (match error s with Some _ => true | None => false end)
               || negb (isCameraOn s).

Definition clickShutter (contextOk : bool) (s : Camera) : Camera * list Effect :=
  if shutterDisabled s then (s, []) else takePhoto contextOk s.

(** The camera with the work it has in flight: filter promises not yet
    settled and timers not yet fired. *)
Record Session : Type := {
  camera : Camera;
  awaiting : list (Camera * string);          (* closure state, raw data URL *)
  timers : list Task
}.

Inductive Event : Type :=
  | Click (contextOk : bool)                   (* the shutter is pressed *)
  | Invoke (contextOk : bool)                  (* [takePhoto] is called directly *)
  | FilterSettled (i : nat) (filteredDataUrl : string) (now now' : Z)
  | TimerFires (i : nat).

Definition pendingOf (s0 : Camera) (effs : list Effect) : list (Camera * string) :=
  flat_map (fun e => match e with
                     | AwaitFilter raw _ _ => [(s0, raw)]
                     | _ => []
                     end) effs.

Definition timersOf (effs : list Effect) : list Task :=
  flat_map (fun e => match e with
                     | SetTimeout _ t => [t]
                     | _ => []
                     end) effs.

Definition absorb (s0 : Camera) (r : Camera * list Effect)
                  (aw : list (Camera * string)) (tm : list Task) : Session :=
  {| camera := fst r;
     awaiting := aw ++ pendingOf s0 (snd r);
     timers := tm ++ timersOf (snd r) |}.

(** The list without its [i]-th entry. *)
Definition dropAt {A : Type} (i : nat) (l : list A) : list A :=
  firstn i l ++ skipn (S i) l.

(** One event of the session; the [i]-th pending promise settles or the
    [i]-th pending timer fires (an index out of range is no event). *)
Definition step (e : Event) (ss : Session) : Session :=
  match e with
  | Click ok => absorb (camera ss) (clickShutter ok (camera ss)) (awaiting ss) (timers ss)
  | Invoke ok => absorb (camera ss) (takePhoto ok (camera ss)) (awaiting ss) (timers ss)
  | FilterSettled i url now now' =>
      match nth_error (awaiting ss) i with
      | None => ss
      | Some (s0, _) =>
          absorb (camera ss) (takePhotoResume s0 url now now' (camera ss))
                 (dropAt i (awaiting ss)) (timers ss)
      end
  | TimerFires i =>
      match nth_error (timers ss) i with
      | None => ss
      | Some MotorSound =>
          {| camera := camera ss; awaiting := awaiting ss; timers := dropAt i (timers ss) |}
      | Some (Eject p sx sy ai) =>
          absorb (camera ss) (ejectTimer p sx sy ai (camera ss))
                 (awaiting ss) (dropAt i (timers ss))
      end
  end.

Definition run (es : list Event) (ss : Session) : Session :=
  fold_left (fun acc e => step e acc) es ss.

(** Final captures in flight: filter promises pending plus eject timers
    pending. *)
Definition isEject (t : Task) : bool :=
  match t with Eject _ _ _ _ => true | MotorSound => false end.

Definition capturesInFlight (ss : Session) : nat :=
  (length (awaiting ss) + length (List.filter isEject (timers ss)))%nat.

Definition idle (c : Camera) : Session :=
  {| camera := c; awaiting := []; timers := [] |}.

End Shutter.

(** The shutter discipline: at most one final capture is in flight, and none
    while [isShooting] is false. *)
Definition oneCaptureAtMost (ss : Session) : Prop :=
  (capturesInFlight ss <= 1)%nat /\
  (isShooting (camera ss) = false -> capturesInFlight ss = 0%nat).

(** ** [handlePhotoTaken] and the caption handlers of [App.tsx] *)

(** [prev.map(p => p.id === id ? { ...p, caption: newCaption } : p)]
    ([handleUpdateCaption], the same in both revisions). *)
Definition handleUpdateCaption (photoId newCaption : string) (prev : list Photo)
  : list Photo :=
  map (fun p => if String.eqb (id p) photoId then withCaption newCaption p else p) prev.

(** [{ ...newPhotoData, x, y, rotation, zIndex, caption }]. *)
Definition placePhoto (newPhotoData : Photo) (startPos : option (Q * Q))
    (innerWidth innerHeight : Q) (z : Z) (initialCaption : string) : Photo :=
  {| id := id newPhotoData; dataUrl := dataUrl newPhotoData;
     caption := Some initialCaption; timestamp := timestamp newPhotoData;
     isDeveloping := isDeveloping newPhotoData;
     x := match startPos with Some sp => fst sp | None => innerWidth / 2 - 85 end;
     y := match startPos with Some sp => snd sp | None => innerHeight / 2 - 105 end;
     rotation := match startPos with Some _ => -2 | None => 0 end;
     zIndex := z |}.

(** The revision that receives an [AiConfig] (part_001, 27-438). *)
Module AppAiConfig.

Definition writing : string := "✨ Writing...".
Definition beautifulMoment : string := "Beautiful Moment".

(** [const initialCaption = isAiEnabled ? "✨ Writing..." : "Beautiful Moment"]. *)
Definition initialCaption (isAiEnabled : bool) : string :=
  if isAiEnabled then writing else beautifulMoment.

(** [setPhotos(prev => [...prev, newPhoto])] of [handlePhotoTaken]. *)
Definition handlePhotoTaken (newPhotoData : Photo) (startPos : option (Q * Q))
    (innerWidth innerHeight : Q) (z : Z) (isAiEnabled : bool) (prev : list Photo)
  : list Photo :=
  prev ++ [placePhoto newPhotoData startPos innerWidth innerHeight z
             (initialCaption isAiEnabled)].

(** The [.then(aiCaption => setPhotos(...))] updater (166-174). *)
Definition captionResolved (newPhotoId aiCaption : string) (prev : list Photo)
  : list Photo :=
  map (fun p =>
         if String.eqb (id p) newPhotoId
            && (captionIs (caption p) "✨ Writing..." || noCaption (caption p))
         then withCaption aiCaption p
         else p) prev.

(** The [setPhotos(...)] updater of the [.catch] (184-189). *)
Definition captionFailed (newPhotoId : string) (prev : list Photo) : list Photo :=
  map (fun p =>
         if String.eqb (id p) newPhotoId && captionIs (caption p) "✨ Writing..."
         then withCaption "Beautiful Moment" p
         else p) prev.

End AppAiConfig.

(** The revision that receives a boolean [enableAi] (part_001, 440-753). *)
Module AppEnableAi.

Definition beautifulMoment : string := "Beautiful Moment".

(** [caption: "Beautiful Moment"], whether or not the AI is enabled. *)
Definition initialCaption (enableAi : bool) : string := beautifulMoment.

Definition handlePhotoTaken (newPhotoData : Photo) (startPos : option (Q * Q))
    (innerWidth innerHeight : Q) (z : Z) (enableAi : bool) (prev : list Photo)
  : list Photo :=
  prev ++ [placePhoto newPhotoData startPos innerWidth innerHeight z
             (initialCaption enableAi)].

(** The [.then(aiCaption => setPhotos(...))] updater (523-530). *)
Definition captionResolved (newPhotoId aiCaption : string) (prev : list Photo)
  : list Photo :=
  map (fun p =>
         if String.eqb (id p) newPhotoId
            && (captionIs (caption p) "Beautiful Moment" || noCaption (caption p))
         then withCaption aiCaption p
         else p) prev.

(** [.catch(err => console.error(...))] (531): the photos are not touched. *)
Definition captionFailed (newPhotoId : string) (prev : list Photo) : list Photo :=
  prev.

End AppEnableAi.

(** What a caption handler may do to one photo: leave it as it is, or
    replace the caption, and only the caption, of the photo [photoId] whose
    caption satisfies [overwritable]. *)
Definition captionOnly (overwritable : option string -> Prop) (photoId newCaption : string)
                       (p p' : Photo) : Prop :=
  p' = p \/
  (p' = withCaption newCaption p /\ id p = photoId /\ overwritable (caption p)).

(** The caption is the placeholder [s]. *)
Definition isPlaceholder (s : string) (c : option string) : Prop := c = Some s.

(** Any caption. *)
Definition anyCaption (c : option string) : Prop := True.

(** ** Sample data *)

(** An engine that copies under the default state and leaves the
    destination alone otherwise; it decodes one data URL, [samplePng], to the
    single opaque pixel that PNG holds. *)
Definition isDefaultState (st : DrawState) : bool :=
  match filter st, globalCompositeOperation st, transform st with
  | [], SourceOver, [] => Qeq_bool (globalAlpha st) 1
  | _, _, _ => false
  end.

(** A 1 by 1 PNG (8-bit RGBA) whose only pixel is [rgba(200, 120, 40, 1)]. *)
Definition samplePng : string :=
  "data:image/png;base64,iVBORw0KGgoAAAANSUhEUgAAAAEAAAABCAYAAAAfFcSJAAAADUlEQVR42mM4UaHxHwAF3AJoV8yK4QAAAABJRU5ErkJggg==".

Definition samplePixel : Bitmap :=
  {| width := 1; height := 1; data := [200; 120; 40; 255]%Z |}.

Definition sampleRenderer : Renderer :=
  {| drawOnto := fun st src dst => if isDefaultState st then src else dst;
     fillOnto := fun st dst => dst;
     decodeImage := fun s => if String.eqb s samplePng then Some samplePixel else None;
     jpegBase64 := fun _ _ => "/9j/4AAQSkZJRg=="%string |}.

Definition allContexts : Contexts :=
  {| ctxAvailable := true; tempCtxAvailable := true; bCtxAvailable := true |}.

Definition noContext : Contexts :=
  {| ctxAvailable := false; tempCtxAvailable := true; bCtxAvailable := true |}.

(** A source of draws that alternates between 0 and 3/4. *)
Definition sampleRandom : RandomSource :=
  fun n => if Nat.even n then 0 else 0.75.

Definition sampleCanvas : Canvas :=
  {| pixels := {| width := 2; height := 1;
                  data := [10; 128; 250; 255; 128; 128; 128; 77]%Z |};
     state := defaultState; saved := []; calls := [] |}.

Definition sampleVideo : Video :=
  {| readyState := 4;
     frame := {| width := 2; height := 1;
                 data := [10; 128; 250; 255; 128; 128; 128; 255]%Z |} |}.

Definition samplePhoto (c : option string) : Photo :=
  {| id := "1763000000000"; dataUrl := "data:image/jpeg;base64,/9j/4AAQSkZJRg==";
     caption := c; timestamp := 1763000000000; isDeveloping := true;
     x := 120; y := 80; rotation := -2; zIndex := 11 |}.

Definition shootingCamera : Camera :=
  {| videoRef := Some sampleVideo; captureCanvasRef := Some sampleCanvas;
     isShooting := true; tempPhoto := None; isCameraOn := true; error := None;
     showSettings := false; position := (900, 500); beautyLevel := 80;
     activeFilter := CINE_MOODY; useAiCaption := false |}.

Definition readyCamera : Camera :=
  {| videoRef := Some sampleVideo; captureCanvasRef := Some sampleCanvas;
     isShooting := false; tempPhoto := None; isCameraOn := true; error := None;
     showSettings := true; position := (900, 500); beautyLevel := 80;
     activeFilter := CINE_MOODY; useAiCaption := false |}.

Definition sampleSubImage : Bitmap -> Q -> Q -> Q -> Bitmap :=
  fun b _ _ _ => b.

(** ** Where a filter is in force *)

(** The filters under which rectangles were filled. *)
Definition fillFiltersOf (cs : list Call) : list CssFilter :=
  flat_map (fun c =>
    match c with
    | FillRectCall st => [filter st]
    | _ => []
    end) cs.

(** A filter list that is ['none'] or a single blur. *)
Definition noneOrBlur (f : CssFilter) : bool :=
  match f with
  | [] => true
  | [Blur _] => true
  | _ => false
  end.

(** ** [createPolaroidCanvas] (imageUtils.ts, 41-123) and [handleDownload]
    (PhotoPreviewModal.tsx, 44-60) *)

Module Card.

Definition cardWidth : Q := 600.
Definition cardHeight : Q := 750.
Definition paddingX : Q := 40.
Definition paddingY : Q := 40.
Definition bottomPadding : Q := 140.

(** [const photoWidth = cardWidth - (paddingX * 2)]. *)
Definition photoWidth : Q := cardWidth - (paddingX * 2).

(** [const photoHeight = cardHeight - paddingY - bottomPadding]. *)
Definition photoHeight : Q := cardHeight - paddingY - bottomPadding.

(** [drawWidth, drawHeight, offsetX, offsetY]. *)
Record DrawRect : Type := {
  drawWidth : Q;
  drawHeight : Q;
  offsetX : Q;
  offsetY : Q
}.

(** The [if (srcRatio > destRatio) ... else ...] of lines 78-93, for an
    image of the given width and height. *)
Definition coverRect (imgWidth imgHeight : Q) : DrawRect :=
  let srcRatio := imgWidth / imgHeight in
  let destRatio := photoWidth / photoHeight in
  if Qgtb srcRatio destRatio then
    let drawHeight := photoHeight in
    let drawWidth := photoHeight * srcRatio in
    {| drawWidth := drawWidth; drawHeight := drawHeight;
       offsetX := paddingX + (photoWidth - drawWidth) / 2;
       offsetY := paddingY |}
  else
    let drawWidth := photoWidth in
    let drawHeight := photoWidth / srcRatio in
    {| drawWidth := drawWidth; drawHeight := drawHeight;
       offsetX := paddingX;
       offsetY := paddingY + (photoHeight - drawHeight) / 2 |}.

(** The drawing calls made on the card, in order. *)
Inductive CardOp : Type :=
  | FillRectOp (style : Color) (cornerX cornerY w h : Q)
  | ClippedImageOp (img : Bitmap) (clipX clipY clipW clipH : Q) (r : DrawRect)
  | StrokeRectOp (cornerX cornerY w h : Q)
  | FillTextOp (text : string) (centerX centerY : Q).

(** The canvas the promise resolves with: its size and what was drawn. *)
Record CardCanvas : Type := {
  canvasWidth : Z;
  canvasHeight : Z;
  ops : list CardOp
}.

(** [for (let i = 0; i < 1000; i++) ctx.fillRect(Math.random() * cardWidth,
    Math.random() * cardHeight, 2, 2)], [n] iterations from draw [k]. *)
Fixpoint speckles (n : nat) (random : RandomSource) (k : nat) : list CardOp :=
  match n with
  | O => []
  | S n' =>
      FillRectOp (rgba 230 230 220 0.1)
                 (random k * cardWidth) (random (S k) * cardHeight) 2 2
        :: speckles n' random (S (S k))
  end.

(** The texts written on the card, with their anchor. *)
Definition textsOf (l : list CardOp) : list (string * Q * Q) :=
  flat_map (fun op => match op with
                      | FillTextOp t cx cy => [(t, cx, cy)]
                      | _ => []
                      end) l.

(** A filled rectangle has its top-left corner on the card. *)
Definition cornerOnCard (op : CardOp) : Prop :=
  match op with
  | FillRectOp _ cornerX cornerY _ _ =>
      0 <= cornerX /\ cornerX < cardWidth /\ 0 <= cornerY /\ cornerY < cardHeight
  | _ => True
  end.

Definition isSpeckle (op : CardOp) : bool :=
  match op with
  | FillRectOp _ _ _ w h => Qeq_bool w 2 && Qeq_bool h 2
  | _ => false
  end.

(** [createPolaroidCanvas(photo)].  [None]: the promise never settles (there
    is no [img.onerror]).  Otherwise the canvas and the count of random
    draws.  A canvas whose context is refused is resolved as created, 300 by
    150 and untouched. *)
Definition createPolaroidCanvas (R : Renderer) (ctxOk : bool)
    (random : RandomSource) (k : nat) (photo : Photo) : option (CardCanvas * nat) :=
  match decodeImage R (dataUrl photo) with
  | None => None
  | Some img =>
      if negb ctxOk then
        Some ({| canvasWidth := 300; canvasHeight := 150; ops := [] |}, k)
      else
        let r := coverRect (inject_Z (width img)) (inject_Z (height img)) in
        Some ({| canvasWidth := 600; canvasHeight := 750;
                 ops :=
                   [FillRectOp (rgba 255 255 255 1) 0 0 cardWidth cardHeight]
                   ++ speckles 1000 random k
                   ++ [FillRectOp (rgba 26 26 26 1) paddingX paddingY photoWidth photoHeight;
                       ClippedImageOp img paddingX paddingY photoWidth photoHeight r;
                       StrokeRectOp paddingX paddingY photoWidth photoHeight]
                   ++ (if noCaption (caption photo) then []   (* [if (photo.caption)] *)
                       else [FillTextOp (match caption photo with
                                         | Some text => text
                                         | None => ""%string
                                         end)
                                        (cardWidth / 2)
                                        (cardHeight - (bottomPadding / 2))]) |},
              (k + 2000)%nat)
  end.

(** What [handleDownload] leaves behind: the [isGenerating] flag and the
    calls of [downloadBlob] (blob source and file name).  [blobOk] tells
    whether [canvas.toBlob] hands over a blob. *)
Definition handleDownload (R : Renderer) (ctxOk blobOk : bool)
    (random : RandomSource) (k : nat) (photo : Photo) (isGenerating : bool)
  : bool * list (CardCanvas * string) :=
  if isDeveloping photo then (isGenerating, [])
  else
    match createPolaroidCanvas R ctxOk random k photo with
    | None => (true, [])
    | Some (canvas, _) =>
        (false,
         if blobOk
         then [(canvas, ("milu-polaroid-" ++ id photo ++ ".jpg")%string)]
         else [])
    end.

End Card.

(** ** The camera body: position, dragging, power and settings
    (RetroCamera.tsx, 50-132 and 427-430) *)

Module CameraBody.

(** [position], [isDragging] and the ref [dragOffset]. *)
Record Body : Type := {
  bodyPosition : Q * Q;
  isDragging : bool;
  dragOffset : Q * Q
}.

(** The position set on mount (53-58). *)
Definition initialPosition (innerWidth innerHeight : Q) : Q * Q :=
  let initialWidth := 384 in
  let initialHeight := 250 in
  (innerWidth - initialWidth - 40, innerHeight - initialHeight - 40).

(** [handleResize] (62-67). *)
Definition handleResize (innerWidth innerHeight : Q) (prev : Q * Q) : Q * Q :=
  (Qmin (fst prev) (innerWidth - 390), Qmin (snd prev) (innerHeight - 260)).

(** [handleMouseDown] (95-102); [onControl] tells whether the target lies in
    a button or an input. *)
Definition handleMouseDown (onControl : bool) (clientX clientY : Q) (b : Body) : Body :=
  if onControl then b
  else {| bodyPosition := bodyPosition b;
          isDragging := true;
          dragOffset := (clientX - fst (bodyPosition b), clientY - snd (bodyPosition b)) |}.

(** [handleMouseMove] (105-118). *)
Definition handleMouseMove (innerWidth innerHeight clientX clientY : Q) (b : Body) : Body :=
  if negb (isDragging b) then b
  else
    let newX := clientX - fst (dragOffset b) in
    let newY := clientY - snd (dragOffset b) in
    let maxX := innerWidth - 50 in
    let maxY := innerHeight - 50 in
    let newX := Qmax (-100) (Qmin newX maxX) in
    let newY := Qmax (-100) (Qmin newY maxY) in
    {| bodyPosition := (newX, newY); isDragging := isDragging b;
       dragOffset := dragOffset b |}.

(** [handleMouseUp] (120-122). *)
Definition handleMouseUp (b : Body) : Body :=
  {| bodyPosition := bodyPosition b; isDragging := false; dragOffset := dragOffset b |}.

(** [setIsCameraOn(on)] and [setShowSettings(shown)]. *)
Definition withPowerAndSettings (on shown : bool) (s : Camera) : Camera :=
  {| videoRef := videoRef s; captureCanvasRef := captureCanvasRef s;
     isShooting := isShooting s; tempPhoto := tempPhoto s; isCameraOn := on;
     error := error s; showSettings := shown; position := position s;
     beautyLevel := beautyLevel s; activeFilter := activeFilter s;
     useAiCaption := useAiCaption s |}.

(** [togglePower] (427-430): [setIsCameraOn(prev => !prev); if (isCameraOn)
    setShowSettings(false)]. *)
Definition togglePower (s : Camera) : Camera :=
  withPowerAndSettings (negb (isCameraOn s))
                       (if isCameraOn s then false else showSettings s) s.

(** The settings button (607): [isCameraOn && setShowSettings(!showSettings)]. *)
Definition clickSettings (s : Camera) : Camera :=
  if isCameraOn s
  then withPowerAndSettings (isCameraOn s) (negb (showSettings s)) s
  else s.

(** [handleClickOutside] (74-84); [refsMounted] tells whether both refs are
    set, [outside] whether the target lies outside the panel and the
    button. *)
Definition handleClickOutside (refsMounted outside : bool) (s : Camera) : Camera :=
  if showSettings s && refsMounted && outside
  then withPowerAndSettings (isCameraOn s) false s
  else s.

(** What can happen to the camera widget. *)
Inductive UiEvent : Type :=
  | Power
  | Settings
  | MouseDownOutside (refsMounted outside : bool)
  | Shutter (contextOk : bool)
  | FilterDone (s0 : Camera) (filteredDataUrl : string) (now now' : Z)
  | EjectDone (photo : Photo) (startX startY : Q) (enableAi : bool).

Definition uiStep (R : Renderer) (subImage : Bitmap -> Q -> Q -> Q -> Bitmap)
                  (e : UiEvent) (s : Camera) : Camera :=
  match e with
  | Power => togglePower s
  | Settings => clickSettings s
  | MouseDownOutside refsMounted outside => handleClickOutside refsMounted outside s
  | Shutter ok => fst (clickShutter R subImage ok s)
  | FilterDone s0 url now now' => fst (takePhotoResume s0 url now now' s)
  | EjectDone p sx sy ai => fst (ejectTimer p sx sy ai s)
  end.

Definition uiRun (R : Renderer) (subImage : Bitmap -> Q -> Q -> Q -> Bitmap)
                 (es : list UiEvent) (s : Camera) : Camera :=
  fold_left (fun acc e => uiStep R subImage e acc) es s.

(** The camera as mounted: off, settings closed, nothing in progress. *)
Definition mounted (innerWidth innerHeight level : Q) (f : FilterType) (ai : bool) : Camera :=
  {| videoRef := None; captureCanvasRef := None; isShooting := false;
     tempPhoto := None; isCameraOn := false; error := None; showSettings := false;
     position := initialPosition innerWidth innerHeight; beautyLevel := level;
     activeFilter := f; useAiCaption := ai |}.

End CameraBody.

(** ** What a session hands to [onPhotoTaken] *)

(** The photos handed to [onPhotoTaken] by one event. *)
Definition deliveredBy (e : Event) (ss : Session) : list Effect :=
  match e with
  | TimerFires i =>
      match nth_error (timers ss) i with
      | Some (Eject p sx sy ai) => snd (ejectTimer p sx sy ai (camera ss))
      | _ => []
      end
  | _ => []
  end.

(** The photos handed over along a sequence of events, in order. *)
Fixpoint delivered (R : Renderer) (subImage : Bitmap -> Q -> Q -> Q -> Bitmap)
                   (es : list Event) (ss : Session) : list Effect :=
  match es with
  | [] => []
  | e :: es' => deliveredBy e ss ++ delivered R subImage es' (step R subImage e ss)
  end.

(** A camera that [takePhoto] accepts: refs set, video with current data,
    camera on, no capture in progress. *)
Definition readyToShoot (s : Camera) : Prop :=
  (exists video, videoRef s = Some video /\ (2 <= readyState video)%Z) /\
  (exists canvas, captureCanvasRef s = Some canvas) /\
  isShooting s = false /\
  isCameraOn s = true /\
  error s = None.

(** The shutter is held and nothing is left that could release it: no
    filter promise pending, no eject timer pending. *)
Definition held (ss : Session) : Prop :=
  isShooting (camera ss) = true /\ awaiting ss = [] /\
  List.filter isEject (timers ss) = [].

(** ** The gallery of [App.tsx] (part_001, 27-438) *)

Module Gallery.

(** [dragState]: [{ id, startX, startY, initialX, initialY }]. *)
Record DragState : Type := {
  dragId : string;
  startX : Q;
  startY : Q;
  initialX : Q;
  initialY : Q
}.

(** The state of [App] that the handlers read or write: [photos],
    [selectedPhoto], the ref [maxZIndex], [dragState]. *)
Record App : Type := {
  photos : list Photo;
  selectedPhoto : option Photo;
  maxZIndex : Z;
  dragState : option DragState
}.

(** The state on mount: no photo, [maxZIndex = useRef(10)]. *)
Definition emptyApp : App :=
  {| photos := []; selectedPhoto := None; maxZIndex := 10; dragState := None |}.

(** [{ ...p, zIndex: z }]. *)
Definition withZIndex (z : Z) (p : Photo) : Photo :=
  {| id := id p; dataUrl := dataUrl p; caption := caption p; timestamp := timestamp p;
     isDeveloping := isDeveloping p; x := x p; y := y p; rotation := rotation p;
     zIndex := z |}.

(** [{ ...p, x: px, y: py }]. *)
Definition withPlace (px py : Q) (p : Photo) : Photo :=
  {| id := id p; dataUrl := dataUrl p; caption := caption p; timestamp := timestamp p;
     isDeveloping := isDeveloping p; x := px; y := py; rotation := rotation p;
     zIndex := zIndex p |}.

(** [{ ...p, x: px, y: py, rotation: r }]. *)
Definition withLanding (px py r : Q) (p : Photo) : Photo :=
  {| id := id p; dataUrl := dataUrl p; caption := caption p; timestamp := timestamp p;
     isDeveloping := isDeveloping p; x := px; y := py; rotation := r;
     zIndex := zIndex p |}.

(** [{ ...p, isDeveloping: false }]. *)
Definition withDeveloped (p : Photo) : Photo :=
  {| id := id p; dataUrl := dataUrl p; caption := caption p; timestamp := timestamp p;
     isDeveloping := false; x := x p; y := y p; rotation := rotation p;
     zIndex := zIndex p |}.

(** [p.id === photoId]. *)
Definition hasId (photoId : string) (p : Photo) : bool := String.eqb (id p) photoId.

(** [photos.findIndex(p => p.id === photoId)], counting from [i]. *)
Fixpoint findIndexFrom (photoId : string) (l : list Photo) (i : Z) : Z :=
  match l with
  | [] => -1
  | p :: l' => if hasId photoId p then i else findIndexFrom photoId l' (i + 1)
  end.

Definition findIndex (photoId : string) (l : list Photo) : Z :=
  findIndexFrom photoId l 0.

(** [photos[i]]: [undefined] outside the array. *)
Definition arrayAt (l : list Photo) (i : Z) : option Photo :=
  if (i <? 0)%Z then None else nth_error l (Z.to_nat i).

(** [a ?? b]. *)
Definition orElse (a b : option Photo) : option Photo :=
  match a with
  | Some _ => a
  | None => b
  end.

Definition withPhotos (l : list Photo) (a : App) : App :=
  {| photos := l; selectedPhoto := selectedPhoto a; maxZIndex := maxZIndex a;
     dragState := dragState a |}.

Definition select (sel : option Photo) (a : App) : App :=
  {| photos := photos a; selectedPhoto := sel; maxZIndex := maxZIndex a;
     dragState := dragState a |}.

(** The effect that follows every change of [photos] or [selectedPhoto]
    (96-104): the selection is replaced by the photo of the gallery that has
    its id, if there is one. *)
Definition syncSelected (a : App) : App :=
  match selectedPhoto a with
  | None => a
  | Some sel =>
      match find (hasId (id sel)) (photos a) with
      | Some freshPhoto => select (Some freshPhoto) a
      | None => a
      end
  end.

(** A call of [handlePhotoTaken] that has built [newPhoto] (107-129) and
    waits for [getDominantColor] (131-132): the arguments of the call, what
    it read of the window, and the [zIndex] it took from the counter. *)
Record Taken : Type := {
  takenData : Photo;
  takenStart : option (Q * Q);
  takenInnerWidth : Q;
  takenInnerHeight : Q;
  takenZ : Z;
  takenAi : bool
}.

(** [handlePhotoTaken] up to the [await]: [zIndex: ++maxZIndex.current]. *)
Definition photoTaken (newPhotoData : Photo) (startPos : option (Q * Q))
    (innerWidth innerHeight : Q) (isAiEnabled : bool) (a : App) : Taken * App :=
  ({| takenData := newPhotoData; takenStart := startPos;
      takenInnerWidth := innerWidth; takenInnerHeight := innerHeight;
      takenZ := (maxZIndex a + 1)%Z; takenAi := isAiEnabled |},
   {| photos := photos a;
      selectedPhoto := selectedPhoto a;
      maxZIndex := (maxZIndex a + 1)%Z;
      dragState := dragState a |}).

(** [newPhoto] of that call. *)
Definition newPhotoOf (t : Taken) : Photo :=
  placePhoto (takenData t) (takenStart t) (takenInnerWidth t) (takenInnerHeight t)
    (takenZ t) (AppAiConfig.initialCaption (takenAi t)).

(** [handlePhotoTaken] after the [await] (135):
    [setPhotos(prev => [...prev, newPhoto])]. *)
Definition photoAppended (t : Taken) (a : App) : App :=
  withPhotos
    (AppAiConfig.handlePhotoTaken (takenData t) (takenStart t) (takenInnerWidth t)
       (takenInnerHeight t) (takenZ t) (takenAi t) (photos a))
    a.

(** The updater of the 100 ms timer (137-149): the photo flies to the
    stack. *)
Definition landed (newPhotoId : string) (stackX stackY landingRotation : Q)
                  (prev : list Photo) : list Photo :=
  map (fun p => if hasId newPhotoId p
                then withLanding stackX stackY landingRotation p else p) prev.

(** The updater of the 6000 ms timer (152-159). *)
Definition developed (newPhotoId : string) (prev : list Photo) : list Photo :=
  map (fun p => if hasId newPhotoId p then withDeveloped p else p) prev.

(** [handleMouseDown] (195-210): bring to front and start dragging. *)
Definition handleMouseDown (clientX clientY : Q) (photoId : string) (a : App) : App :=
  match find (hasId photoId) (photos a) with
  | None => a
  | Some photo =>
      let newZ := (maxZIndex a + 1)%Z in
      {| photos := map (fun p => if hasId photoId p then withZIndex newZ p else p) (photos a);
         selectedPhoto := selectedPhoto a;
         maxZIndex := newZ;
         dragState := Some {| dragId := photoId; startX := clientX; startY := clientY;
                              initialX := x photo; initialY := y photo |} |}
  end.

(** [handleMouseMove] (213-226). *)
Definition handleMouseMove (clientX clientY : Q) (a : App) : App :=
  match dragState a with
  | None => a
  | Some d =>
      let dx := clientX - startX d in
      let dy := clientY - startY d in
      {| photos := map (fun p => if hasId (dragId d) p
                                 then withPlace (initialX d + dx) (initialY d + dy) p
                                 else p) (photos a);
         selectedPhoto := selectedPhoto a;
         maxZIndex := maxZIndex a;
         dragState := dragState a |}
  end.

(** [handleMouseUp] (228-243): a release within 5 pixels of the press is a
    click and opens the photo. *)
Definition handleMouseUp (clientX clientY : Q) (a : App) : App :=
  match dragState a with
  | None => a
  | Some d =>
      let moveX := Qabs (clientX - startX d) in
      let moveY := Qabs (clientY - startY d) in
      {| photos := photos a;
         selectedPhoto :=
           if Qgtb 5 moveX && Qgtb 5 moveY then
             match find (hasId (dragId d)) (photos a) with
             | Some photo => Some photo
             | None => selectedPhoto a
             end
           else selectedPhoto a;
         maxZIndex := maxZIndex a;
         dragState := None |}
  end.

(** The [map((p, i) => ...)] of [organizePhotos] (267-274), from index [i]
    and random draw [k]. *)
Fixpoint organizeFrom (random : RandomSource) (k : nat) (i : Z) (l : list Photo)
  : list Photo :=
  match l with
  | [] => []
  | p :: l' =>
      {| id := id p; dataUrl := dataUrl p; caption := caption p;
         timestamp := timestamp p; isDeveloping := isDeveloping p;
         x := 50 + (random k * 20 - 10);
         y := 100 + (random (S k) * 20 - 10);
         rotation := random (S (S k)) * 12 - 6;
         zIndex := (i + 1)%Z |}
        :: organizeFrom random (S (S (S k))) (i + 1) l'
  end.

(** [organizePhotos] (262-278). *)
Definition organizePhotos (random : RandomSource) (k : nat) (a : App) : App :=
  {| photos := organizeFrom random k 0 (photos a);
     selectedPhoto := selectedPhoto a;
     maxZIndex := (Z.of_nat (length (photos a)) + 1)%Z;
     dragState := dragState a |}.

(** [clearPhotos] (280-288). *)
Definition clearPhotos (a : App) : App :=
  if (length (photos a) =? 0)%nat then a
  else {| photos := []; selectedPhoto := selectedPhoto a;
          maxZIndex := maxZIndex a; dragState := dragState a |}.

(** [handleDeletePhoto] (290-295). *)
Definition handleDeletePhoto (photoId : string) (a : App) : App :=
  {| photos := List.filter (fun p => negb (hasId photoId p)) (photos a);
     selectedPhoto :=
       match selectedPhoto a with
       | Some sel => if hasId photoId sel then None else Some sel
       | None => None
       end;
     maxZIndex := maxZIndex a;
     dragState := dragState a |}.

(** [handleDeleteFromModal] (297-306). *)
Definition handleDeleteFromModal (a : App) : App :=
  match selectedPhoto a with
  | None => a
  | Some sel =>
      let idx := findIndex (id sel) (photos a) in
      let nextPhoto :=
        orElse (arrayAt (photos a) (idx + 1)) (arrayAt (photos a) (idx - 1)) in
      {| photos := List.filter (fun p => negb (hasId (id sel) p)) (photos a);
         selectedPhoto := nextPhoto;
         maxZIndex := maxZIndex a;
         dragState := dragState a |}
  end.

(** [getNavigationProps] (309-318): [hasPrev], [hasNext], [currentIndex]. *)
Definition getNavigationProps (a : App) : bool * bool * option Z :=
  match selectedPhoto a with
  | None => (false, false, None)
  | Some sel =>
      let currentIndex := findIndex (id sel) (photos a) in
      ((0 <? currentIndex)%Z,
       (currentIndex <? Z.of_nat (length (photos a)) - 1)%Z,
       Some currentIndex)
  end.

(** [handlePrevPhoto] (320-323). *)
Definition handlePrevPhoto (a : App) : App :=
  match getNavigationProps a with
  | (true, _, Some currentIndex) => select (arrayAt (photos a) (currentIndex - 1)) a
  | _ => a
  end.

(** [handleNextPhoto] (325-328). *)
Definition handleNextPhoto (a : App) : App :=
  match getNavigationProps a with
  | (_, true, Some currentIndex) => select (arrayAt (photos a) (currentIndex + 1)) a
  | _ => a
  end.

(** [e.key] as far as the modal looks at it. *)
Inductive Key : Type := ArrowLeft | ArrowRight | Escape | OtherKey.

(** [handleKeyDown] of the modal (PhotoPreviewModal.tsx, 30-38), with the
    props [App] passes; the listener exists while a photo is selected. *)
Definition handleKeyDown (key : Key) (a : App) : App :=
  match selectedPhoto a with
  | None => a
  | Some _ =>
      let '(hasPrev, hasNext, _) := getNavigationProps a in
      match key with
      | ArrowLeft => if hasPrev then handlePrevPhoto a else a
      | ArrowRight => if hasNext then handleNextPhoto a else a
      | Escape => select None a
      | OtherKey => a
      end
  end.

(** [Math.max(...zs)] for a list with head [z]. *)
Definition maxOf (z : Z) (zs : list Z) : Z := fold_left Z.max zs z.

(** [loadPhotos] (54-80): [saved] is what [get('milu_photos')] returned when
    it is an array. *)
Definition loadPhotos (saved : option (list Photo)) (a : App) : App :=
  match saved with
  | None => a
  | Some saved =>
      let processed := map withDeveloped saved in
      {| photos := processed;
         selectedPhoto := selectedPhoto a;
         maxZIndex :=
           match map zIndex processed with
           | [] => maxZIndex a
           | z :: zs => (maxOf z zs + 1)%Z
           end;
         dragState := dragState a |}
  end.

(** The gallery and the calls of [handlePhotoTaken] that wait for
    [getDominantColor]. *)
Record Desk : Type := {
  app : App;
  pendingPhotos : list Taken
}.

Definition emptyDesk : Desk := {| app := emptyApp; pendingPhotos := [] |}.

(** What the user, the promises and the timers can do to the gallery. *)
Inductive Action : Type :=
  | Load (saved : option (list Photo))
  | Take (newPhotoData : Photo) (startPos : option (Q * Q))
         (innerWidth innerHeight : Q) (isAiEnabled : bool)
  | ColorSettles (i : nat)
  | Land (newPhotoId : string) (stackX stackY landingRotation : Q)
  | Develop (newPhotoId : string)
  | CaptionArrives (newPhotoId aiCaption : string)
  | CaptionFails (newPhotoId : string)
  | EditCaption (photoId newCaption : string)
  | MouseDown (clientX clientY : Q) (photoId : string)
  | MouseMove (clientX clientY : Q)
  | MouseUp (clientX clientY : Q)
  | Organize (random : RandomSource) (k : nat)
  | Clear
  | Delete (photoId : string)
  | DeleteFromModal
  | KeyDown (key : Key).

(** A handler of [App], followed by the effect on the selection. *)
Definition handled (f : App -> App) (d : Desk) : Desk :=
  {| app := syncSelected (f (app d)); pendingPhotos := pendingPhotos d |}.

(** One action; [ColorSettles i] is the [i]-th waiting call going on (an
    index out of range is no action). *)
Definition act (e : Action) (d : Desk) : Desk :=
  match e with
  | Load saved => handled (loadPhotos saved) d
  | Take newPhotoData sp iw ih ai =>
      let '(t, a) := photoTaken newPhotoData sp iw ih ai (app d) in
      {| app := a; pendingPhotos := pendingPhotos d ++ [t] |}
  | ColorSettles i =>
      match nth_error (pendingPhotos d) i with
      | None => d
      | Some t => {| app := syncSelected (photoAppended t (app d));
                     pendingPhotos := dropAt i (pendingPhotos d) |}
      end
  | Land i sx sy r => handled (fun a => withPhotos (landed i sx sy r (photos a)) a) d
  | Develop i => handled (fun a => withPhotos (developed i (photos a)) a) d
  | CaptionArrives i c =>
      handled (fun a => withPhotos (AppAiConfig.captionResolved i c (photos a)) a) d
  | CaptionFails i =>
      handled (fun a => withPhotos (AppAiConfig.captionFailed i (photos a)) a) d
  | EditCaption i c => handled (fun a => withPhotos (handleUpdateCaption i c (photos a)) a) d
  | MouseDown cx cy i => handled (handleMouseDown cx cy i) d
  | MouseMove cx cy => handled (handleMouseMove cx cy) d
  | MouseUp cx cy => handled (handleMouseUp cx cy) d
  | Organize random k => handled (organizePhotos random k) d
  | Clear => handled clearPhotos d
  | Delete i => handled (handleDeletePhoto i) d
  | DeleteFromModal => handled handleDeleteFromModal d
  | KeyDown key => handled (handleKeyDown key) d
  end.

Definition acts (es : list Action) (d : Desk) : Desk :=
  fold_left (fun acc e => act e acc) es d.

(** No photo of the gallery lies above the counter. *)
Definition belowCounter (a : App) : Prop :=
  Forall (fun p => (zIndex p <= maxZIndex a)%Z) (photos a).

(** Nor does a photo that waits to join it. *)
Definition allBelowCounter (d : Desk) : Prop :=
  belowCounter (app d) /\
  Forall (fun t => (takenZ t <= maxZIndex (app d))%Z) (pendingPhotos d).

(** [organizePhotos] and [loadPhotos] assign the counter instead of
    incrementing it. *)
Definition resetsCounter (e : Action) : bool :=
  match e with
  | Organize _ _ | Load _ => true
  | _ => false
  end.

(** The counter is not reset while a call of [handlePhotoTaken] waits. *)
Fixpoint calm (es : list Action) (d : Desk) : bool :=
  match es with
  | [] => true
  | e :: es' =>
      (negb (resetsCounter e) || (length (pendingPhotos d) =? 0)%nat)
      && calm es' (act e d)
  end.

End Gallery.

(** ** [generatePhotoCaption] (services/geminiService.ts) *)

Module CaptionService.

(** [config.openaiConfig]: [{ baseUrl, apiKey, model }]. *)
Record OpenAiConfig : Type := {
  baseUrl : string;
  apiKey : string;
  model : string
}.

(** [AiConfig]: [{ enabled, provider, openaiConfig }]; the provider is the
    string the code compares with ['openai']. *)
Record AiConfig : Type := {
  enabled : bool;
  provider : string;
  openaiConfig : option OpenAiConfig
}.

Definition defaultCaption : string := "Beautiful Moment".

(** ASCII lower case, the only folding the [i] flag performs on the
    characters of [https?://]. *)
Definition lowerAscii (c : Ascii.ascii) : Ascii.ascii :=
  let n := Ascii.nat_of_ascii c in
  if ((65 <=? n) && (n <=? 90))%nat then Ascii.ascii_of_nat (n + 32) else c.

Fixpoint startsWith (pre l : list Ascii.ascii) : bool :=
  match pre, l with
  | [], _ => true
  | a :: pre', b :: l' => Ascii.eqb a b && startsWith pre' l'
  | _ :: _, [] => false
  end.

(** [/^https?:\/\//i.test(s)]. *)
Definition hasHttpScheme (s : string) : bool :=
  let l := map lowerAscii (list_ascii_of_string s) in
  startsWith (list_ascii_of_string "http://") l
  || startsWith (list_ascii_of_string "https://") l.

Fixpoint dropSlashes (l : list Ascii.ascii) : list Ascii.ascii :=
  match l with
  | [] => []
  | c :: l' => if Ascii.eqb c "/"%char then dropSlashes l' else l
  end.

(** [url.replace(/\/+$/, '')]. *)
Definition stripTrailingSlashes (s : string) : string :=
  string_of_list_ascii (rev (dropSlashes (rev (list_ascii_of_string s)))).

(** [s.endsWith(suffix)]. *)
Definition endsWith (s suffix : string) : bool :=
  startsWith (rev (list_ascii_of_string suffix)) (rev (list_ascii_of_string s)).

(** The request URL built from [baseUrl] (28-40). *)
Definition endpoint (baseUrl : string) : string :=
  let baseUrl :=
    if negb (String.eqb baseUrl "") && negb (hasHttpScheme baseUrl)
    then ("https://" ++ baseUrl)%string
    else baseUrl in
  let url := if String.eqb baseUrl "" then "https://api.openai.com/v1"%string else baseUrl in
  let url := stripTrailingSlashes url in
  if negb (endsWith url "/chat/completions")
  then (url ++ "/chat/completions")%string
  else url.

(** What [fetch] and the reading of its response come to. *)
Inductive Response : Type :=
  | FetchFails (message : string)                 (* [fetch] rejects *)
  | NotOk (status : string) (statusText : string) (errorBodyHead : option string)
          (jsonErrorMessage : option (option string))
  | OkBody (content : option string)              (* [choices?.[0]?.message?.content] *)
  | OkUnreadable (message : string).              (* [response.json()] rejects *)

(** What [ai.models.generateContent] comes to: the [text] of the response,
    or the [message] of the error thrown. *)
Inductive GeminiResult : Type :=
  | GeminiText (text : option string)
  | GeminiThrows (message : option string).

Record Request : Type := {
  requestUrl : string;
  bearer : string;
  requestModel : string;
  image : string
}.

(** The world outside: the key of the build, the two services, and
    [String.prototype.trim]. *)
Record World : Type := {
  API_KEY : string;
  fetch : Request -> Response;
  generateContent : string -> GeminiResult;
  trim : string -> string
}.

Inductive Outcome : Type :=
  | Returned (caption : string)
  | Thrown (message : string).

(** [text?.trim() || defaultCaption]. *)
Definition trimmedOrDefault (W : World) (text : option string) : string :=
  match text with
  | None => defaultCaption
  | Some t => if String.eqb (trim W t) "" then defaultCaption else trim W t
  end.

(** [a || b] on strings. *)
Definition orString (a b : string) : string :=
  if String.eqb a "" then b else a.

(** The message thrown for a response that is not ok (66-81).
    [errorBodyHead] is [errorBody.substring(0, 100)], absent when
    [response.text()] rejects; [jsonErrorMessage] is [json.error.message],
    absent when the body does not parse or has no such field. *)
Definition notOkMessage (status statusText : string) (errorBodyHead : option string)
    (jsonErrorMessage : option (option string)) : string :=
  let errorMsg := ("Status " ++ status ++ ": " ++ statusText)%string in
  match errorBodyHead with
  | None => errorMsg
  | Some head =>
      match jsonErrorMessage with
      | None => errorMsg
      | Some (Some m) => if String.eqb m "" then head else m
      | Some None => head
      end
  end.

(** [generatePhotoCaption(base64Image, config)]: how the promise settles and
    the requests sent to OpenAI or Gemini, in order. *)
Definition generatePhotoCaption (W : World) (base64Image : string)
    (config : option AiConfig) : Outcome * list string :=
  match config with
  | None => (Returned defaultCaption, [])
  | Some config =>
      if negb (enabled config) then (Returned defaultCaption, [])
      else
        match (if String.eqb (provider config) "openai" then openaiConfig config else None) with
        | Some oc =>
            if String.eqb (apiKey oc) "" then (Thrown "OpenAI API Key is missing", [])
            else
              let url := endpoint (baseUrl oc) in
              let req := {| requestUrl := url; bearer := apiKey oc;
                            requestModel := orString (model oc) "gpt-4o-mini";
                            image := base64Image |} in
              (match fetch W req with
               | FetchFails m => Thrown m
               | NotOk status statusText errorBodyHead jsonErrorMessage =>
                   Thrown (notOkMessage status statusText errorBodyHead jsonErrorMessage)
               | OkBody content => Returned (trimmedOrDefault W content)
               | OkUnreadable m => Thrown m
               end, [url])
        | None =>
            if String.eqb (API_KEY W) "" then (Returned defaultCaption, [])
            else
              (match generateContent W base64Image with
               | GeminiText text => Returned (trimmedOrDefault W text)
               | GeminiThrows m =>
                   Thrown ("Gemini Error: "
                           ++ orString (match m with Some m' => m' | None => "" end)
                                       "Unknown")
               end, ["gemini-2.5-flash"%string])
        end
  end.

(** The earlier revision (part_000, 758-797): every failure is caught. *)
Definition generatePhotoCaptionV1 (W : World) (base64Image : string) : Outcome * list string :=
  if String.eqb (API_KEY W) "" then (Returned defaultCaption, [])
  else
    (match generateContent W base64Image with
     | GeminiText text => Returned (trimmedOrDefault W text)
     | GeminiThrows _ => Returned defaultCaption
     end, ["gemini-2.5-flash"%string]).

End CaptionService.

(** ** A sample gallery *)

(** A second photo, taken a minute after [samplePhoto]. *)
Definition laterPhoto : Photo :=
  {| id := "1763000060000"; dataUrl := "data:image/jpeg;base64,/9j/4AAQSkZJRg==";
     caption := Some "Beautiful Moment"%string; timestamp := 1763000060000;
     isDeveloping := false; x := 300; y := 140; rotation := 3; zIndex := 12 |}.

(** Two photos with the first one open in the modal. *)
Definition twoPhotos : Gallery.App :=
  {| Gallery.photos := [samplePhoto None; laterPhoto];
     Gallery.selectedPhoto := Some (samplePhoto None);
     Gallery.maxZIndex := 12; Gallery.dragState := None |}.

(** * Properties *)

(** ** Numbers and the grain loop *)

Lemma Qgtb_true (a b : Q) : Qgtb a b = true <-> b < a.
Proof.
  unfold Qgtb. rewrite negb_true_iff. split; intro H.
  - apply Qnot_le_lt. intro Hle. apply Qle_bool_iff in Hle. congruence.
  - destruct (Qle_bool a b) eqn:E; [|reflexivity].
    apply Qle_bool_iff in E. exfalso. apply (Qlt_not_le _ _ H E).
Qed.

Lemma Qgtb_false (a b : Q) : Qgtb a b = false <-> a <= b.
Proof.
  unfold Qgtb. rewrite negb_false_iff. apply Qle_bool_iff.
Qed.

Lemma ToUint8Clamp_range (x : Q) : (0 <= ToUint8Clamp x <= 255)%Z.
Proof.
  unfold ToUint8Clamp.
  destruct (Qle_bool x 0) eqn:E0; [lia|].
  destruct (Qle_bool 255 x) eqn:E1; [lia|].
  assert (H0 : 0 < x).
  { apply Qnot_le_lt. intro H. apply Qle_bool_iff in H. congruence. }
  assert (H1 : x < 255).
  { apply Qnot_le_lt. intro H. apply Qle_bool_iff in H. congruence. }
  assert (Hf0 : (0 <= Qfloor x)%Z).
  { change 0%Z with (Qfloor 0). apply Qfloor_resp_le. apply Qlt_le_weak, H0. }
  assert (Hf1 : (Qfloor x < 255)%Z).
  { rewrite Zlt_Qlt. eapply Qle_lt_trans; [apply Qfloor_le|exact H1]. }
  destruct (Qcompare _ x); [destruct (Z.even _)| |]; lia.
Qed.

Lemma clamp255_range (x : Q) : 0 <= clamp255 x /\ clamp255 x <= 255.
Proof.
  unfold clamp255. split.
  - apply Q.le_max_l.
  - apply Q.max_lub; [discriminate|apply Q.le_min_l].
Qed.



Lemma grainLoop_nth (amount : Q) (random : RandomSource) :
  forall (j k : nat) (data : list Z) (c : nat),
    (4 * j + c < length data)%nat -> (c < 4)%nat ->
    nth (4 * j + c) (grainLoop amount random k data) 0%Z =
      if (c =? 3)%nat then nth (4 * j + c) data 0%Z
      else grainChannel (nth (4 * j + c) data 0%Z) (noiseOf amount random (k + j)).
Proof.
  induction j as [|j IH]; intros k data c Hlen Hc.
  - rewrite Nat.add_0_r.
    destruct data as [|r [|g [|b [|a rest]]]];
      destruct c as [|[|[|[|c]]]]; simpl in *; try lia; reflexivity.
  - destruct data as [|r [|g [|b [|a rest]]]]; simpl in Hlen; try lia.
    replace (4 * S j + c)%nat with (S (S (S (S (4 * j + c))))) by lia.
    cbn [grainLoop nth].
    rewrite IH by (simpl; lia).
    replace (S k + j)%nat with (k + S j)%nat by lia. reflexivity.
Qed.

Lemma grainLoop_length (amount : Q) (random : RandomSource) :
  forall (n k : nat) (data : list Z),
    (length data <= n)%nat -> length (grainLoop amount random k data) = length data.
Proof.
  induction n as [|n IH]; intros k data Hn.
  - destruct data; [reflexivity|simpl in Hn; lia].
  - destruct data as [|r [|g [|b [|a rest]]]]; try reflexivity.
    cbn [grainLoop length]. rewrite IH by (simpl in Hn; lia). reflexivity.
Qed.

Lemma index_split (i : nat) : (i = 4 * (i / 4) + i mod 4 /\ i mod 4 < 4)%nat.
Proof.
  split; [apply Nat.div_mod_eq|apply Nat.mod_upper_bound; lia].
Qed.

Lemma skipn_length_app {A : Type} (l m : list A) : skipn (length l) (l ++ m) = m.
Proof. induction l as [|a l IH]; [reflexivity|exact IH]. Qed.

Lemma callsMadeBy_app (f : Canvas -> Canvas) (c : Canvas) (cs : list Call) :
  calls (f c) = calls c ++ cs -> callsMadeBy f c = cs.
Proof. intro H. unfold callsMadeBy. rewrite H. apply skipn_length_app. Qed.

Lemma callsMadeBy_none (f : Canvas -> Canvas) (c : Canvas) :
  calls (f c) = calls c -> callsMadeBy f c = [].
Proof.
  intro H. apply callsMadeBy_app. rewrite app_nil_r. exact H.
Qed.

Lemma noiseAmount_positive (filterType : FilterType) :
  filterType <> ORIGINAL -> Qgtb (noiseAmount filterType) 0 = true.
Proof. destruct filterType; intro H; try reflexivity. contradiction. Qed.

(** C2.  The grain pass of the pipeline works with the amplitude 0 for
    ORIGINAL, 45 for RETRO_NOIR and 25 for every other preset.  For ORIGINAL
    nothing is injected: no pixel is read or written and no random number is
    drawn.  For every other preset the pixel array is read back, run through
    the grain loop with exactly that amplitude and written back: channel [c]
    of pixel [j] becomes its old value plus [(random - 0.5) * amplitude] for
    the [j]-th draw, clamped and stored. *)
Theorem grain_amplitude_by_preset
    (filterType : FilterType) (random : RandomSource) (k : nat) (ctx : Canvas) :
  let amplitude : Q :=
    match filterType with
    | ORIGINAL => 0
    | RETRO_NOIR => 45
    | _ => 25
    end in
  let before := data (pixels ctx) in
  let graded := grain filterType random k ctx in
  let after := data (pixels (fst graded)) in
  let made := callsMadeBy (fun c => fst (grain filterType random k c)) ctx in
  (filterType = ORIGINAL ->
   pixels (fst graded) = pixels ctx /\ snd graded = k /\ made = []) /\
  (filterType <> ORIGINAL ->
   after = grainLoop amplitude random k before /\
   snd graded = (k + grainIterations before)%nat /\
   made = [GetImageDataCall; PutImageDataCall] /\
   forall j c, (4 * j + 3 < length before)%nat -> (c < 3)%nat ->
     nth (4 * j + c) after 0%Z
     = ToUint8Clamp
         (clamp255 (inject_Z (nth (4 * j + c) before 0%Z)
                    + (random (k + j)%nat - 0.5) * amplitude))).
Proof.
  intros amplitude before graded after made. split.
  - intros ->. subst graded made. repeat split.
    apply callsMadeBy_none. reflexivity.
  - intro Hf.
    assert (Ha : noiseAmount filterType = amplitude)
      by (subst amplitude; destruct filterType; reflexivity).
    assert (Hafter : after = grainLoop amplitude random k before).
    { subst after graded before. unfold grain, grainWith.
      rewrite (noiseAmount_positive filterType Hf), Ha. reflexivity. }
    split; [exact Hafter|]. split; [|split].
    + subst graded before. unfold grain, grainWith.
      rewrite (noiseAmount_positive filterType Hf). reflexivity.
    + subst made. apply callsMadeBy_app. unfold grain, grainWith.
      rewrite (noiseAmount_positive filterType Hf). reflexivity.
    + intros j c Hlen Hc. rewrite Hafter.
      rewrite (grainLoop_nth amplitude random j k before c) by lia.
      replace (c =? 3)%nat with false by (symmetry; apply Nat.eqb_neq; lia).
      reflexivity.
Qed.

Lemma grain_amplitude_by_preset_witness :
  data (pixels (fst (grain RETRO_NOIR sampleRandom 0 sampleCanvas)))
    = [0; 106; 228; 255; 139; 139; 139; 77]%Z /\
  snd (grain RETRO_NOIR sampleRandom 0 sampleCanvas) = 2%nat.
Proof.
  destruct (proj2 (grain_amplitude_by_preset RETRO_NOIR sampleRandom 0 sampleCanvas)
              ltac:(discriminate)) as (Hdata & Hdraws & _).
  split; [rewrite Hdata|rewrite Hdraws]; reflexivity.
Defined.


Lemma sampleRandom_in_unit_interval : in_unit_interval sampleRandom.
Proof.
  intro n. unfold sampleRandom. destruct (Nat.even n); split; reflexivity || discriminate.
Qed.




(** ** The beautify pass *)

(** C7.  With [beautyLevel = 0] the beautify pass returns the canvas it was
    given, on the final-capture path and on the live-preview path alike, so
    the filter pass of every preset starts from the very same canvas. *)
Theorem beautify_level_zero_is_noop
    (R : Renderer) (tempCtxOk bCtxOk : bool) (filterType : FilterType)
    (video : Video) (ctx : Canvas) :
  beautify R tempCtxOk 0 ctx = ctx /\
  previewBeauty R video 0 ctx = ctx /\
  vintage R bCtxOk filterType (beautify R tempCtxOk 0 ctx)
    = vintage R bCtxOk filterType ctx /\
  previewFilters R filterType (previewBeauty R video 0 ctx)
    = previewFilters R filterType ctx.
Proof. repeat split; reflexivity. Qed.

Lemma strength_positive (level : Q) : 1 <= level -> 0 < level / 100.
Proof.
  intro H. unfold Qdiv. change (/ 100) with (1 # 100). lra.
Qed.

(** C4.  For a beauty level between 1 and 100, with
    [strength = beautyLevel / 100].  On the final-capture path (its temporary
    context acquired) the pixels of the output canvas become what the engine
    gives for drawing, under [screen] at alpha [0.5 * strength], a copy of
    the bitmap blurred with radius [3 + strength * 8] over the original; the
    context is left at [source-over], alpha 1.  On the live-preview path the
    pixels become what the engine gives for drawing the mirrored frame,
    blurred with radius [5 + strength * 12], under [screen] at alpha
    [strength * 0.6] over the canvas; the context is restored.  Each path
    makes that one draw on its canvas, and the two radii differ and the two
    alphas differ. *)
Theorem beautify_constants_per_path
    (R : Renderer) (beautyLevel : Q) (video : Video) (ctx : Canvas) :
  1 <= beautyLevel -> beautyLevel <= 100 ->
  let strength := beautyLevel / 100 in
  let src := pixels ctx in
  let blurState (radius : Q) :=
    {| filter := [Blur radius]; globalCompositeOperation := SourceOver;
       globalAlpha := 1; fillStyle := Solid (rgba 0 0 0 1); transform := [] |} in
  let blurredCopy :=
    drawOnto R (blurState (3 + strength * 8)) src
      (drawOnto R defaultState src (blank (width src) (height src))) in
  let screenFinal :=
    {| filter := filter (state ctx); globalCompositeOperation := Screen;
       globalAlpha := 0.5 * strength; fillStyle := fillStyle (state ctx);
       transform := transform (state ctx) |} in
  let screenLive :=
    {| filter := [Blur (5 + strength * 12)]; globalCompositeOperation := Screen;
       globalAlpha := strength * 0.6; fillStyle := fillStyle (state ctx);
       transform := transform (state ctx)
                      ++ [Translate (inject_Z (width src)) 0; Scale (-1) 1] |} in
  let final := beautify R true beautyLevel ctx in
  let live := previewBeauty R video beautyLevel ctx in
  (pixels final = drawOnto R screenFinal blurredCopy src /\
   state final =
     {| filter := filter (state ctx); globalCompositeOperation := SourceOver;
        globalAlpha := 1; fillStyle := fillStyle (state ctx);
        transform := transform (state ctx) |} /\
   callsMadeBy (beautify R true beautyLevel) ctx = [DrawImageCall screenFinal blurredCopy]) /\
  (pixels live = drawOnto R screenLive (frame video) src /\
   state live = state ctx /\ saved live = saved ctx /\
   callsMadeBy (previewBeauty R video beautyLevel) ctx
     = [DrawImageCall screenLive (frame video)]) /\
  ~ (3 + strength * 8 == 5 + strength * 12) /\
  ~ (0.5 * strength == strength * 0.6).
Proof.
  intros Hlo Hhi strength src blurState blurredCopy screenFinal screenLive final live.
  assert (Hgt : Qgtb beautyLevel 0 = true) by (apply Qgtb_true; lra).
  assert (Hs : 0 < strength) by (apply strength_positive; exact Hlo).
  split; [|split; [|split]].
  - subst final. unfold beautify. rewrite Hgt. split; [reflexivity|].
    split; [reflexivity|]. apply callsMadeBy_app. reflexivity.
  - subst live. unfold previewBeauty. rewrite Hgt.
    split; [cbn; rewrite <- app_assoc; reflexivity|].
    split; [reflexivity|]. split; [reflexivity|].
    apply callsMadeBy_app. cbn. rewrite <- app_assoc. reflexivity.
  - intro H. lra.
  - intro H. lra.
Qed.

Lemma beautify_constants_per_path_witness :
  pixels (beautify sampleRenderer true 80 sampleCanvas)
    = drawOnto sampleRenderer
        {| filter := []; globalCompositeOperation := Screen;
           globalAlpha := 0.5 * (80 / 100); fillStyle := Solid (rgba 0 0 0 1);
           transform := [] |}
        (drawOnto sampleRenderer
           {| filter := [Blur (3 + (80 / 100) * 8)];
              globalCompositeOperation := SourceOver; globalAlpha := 1;
              fillStyle := Solid (rgba 0 0 0 1); transform := [] |}
           (pixels sampleCanvas)
           (drawOnto sampleRenderer defaultState (pixels sampleCanvas) (blank 2 1)))
        (pixels sampleCanvas) /\
  pixels (previewBeauty sampleRenderer sampleVideo 80 sampleCanvas)
    = drawOnto sampleRenderer
        {| filter := [Blur (5 + (80 / 100) * 12)]; globalCompositeOperation := Screen;
           globalAlpha := (80 / 100) * 0.6; fillStyle := Solid (rgba 0 0 0 1);
           transform := [Translate 2 0; Scale (-1) 1] |}
        (frame sampleVideo) (pixels sampleCanvas).
Proof.
  destruct (beautify_constants_per_path sampleRenderer 80 sampleVideo sampleCanvas
              ltac:(discriminate) ltac:(discriminate))
    as ((Hfinal & _) & (Hlive & _) & _).
  split; [exact Hfinal|exact Hlive].
Defined.

(** ** Failure paths of [applyVintageFilter] *)

(** C6.  The promise of [applyVintageFilter] never rejects; when the image
    does not decode, or when the 2D context of the output canvas cannot be
    acquired, it resolves with the input image source itself and draws no
    random number. *)
Theorem applyVintageFilter_never_rejects
    (R : Renderer) (cx : Contexts) (random : RandomSource) (k : nat)
    (imageSrc : string) (filterType : FilterType) (beautyLevel : Q) :
  (forall reason,
     fst (applyVintageFilter R cx random k imageSrc filterType beautyLevel)
       <> Rejected reason) /\
  (decodeImage R imageSrc = None ->
     applyVintageFilter R cx random k imageSrc filterType beautyLevel
       = (Resolved imageSrc, k)) /\
  (ctxAvailable cx = false ->
     applyVintageFilter R cx random k imageSrc filterType beautyLevel
       = (Resolved imageSrc, k)).
Proof.
  unfold applyVintageFilter. repeat split.
  - intro reason. destruct (decodeImage R imageSrc) as [img|]; [|discriminate].
    destruct (ctxAvailable cx); cbn [negb]; [|discriminate].
    destruct (gradedCanvas R cx img filterType beautyLevel random k). discriminate.
  - intros ->. reflexivity.
  - intros ->. destruct (decodeImage R imageSrc); reflexivity.
Qed.

Lemma applyVintageFilter_never_rejects_witness :
  applyVintageFilter sampleRenderer allContexts sampleRandom 0
    "not an image" RETRO_NOIR 80 = (Resolved "not an image"%string, 0%nat) /\
  applyVintageFilter sampleRenderer noContext sampleRandom 0
    samplePng RETRO_NOIR 80 = (Resolved samplePng, 0%nat).
Proof.
  split.
  - apply (proj1 (proj2 (applyVintageFilter_never_rejects sampleRenderer allContexts
                           sampleRandom 0 "not an image" RETRO_NOIR 80))).
    reflexivity.
  - apply (proj2 (proj2 (applyVintageFilter_never_rejects sampleRenderer noContext
                           sampleRandom 0 samplePng RETRO_NOIR 80))).
    reflexivity.
Defined.

Ltac made_calls :=
  repeat first
    [ rewrite callsMadeBy_none by reflexivity
    | erewrite callsMadeBy_app
        by (cbn; repeat rewrite <- app_assoc; reflexivity) ].

(** ** The identity law *)

Lemma prefix_of_append (p t : string) : String.prefix p (p ++ t) = true.
Proof.
  induction p as [|a p IH]; [destruct t; reflexivity|].
  cbn [String.append String.prefix]. destruct (ascii_dec a a) as [_|Hne];
    [exact IH|destruct (Hne eq_refl)].
Qed.

(** C3 does not hold of the value [applyVintageFilter] resolves with.  The
    source [samplePng] is a PNG that decodes to one pixel; graded with
    ORIGINAL and beauty level 0 the canvas holds exactly that pixel, but the
    promise resolves with the JPEG data URL of the canvas, which is not the
    source. *)
Lemma original_output_is_not_the_input :
  decodeImage sampleRenderer samplePng = Some samplePixel /\
  pixels (fst (gradedCanvas sampleRenderer allContexts samplePixel ORIGINAL 0
                 sampleRandom 0)) = samplePixel /\
  fst (applyVintageFilter sampleRenderer allContexts sampleRandom 0 samplePng ORIGINAL 0)
    = Resolved ("data:image/jpeg;base64,"
                ++ jpegBase64 sampleRenderer samplePixel 0.92) /\
  fst (applyVintageFilter sampleRenderer allContexts sampleRandom 0 samplePng ORIGINAL 0)
    <> Resolved samplePng.
Proof.
  repeat split. intro H. vm_compute in H. discriminate.
Qed.

(** C3, amended.  Under an engine that copies faithfully, for a source that
    decodes to an image of positive size and with the output and base contexts
    acquired, grading with ORIGINAL and beauty level 0 leaves on the canvas
    exactly the decoded pixels: no tint layer is filled, the pixels are not
    rewritten and no random number is drawn.  [applyVintageFilter] then
    resolves with ["data:image/jpeg;base64,"] followed by the JPEG encoding
    at quality 0.92 of those pixels.  That value is the input source only if
    the source is itself this very data URL; for every source that is not a
    JPEG data URL it differs from the source. *)
Theorem original_keeps_pixels_and_reencodes
    (R : Renderer) (cx : Contexts) (random : RandomSource) (k : nat)
    (imageSrc : string) (img : Bitmap) :
  copies_faithfully R ->
  decodeImage R imageSrc = Some img ->
  (0 < width img)%Z -> (0 < height img)%Z ->
  ctxAvailable cx = true ->
  bCtxAvailable cx = true ->
  let graded := gradedCanvas R cx img ORIGINAL 0 random k in
  let output := ("data:image/jpeg;base64," ++ jpegBase64 R img 0.92)%string in
  let result := applyVintageFilter R cx random k imageSrc ORIGINAL 0 in
  pixels (fst graded) = img /\
  layersOf (calls (fst graded)) = [] /\
  rewritesPixels (calls (fst graded)) = false /\
  result = (Resolved output, k) /\
  (fst result = Resolved imageSrc <-> imageSrc = output) /\
  (String.prefix "data:image/jpeg;base64," imageSrc = false ->
   fst result <> Resolved imageSrc).
Proof.
  intros HR Hdec Hw Hh Hctx Hb graded output result.
  assert (Hpx : pixels (fst graded) = img).
  { subst graded. unfold gradedCanvas. rewrite Hb. cbn -[blank].
    change (Build_DrawState [] SourceOver 1 (Solid (rgba 0 0 0 1)) [])
      with defaultState.
    rewrite !(HR img). reflexivity. }
  assert (Hres : result = (Resolved output, k)).
  { subst result output. unfold applyVintageFilter. rewrite Hdec, Hctx. cbn [negb].
    fold graded.
    destruct graded as [canvas k'] eqn:E.
    cbn [fst] in Hpx. unfold toDataURL. rewrite Hpx.
    assert (Hk : k' = k).
    { change k' with (snd (canvas, k')). rewrite <- E. reflexivity. }
    rewrite Hk.
    replace (width img =? 0)%Z with false by (symmetry; apply Z.eqb_neq; lia).
    replace (height img =? 0)%Z with false by (symmetry; apply Z.eqb_neq; lia).
    reflexivity. }
  split; [exact Hpx|]. split; [|split]; [subst graded; unfold gradedCanvas;
    rewrite Hb; reflexivity..|].
  split; [exact Hres|]. rewrite Hres. cbn [fst]. split.
  - split; intro H; [injection H as H; symmetry; exact H|rewrite H; reflexivity].
  - intros Hpre H. injection H as H. rewrite <- H in Hpre. subst output.
    rewrite prefix_of_append in Hpre. discriminate.
Qed.

Lemma sampleRenderer_copies : copies_faithfully sampleRenderer.
Proof. intro src. reflexivity. Qed.

Lemma original_keeps_pixels_and_reencodes_witness :
  pixels (fst (gradedCanvas sampleRenderer allContexts samplePixel ORIGINAL 0
                 sampleRandom 0)) = samplePixel /\
  fst (applyVintageFilter sampleRenderer allContexts sampleRandom 0 samplePng ORIGINAL 0)
    <> Resolved samplePng.
Proof.
  destruct (original_keeps_pixels_and_reencodes sampleRenderer allContexts sampleRandom 0
              samplePng samplePixel sampleRenderer_copies eq_refl eq_refl eq_refl
              eq_refl eq_refl)
    as (Hpixels & _ & _ & _ & _ & Hdiffers).
  split; [exact Hpixels|apply Hdiffers; reflexivity].
Defined.

(** ** The two paths compared *)

(** C1 does not hold: for RETRO_CLASSIC the two paths fill the same tint
    layer, but the final path draws the image under the filter of the preset
    and has a grain pass, while the live path draws its frame under no filter
    and has no grain pass, so the recipes read off the two paths differ. *)
Lemma preview_recipe_differs_from_final :
  baseAdjust (previewRecipe sampleRenderer sampleVideo 0 RETRO_CLASSIC sampleCanvas)
    = [[]] /\
  baseAdjust (finalRecipe sampleRenderer true RETRO_CLASSIC sampleRandom 0 sampleCanvas)
    = [[Sepia 0.4; Saturate 1.4; Contrast 1.1; Brightness 1.05]] /\
  tintLayers (previewRecipe sampleRenderer sampleVideo 0 RETRO_CLASSIC sampleCanvas)
    = [(Overlay, Solid (rgba 255 190 100 0.3))] /\
  tintLayers (finalRecipe sampleRenderer true RETRO_CLASSIC sampleRandom 0 sampleCanvas)
    = [(Overlay, Solid (rgba 255 190 100 0.3))] /\
  grainPass (previewRecipe sampleRenderer sampleVideo 0 RETRO_CLASSIC sampleCanvas)
    = false /\
  grainPass (finalRecipe sampleRenderer true RETRO_CLASSIC sampleRandom 0 sampleCanvas)
    = true /\
  previewRecipe sampleRenderer sampleVideo 0 RETRO_CLASSIC sampleCanvas
    <> finalRecipe sampleRenderer true RETRO_CLASSIC sampleRandom 0 sampleCanvas.
Proof.
  repeat split. intro H. apply (f_equal grainPass) in H.
  vm_compute in H. discriminate.
Qed.

(** C1, amended.  Starting from a context without filter, for every preset,
    every frame and every beauty level: the grain pass belongs to the
    final-capture path only, which reads back and rewrites the pixels exactly
    when the preset is not ORIGINAL, while the live path never does; the tint
    layers the live path fills are, in order, leading layers of the final
    path's, with the same blend mode and the same RGB colour, and for
    ORIGINAL and RETRO_CLASSIC the two lists of layers are equal; for
    ORIGINAL at beauty level 0 the two paths apply the same recipe. *)
Theorem preview_shares_core_of_final_recipe
    (R : Renderer) (bCtxOk : bool) (filterType : FilterType)
    (random : RandomSource) (k : nat) (video : Video) (beautyLevel : Q) (c : Canvas) :
  filter (state c) = [] ->
  let live := previewRecipe R video beautyLevel filterType c in
  let final := finalRecipe R bCtxOk filterType random k c in
  grainPass live = false /\
  grainPass final = negb (filter_eqb filterType ORIGINAL) /\
  isPrefix layerKind_eqb (tintLayers live) (tintLayers final) = true /\
  (filterType = ORIGINAL \/ filterType = RETRO_CLASSIC ->
   tintLayers live = tintLayers final) /\
  (filterType = ORIGINAL -> previewRecipe R video 0 filterType c = final).
Proof.
  intro Hnone. unfold previewRecipe, finalRecipe, recipeOf.
  cbn [grainPass tintLayers].
  split; [|split; [|split; [|split]]].
  - unfold previewFrame, previewBeauty.
    destruct (Qgtb beautyLevel 0); destruct filterType; made_calls; reflexivity.
  - destruct bCtxOk; destruct filterType; made_calls; reflexivity.
  - unfold previewFrame, previewBeauty.
    destruct (Qgtb beautyLevel 0); destruct bCtxOk; destruct filterType; made_calls;
      reflexivity.
  - unfold previewFrame, previewBeauty.
    intros [H|H]; subst filterType;
      destruct (Qgtb beautyLevel 0); destruct bCtxOk; made_calls; reflexivity.
  - intros ->. destruct bCtxOk; made_calls; cbn; rewrite Hnone; reflexivity.
Qed.

Lemma preview_shares_core_of_final_recipe_witness :
  tintLayers (previewRecipe sampleRenderer sampleVideo 80 RETRO_CLASSIC sampleCanvas)
    = tintLayers (finalRecipe sampleRenderer true RETRO_CLASSIC sampleRandom 0
                    sampleCanvas) /\
  previewRecipe sampleRenderer sampleVideo 0 ORIGINAL sampleCanvas
    = finalRecipe sampleRenderer true ORIGINAL sampleRandom 0 sampleCanvas.
Proof.
  split.
  - apply (proj1 (proj2 (proj2 (proj2
             (preview_shares_core_of_final_recipe sampleRenderer true RETRO_CLASSIC
                sampleRandom 0 sampleVideo 80 sampleCanvas eq_refl))))).
    right. reflexivity.
  - apply (proj2 (proj2 (proj2 (proj2
             (preview_shares_core_of_final_recipe sampleRenderer true ORIGINAL
                sampleRandom 0 sampleVideo 0 sampleCanvas eq_refl))))).
    reflexivity.
Defined.

(** ** The shutter *)

Section ShutterFacts.

Variable R : Renderer.
Variable subImage : Bitmap -> Q -> Q -> Q -> Bitmap.

Lemma dropAt_split {A : Type} (l : list A) :
  forall (i : nat) (a : A),
    nth_error l i = Some a ->
    exists l1 l2, l = l1 ++ a :: l2 /\ dropAt i l = l1 ++ l2.
Proof.
  induction l as [|b l IH]; intros [|i] a H; try discriminate.
  - injection H as ->. exists [], l. split; reflexivity.
  - destruct (IH i a H) as (l1 & l2 & Hl & Hd).
    exists (b :: l1), l2. split.
    + cbn. f_equal. exact Hl.
    + unfold dropAt in *. cbn. f_equal. exact Hd.
Qed.

Lemma takePhoto_cases (contextOk : bool) (s : Camera) :
  takePhoto R subImage contextOk s = (s, []) \/
  (isShooting s = false /\
   isShooting (fst (takePhoto R subImage contextOk s)) = true /\
   (length (pendingOf s (snd (takePhoto R subImage contextOk s))) <= 1)%nat /\
   List.filter isEject (timersOf (snd (takePhoto R subImage contextOk s))) = []).
Proof.
  unfold takePhoto.
  destruct (videoRef s) as [video|]; [|left; reflexivity].
  destruct (captureCanvasRef s) as [canvas|]; [|left; reflexivity].
  destruct (isShooting s) eqn:Es; [left; reflexivity|]. cbn [orb].
  destruct (negb (isCameraOn s)); [left; reflexivity|].
  destruct (readyState video <? 2)%Z; [left; reflexivity|].
  right. destruct contextOk; cbn; repeat split; lia.
Qed.

Lemma absorb_nothing (s : Camera) (ss : Session) :
  absorb s (camera ss, []) (awaiting ss) (timers ss) = ss.
Proof.
  unfold absorb. cbn. rewrite !app_nil_r. destruct ss; reflexivity.
Qed.

Lemma takePhoto_keeps_one_capture (contextOk : bool) (ss : Session) :
  oneCaptureAtMost ss ->
  oneCaptureAtMost (absorb (camera ss) (takePhoto R subImage contextOk (camera ss))
         (awaiting ss) (timers ss)).
Proof.
  intros [Hle Hidle].
  destruct (takePhoto_cases contextOk (camera ss)) as [E|(Hs & Hs' & Hp & Ht)].
  - rewrite E, absorb_nothing. split; assumption.
  - specialize (Hidle Hs). unfold oneCaptureAtMost, capturesInFlight, absorb in *.
    cbn [camera awaiting timers].
    rewrite List.length_app, filter_app, List.length_app, Ht. cbn [length].
    split; [lia|]. intro Hf. congruence.
Qed.

Lemma step_keeps_one_capture (e : Event) (ss : Session) : oneCaptureAtMost ss -> oneCaptureAtMost (step R subImage e ss).
Proof.
  intro Hinv. destruct e as [ok|ok|i url now now'|i]; cbn [step].
  - unfold clickShutter. destruct (shutterDisabled (camera ss)).
    + rewrite absorb_nothing. exact Hinv.
    + apply takePhoto_keeps_one_capture, Hinv.
  - apply takePhoto_keeps_one_capture, Hinv.
  - destruct (nth_error (awaiting ss) i) as [[s0 raw]|] eqn:E; [|exact Hinv].
    destruct (dropAt_split _ _ _ E) as (l1 & l2 & Hl & Hd).
    destruct Hinv as [Hle Hidle].
    unfold oneCaptureAtMost, capturesInFlight, absorb, takePhotoResume in *.
    cbn [camera awaiting timers fst snd isShooting updateCamera pendingOf timersOf
         flat_map app].
    rewrite Hd, app_nil_r, filter_app, !List.length_app. cbn [List.filter isEject length].
    rewrite Hl, List.length_app in Hle, Hidle. cbn [length] in Hle, Hidle.
    split; [lia|]. intro Hf. specialize (Hidle Hf). lia.
  - destruct (nth_error (timers ss) i) as [t|] eqn:E; [|exact Hinv].
    destruct (dropAt_split _ _ _ E) as (l1 & l2 & Hl & Hd).
    destruct Hinv as [Hle Hidle].
    destruct t as [|p sx sy ai];
      unfold oneCaptureAtMost, capturesInFlight, absorb, ejectTimer in *;
      cbn [camera awaiting timers fst snd isShooting updateCamera pendingOf timersOf
           flat_map app];
      rewrite Hd; rewrite Hl in Hle, Hidle;
      rewrite ?app_nil_r, !filter_app, !List.length_app in *;
      cbn [List.filter isEject length] in *;
      rewrite ?List.length_app in *.
    + split; [lia|]. intro Hf. specialize (Hidle Hf). lia.
    + cbn [length] in *. split; [lia|]. intros _. lia.
Qed.

Lemma run_keeps_one_capture (es : list Event) :
  forall ss, oneCaptureAtMost ss -> oneCaptureAtMost (run R subImage es ss).
Proof.
  induction es as [|e es IH]; intros ss H; [exact H|].
  cbn [run fold_left]. apply IH, step_keeps_one_capture, H.
Qed.

Lemma idle_has_no_capture (c : Camera) : oneCaptureAtMost (idle c).
Proof. split; [cbn; lia|reflexivity]. Qed.

End ShutterFacts.

(** C8.  While [isShooting] is true, [takePhoto] returns the state it was
    given and asks for nothing: no sound, no timer, no filter call, no photo;
    the same holds of a click on the shutter, and such an event leaves the
    whole session as it is.  Hence, whatever the events, a session that
    starts with nothing in flight never has two final captures in flight. *)
Theorem takePhoto_is_noop_while_shooting
    (R : Renderer) (subImage : Bitmap -> Q -> Q -> Q -> Bitmap)
    (contextOk : bool) (s : Camera) :
  isShooting s = true ->
  takePhoto R subImage contextOk s = (s, []) /\
  clickShutter R subImage contextOk s = (s, []) /\
  (forall ss, camera ss = s ->
     step R subImage (Invoke contextOk) ss = ss /\
     step R subImage (Click contextOk) ss = ss) /\
  (forall (es : list Event) (c : Camera),
     (capturesInFlight (run R subImage es (idle c)) <= 1)%nat).
Proof.
  intro Hs.
  assert (Ht : takePhoto R subImage contextOk s = (s, [])).
  { unfold takePhoto. destruct (videoRef s); [|reflexivity].
    destruct (captureCanvasRef s); [|reflexivity]. rewrite Hs. reflexivity. }
  assert (Hc : clickShutter R subImage contextOk s = (s, [])).
  { unfold clickShutter, shutterDisabled. rewrite Hs. reflexivity. }
  split; [exact Ht|]. split; [exact Hc|]. split.
  - intros ss Hcam. cbn [step]. rewrite Hcam, Ht, Hc, <- Hcam.
    split; apply absorb_nothing.
  - intros es c. apply (run_keeps_one_capture R subImage es (idle c)), idle_has_no_capture.
Qed.

Lemma takePhoto_is_noop_while_shooting_witness :
  takePhoto sampleRenderer sampleSubImage true shootingCamera = (shootingCamera, []).
Proof.
  apply (takePhoto_is_noop_while_shooting sampleRenderer sampleSubImage true
           shootingCamera eq_refl).
Defined.

(** ** Captions *)

Lemma Forall2_map_self {A : Type} (P : A -> A -> Prop) (f : A -> A) (l : list A) :
  (forall a, P a (f a)) -> Forall2 P l (map f l).
Proof. intro H. induction l; constructor; auto. Qed.

Lemma captionIs_true (c : option string) (s : string) :
  captionIs c s = true -> c = Some s.
Proof.
  destruct c as [c'|]; cbn; [|discriminate].
  intro H. apply String.eqb_eq in H. congruence.
Qed.

Lemma edited_caption_guards (c placeholder : string) :
  c <> ""%string -> c <> placeholder ->
  captionIs (Some c) placeholder || noCaption (Some c) = false.
Proof.
  intros H1 H2. cbn. apply orb_false_iff.
  split; apply String.eqb_neq; assumption.
Qed.

Lemma map_map_id {A : Type} (f g : A -> A) (l : list A) :
  (forall a, g (f a) = f a) -> map g (map f l) = map f l.
Proof.
  intro H. rewrite map_map. apply map_ext. exact H.
Qed.

(** C10.  The code overwrites a caption the user has edited.  A photo is
    taken with the AI enabled and gets the placeholder; the user clears the
    caption in the input field; the AI caption arrives.  The caption no
    longer equals the placeholder, yet the AI caption is written over it, in
    both revisions: the guard [p.caption === placeholder || !p.caption] lets
    the empty caption through.  The failure path of the same revision, which
    guards on the placeholder alone, leaves the cleared caption as it is. *)
Theorem cleared_caption_is_overwritten :
  let taken :=
    AppAiConfig.handlePhotoTaken (samplePhoto (Some ""%string)) (Some (1007, 276))
      1440 900 11 true [] in
  let edited := handleUpdateCaption "1763000000000" "" taken in
  let arrived := AppAiConfig.captionResolved "1763000000000" "Golden hour" edited in
  map caption taken = [Some AppAiConfig.writing] /\
  map caption edited = [Some ""%string] /\
  Some ""%string <> Some AppAiConfig.writing /\
  map caption arrived = [Some "Golden hour"%string] /\
  arrived <> edited /\
  AppAiConfig.captionFailed "1763000000000" edited = edited /\
  map caption
    (AppEnableAi.captionResolved "1763000000000" "Golden hour"
       (handleUpdateCaption "1763000000000" ""
          (AppEnableAi.handlePhotoTaken (samplePhoto (Some ""%string))
             (Some (1007, 276)) 1440 900 11 true [])))
    = [Some "Golden hour"%string].
Proof.
  cbv zeta. split; [reflexivity|]. split; [reflexivity|].
  split; [discriminate|]. split; [reflexivity|].
  split; [|split; reflexivity]. intro H. apply (f_equal (map caption)) in H.
  vm_compute in H. discriminate.
Qed.

(** * Further properties of the code *)

(** ** The final-capture and live-preview paths *)

(** X2.  Starting from a context without filter: on the final-capture path
    the base image is drawn exactly once, under a filter that is not ['none']
    for every preset but ORIGINAL, and every tint rectangle is filled with
    no filter.  On the live-preview path every draw of the video frame has no
    filter or the beauty blur alone, and it is the tint rectangles that are
    filled under the filter of the preset. *)
Theorem preset_filter_reaches_fills_only_in_preview
    (R : Renderer) (filterType : FilterType) (video : Video) (beautyLevel : Q)
    (c : Canvas) :
  filter (state c) = [] ->
  let final := callsMadeBy (vintage R true filterType) c in
  let live := callsMadeBy (previewFrame R video beautyLevel filterType) c in
  length (drawFiltersOf final) = 1%nat /\
  (filterType <> ORIGINAL -> drawFiltersOf final <> [[]]) /\
  Forall (fun f => f = []) (fillFiltersOf final) /\
  Forall (fun f => noneOrBlur f = true) (drawFiltersOf live) /\
  Forall (fun f => f = previewCssFilter filterType) (fillFiltersOf live).
Proof.
  intros Hnone final live. subst final live.
  unfold previewFrame, previewBeauty.
  destruct (Qgtb beautyLevel 0); destruct filterType; made_calls; cbn;
    rewrite ?Hnone;
    (split; [reflexivity|]);
    (split; [intro H; try congruence; discriminate|]);
    repeat split; repeat constructor.
Qed.

Lemma preset_filter_reaches_fills_only_in_preview_witness :
  Forall (fun f => noneOrBlur f = true)
    (drawFiltersOf (callsMadeBy (previewFrame sampleRenderer sampleVideo 80 RETRO_NOIR)
                      sampleCanvas)).
Proof.
  apply (preset_filter_reaches_fills_only_in_preview sampleRenderer RETRO_NOIR
           sampleVideo 80 sampleCanvas eq_refl).
Defined.

(** X3.  A frame of [renderPreview] that is skipped (camera off, error,
    video not at [readyState] 4, no context) returns the canvas untouched.  A
    frame that is rendered leaves the context with filter ['none'],
    [source-over], alpha 1, the fill style and transform it started with and
    the stack of saved states as deep as before, after one to four drawing
    calls. *)
Theorem renderPreview_leaks_no_drawing_state
    (R : Renderer) (video : Video) (canvas : Canvas) (ctxOk : bool)
    (beautyLevel : Q) (activeFilter : FilterType) :
  let base :=
    if negb (width (pixels canvas) =? width (frame video))%Z
       || negb (height (pixels canvas) =? height (frame video))%Z
    then resize (width (frame video)) (height (frame video)) canvas else canvas in
  (forall isCameraOn error,
     isCameraOn = false \/ error <> None \/ readyState video <> 4%Z \/ ctxOk = false ->
     renderPreview R (Some video) (Some canvas) isCameraOn error ctxOk beautyLevel
       activeFilter = Some canvas) /\
  (readyState video = 4%Z -> ctxOk = true ->
   exists drawn,
     renderPreview R (Some video) (Some canvas) true None ctxOk beautyLevel activeFilter
       = Some drawn /\
     state drawn =
       {| filter := []; globalCompositeOperation := SourceOver; globalAlpha := 1;
          fillStyle := fillStyle (state base); transform := transform (state base) |} /\
     saved drawn = saved base /\
     exists made, calls drawn = calls base ++ made /\ (1 <= length made <= 4)%nat).
Proof.
  intro base. split.
  - intros isCameraOn error H. unfold renderPreview.
    destruct isCameraOn; [|reflexivity].
    destruct error as [e|]; [reflexivity|].
    destruct (readyState video =? 4)%Z eqn:E; [|reflexivity].
    destruct ctxOk; [|reflexivity].
    apply Z.eqb_eq in E. destruct H as [H|[H|[H|H]]]; congruence.
  - intros Hready ->. unfold renderPreview. rewrite Hready. cbn [andb Z.eqb Pos.eqb].
    fold base. eexists. split; [reflexivity|].
    unfold previewFrame, previewBeauty.
    destruct (Qgtb beautyLevel 0); destruct activeFilter;
      (split; [reflexivity|]); (split; [reflexivity|]);
      eexists; (split; [cbn; repeat rewrite <- app_assoc; reflexivity|cbn; lia]).
Qed.

Lemma renderPreview_leaks_no_drawing_state_witness :
  exists drawn,
    renderPreview sampleRenderer (Some sampleVideo) (Some sampleCanvas) true None true
      80 CINE_TEAL_ORANGE = Some drawn /\
    saved drawn = [].
Proof.
  destruct (proj2 (renderPreview_leaks_no_drawing_state sampleRenderer sampleVideo
                     sampleCanvas true 80 CINE_TEAL_ORANGE) eq_refl eq_refl)
    as (drawn & Hdrawn & _ & Hsaved & _).
  exists drawn. split; [exact Hdrawn|exact Hsaved].
Defined.

Lemma grainIterations_whole_pixels (data : list Z) (n : nat) :
  length data = (4 * n)%nat -> grainIterations data = n.
Proof.
  intro H. unfold grainIterations. rewrite H.
  replace (4 * n + 3)%nat with (3 + n * 4)%nat by lia.
  rewrite Nat.div_add by lia. reflexivity.
Qed.

Lemma grainLoop_in_range (amount : Q) (random : RandomSource) (k : nat)
    (data : list Z) :
  Forall (fun v => (0 <= v <= 255)%Z) data ->
  Forall (fun v => (0 <= v <= 255)%Z) (grainLoop amount random k data).
Proof.
  intro Hin. apply Forall_forall. intros v Hv.
  destruct (In_nth _ _ 0%Z Hv) as (i & Hi & Hnth).
  rewrite (grainLoop_length amount random (length data)) in Hi by lia.
  destruct (index_split i) as [Hsplit Hc].
  pose proof (grainLoop_nth amount random (i / 4) k data (i mod 4)) as Hn.
  rewrite <- Hsplit in Hn. specialize (Hn Hi Hc). rewrite Hn in Hnth.
  destruct (i mod 4 =? 3)%nat.
  - subst v. rewrite Forall_forall in Hin. apply Hin. apply nth_In. exact Hi.
  - subst v. apply ToUint8Clamp_range.
Qed.

(** X4.  On an [ImageData] array of [n] pixels whose entries lie in 0..255
    the grain pass keeps the size of the bitmap and the length of the array,
    keeps every entry in 0..255, and calls [Math.random] exactly [n] times
    (not at all for ORIGINAL). *)
Theorem grain_keeps_image_data_well_formed
    (filterType : FilterType) (random : RandomSource) (k : nat) (ctx : Canvas)
    (n : nat) :
  length (data (pixels ctx)) = (4 * n)%nat ->
  Forall (fun v => (0 <= v <= 255)%Z) (data (pixels ctx)) ->
  let after := grain filterType random k ctx in
  width (pixels (fst after)) = width (pixels ctx) /\
  height (pixels (fst after)) = height (pixels ctx) /\
  length (data (pixels (fst after))) = (4 * n)%nat /\
  Forall (fun v => (0 <= v <= 255)%Z) (data (pixels (fst after))) /\
  snd after = (if filter_eqb filterType ORIGINAL then k else k + n)%nat.
Proof.
  intros Hlen Hin after. subst after. unfold grain, grainWith.
  destruct filterType; cbn [noiseAmount filter_eqb FilterType_eq_dec];
    try (cbn -[grainLoop grainIterations];
         unfold getImageData;
         cbn -[grainLoop grainIterations];
         rewrite (grainLoop_length _ random (length (data (pixels ctx)))) by lia;
         rewrite (grainIterations_whole_pixels _ n Hlen);
         repeat split; try assumption; apply grainLoop_in_range; assumption).
  cbn. repeat split; assumption.
Qed.

Lemma grain_keeps_image_data_well_formed_witness :
  snd (grain RETRO_NOIR sampleRandom 5 sampleCanvas) = 7%nat.
Proof.
  apply (grain_keeps_image_data_well_formed RETRO_NOIR sampleRandom 5 sampleCanvas 2).
  - reflexivity.
  - repeat constructor; discriminate.
Defined.

(** ** The downloadable card *)

Lemma photo_window_size :
  Card.photoWidth == 520 /\ Card.photoHeight == 570.
Proof. split; reflexivity. Qed.

Lemma ratio_positive (w h : Q) : 0 < w -> 0 < h -> 0 < w / h.
Proof.
  intros Hw Hh. apply Qlt_shift_div_l; [exact Hh|]. lra.
Qed.

(** X5.  For an image of positive width and height the rectangle into
    which [createPolaroidCanvas] draws the photo covers the photo window,
    fits it exactly in one direction, keeps the aspect ratio of the image,
    contains the window on all four sides and has the centre of the
    window. *)
Theorem coverRect_covers_the_photo_window (imgWidth imgHeight : Q) :
  0 < imgWidth -> 0 < imgHeight ->
  let r := Card.coverRect imgWidth imgHeight in
  Card.photoWidth <= Card.drawWidth r /\
  Card.photoHeight <= Card.drawHeight r /\
  (Card.drawWidth r == Card.photoWidth \/ Card.drawHeight r == Card.photoHeight) /\
  Card.drawWidth r * imgHeight == Card.drawHeight r * imgWidth /\
  Card.offsetX r <= Card.paddingX /\
  Card.paddingX + Card.photoWidth <= Card.offsetX r + Card.drawWidth r /\
  Card.offsetY r <= Card.paddingY /\
  Card.paddingY + Card.photoHeight <= Card.offsetY r + Card.drawHeight r /\
  Card.offsetX r + Card.drawWidth r / 2 == Card.paddingX + Card.photoWidth / 2 /\
  Card.offsetY r + Card.drawHeight r / 2 == Card.paddingY + Card.photoHeight / 2.
Proof.
  intros Hw Hh r. subst r. unfold Card.coverRect.
  pose proof (ratio_positive _ _ Hw Hh) as Hr.
  destruct photo_window_size as [Hpw Hph].
  assert (Hdest : Card.photoWidth / Card.photoHeight == 52 # 57) by reflexivity.
  set (ratio := imgWidth / imgHeight) in *.
  assert (Hwr : imgWidth == ratio * imgHeight).
  { unfold ratio. field. lra. }
  unfold Card.paddingX, Card.paddingY.
  destruct (Qgtb ratio (Card.photoWidth / Card.photoHeight)) eqn:E;
    cbn [Card.drawWidth Card.drawHeight Card.offsetX Card.offsetY].
  - apply Qgtb_true in E. rewrite Hdest in E. rewrite Hpw, Hph.
    assert (Haspect : 570 * ratio * imgHeight == 570 * imgWidth)
      by (rewrite Hwr; ring).
    unfold Qdiv. change (/ 2) with (1 # 2).
    repeat split; try lra; right; reflexivity.
  - apply Qgtb_false in E. rewrite Hdest in E. rewrite Hpw, Hph.
    assert (H1 : 570 <= 520 / ratio).
    { apply Qle_shift_div_l; [exact Hr|]. lra. }
    assert (Haspect : 520 * imgHeight == 520 / ratio * imgWidth)
      by (rewrite Hwr; field; lra).
    unfold Qdiv in *. change (/ 2) with (1 # 2).
    repeat split; try lra; left; reflexivity.
Qed.

Lemma coverRect_covers_the_photo_window_witness :
  Card.photoWidth <= Card.drawWidth (Card.coverRect 720 720).
Proof.
  apply (coverRect_covers_the_photo_window 720 720); reflexivity.
Defined.

Lemma speckles_length (random : RandomSource) :
  forall n k, length (Card.speckles n random k) = n.
Proof. induction n as [|n IH]; intro k; cbn; [reflexivity|]. rewrite IH. reflexivity. Qed.

Lemma speckles_all_speckles (random : RandomSource) :
  forall n k,
    List.filter Card.isSpeckle (Card.speckles n random k) = Card.speckles n random k.
Proof.
  induction n as [|n IH]; intro k; [reflexivity|].
  cbn [Card.speckles List.filter Card.isSpeckle]. cbn [Qeq_bool andb].
  change (Qeq_bool 2 2) with true. cbn [andb]. rewrite IH. reflexivity.
Qed.

Lemma speckles_no_text (random : RandomSource) :
  forall n k, Card.textsOf (Card.speckles n random k) = [].
Proof. induction n as [|n IH]; intro k; [reflexivity|]. cbn. apply IH. Qed.

Lemma speckles_on_card (random : RandomSource) :
  in_unit_interval random ->
  forall n k, Forall Card.cornerOnCard (Card.speckles n random k).
Proof.
  intros Hr. induction n as [|n IH]; intro k; [constructor|].
  cbn [Card.speckles]. constructor; [|apply IH].
  destruct (Hr k) as [H0 H1]. destruct (Hr (S k)) as [H2 H3].
  unfold Card.cornerOnCard, Card.cardWidth, Card.cardHeight. repeat split; lra.
Qed.

(** X6.  When the photo decodes to an image of positive size and the
    context is acquired, [createPolaroidCanvas] resolves with a 600 by 750
    card after exactly 2000 random draws: 1000 speckles, every filled
    rectangle with its corner on the card, the photo drawn clipped to the
    photo window in the rectangle [coverRect] gives, and the caption written
    exactly when it is not empty, centred in the band below the photo. *)
Theorem polaroid_card_layout
    (R : Renderer) (random : RandomSource) (k : nat) (photo : Photo) (img : Bitmap) :
  decodeImage R (dataUrl photo) = Some img ->
  (0 < width img)%Z -> (0 < height img)%Z ->
  in_unit_interval random ->
  exists card,
    Card.createPolaroidCanvas R true random k photo = Some (card, (k + 2000)%nat) /\
    Card.canvasWidth card = 600%Z /\
    Card.canvasHeight card = 750%Z /\
    length (List.filter Card.isSpeckle (Card.ops card)) = 1000%nat /\
    Forall Card.cornerOnCard (Card.ops card) /\
    In (Card.ClippedImageOp img Card.paddingX Card.paddingY Card.photoWidth
          Card.photoHeight
          (Card.coverRect (inject_Z (width img)) (inject_Z (height img))))
       (Card.ops card) /\
    length (Card.textsOf (Card.ops card))
      = (if noCaption (caption photo) then 0 else 1)%nat /\
    Forall (fun t =>
              caption photo = Some (fst (fst t)) /\
              snd (fst t) == Card.cardWidth / 2 /\
              Card.paddingY + Card.photoHeight < snd t /\
              snd t < Card.cardHeight)
           (Card.textsOf (Card.ops card)).
Proof.
  intros Hdec _ _ Hr. unfold Card.createPolaroidCanvas. rewrite Hdec. cbn [negb].
  eexists. split; [reflexivity|].
  cbn [Card.canvasWidth Card.canvasHeight Card.ops].
  split; [reflexivity|]. split; [reflexivity|].
  split; [|split; [|split; [|split]]].
  - rewrite !filter_app, speckles_all_speckles, !length_app, speckles_length.
    destruct (noCaption (caption photo)); reflexivity.
  - apply Forall_app. split.
    + constructor; [|constructor]. unfold Card.cornerOnCard, Card.cardWidth,
        Card.cardHeight. repeat split; lra.
    + apply Forall_app. split; [apply speckles_on_card, Hr|].
      apply Forall_app. split.
      * repeat constructor; unfold Card.paddingX, Card.paddingY, Card.cardWidth,
          Card.cardHeight; lra.
      * destruct (noCaption (caption photo)); repeat constructor.
  - apply in_or_app. right. apply in_or_app. right. apply in_or_app. left.
    right. left. reflexivity.
  - unfold Card.textsOf. rewrite !flat_map_app. fold Card.textsOf.
    rewrite speckles_no_text.
    destruct (noCaption (caption photo)); reflexivity.
  - unfold Card.textsOf. rewrite !flat_map_app. fold Card.textsOf.
    rewrite speckles_no_text. cbn [flat_map app].
    destruct (caption photo) as [text|] eqn:Ec; cbn [noCaption].
    + destruct (String.eqb text ""); cbn; repeat constructor; reflexivity.
    + constructor.
Qed.

Lemma polaroid_card_layout_witness :
  exists card,
    Card.createPolaroidCanvas sampleRenderer true sampleRandom 0
      {| id := "1763000000000"; dataUrl := samplePng; caption := Some "Golden hour"%string;
         timestamp := 1763000000000; isDeveloping := false; x := 0; y := 0;
         rotation := 0; zIndex := 1 |}
    = Some (card, 2000%nat) /\
    length (Card.textsOf (Card.ops card)) = 1%nat.
Proof.
  destruct (polaroid_card_layout sampleRenderer sampleRandom 0
              {| id := "1763000000000"; dataUrl := samplePng;
                 caption := Some "Golden hour"%string;
                 timestamp := 1763000000000; isDeveloping := false; x := 0; y := 0;
                 rotation := 0; zIndex := 1 |}
              samplePixel eq_refl eq_refl eq_refl sampleRandom_in_unit_interval)
    as (card & Hcard & _ & _ & _ & _ & _ & Htexts & _).
  exists card. split; [exact Hcard|exact Htexts].
Defined.

(** X7.  [handleDownload] does nothing while the photo is developing.  If
    the photo does not decode, [createPolaroidCanvas] never settles and
    [isGenerating] stays true with no download.  Otherwise [isGenerating]
    ends false and there is one download, named [milu-polaroid-<id>.jpg],
    exactly when [toBlob] hands over a blob; without a 2D context what is
    downloaded is the untouched 300 by 150 canvas. *)
Theorem download_guard_and_stuck_spinner
    (R : Renderer) (ctxOk blobOk : bool) (random : RandomSource) (k : nat)
    (photo : Photo) (isGenerating : bool) :
  let result := Card.handleDownload R ctxOk blobOk random k photo isGenerating in
  (isDeveloping photo = true -> result = (isGenerating, [])) /\
  (isDeveloping photo = false -> decodeImage R (dataUrl photo) = None ->
   Card.createPolaroidCanvas R ctxOk random k photo = None /\ result = (true, [])) /\
  (isDeveloping photo = false -> decodeImage R (dataUrl photo) <> None ->
   fst result = false /\
   length (snd result) = (if blobOk then 1 else 0)%nat /\
   Forall (fun d =>
             snd d = ("milu-polaroid-" ++ id photo ++ ".jpg")%string /\
             (ctxOk = false ->
              fst d = {| Card.canvasWidth := 300; Card.canvasHeight := 150;
                         Card.ops := [] |}))
          (snd result)).
Proof.
  intro result. subst result. unfold Card.handleDownload, Card.createPolaroidCanvas.
  split; [|split].
  - intros ->. reflexivity.
  - intros -> ->. split; reflexivity.
  - intros -> Hdec. destruct (decodeImage R (dataUrl photo)) as [img|]; [|congruence].
    destruct ctxOk, blobOk; cbn; repeat split; repeat constructor;
      try reflexivity; intro; try discriminate; reflexivity.
Qed.

Lemma download_guard_and_stuck_spinner_witness :
  Card.handleDownload sampleRenderer true true sampleRandom 0
    (Gallery.withDeveloped (samplePhoto None)) false
  = (true, []).
Proof.
  apply (proj1 (proj2 (download_guard_and_stuck_spinner sampleRenderer true true
                         sampleRandom 0 (Gallery.withDeveloped (samplePhoto None))
                         false)));
    reflexivity.
Defined.

(** ** The camera body *)

Lemma clamp_between (lo v hi : Q) :
  lo <= hi ->
  lo <= Qmax lo (Qmin v hi) /\ Qmax lo (Qmin v hi) <= hi /\
  (lo <= v -> v <= hi -> Qmax lo (Qmin v hi) == v).
Proof.
  intro H.
  destruct (Q.min_spec v hi) as [[H1 E1]|[H1 E1]];
    destruct (Q.max_spec lo (Qmin v hi)) as [[H2 E2]|[H2 E2]];
    rewrite E2; rewrite ?E1 in *; repeat split; intros; try lra.
Qed.

(** X8.  In a window of non-negative size, a press on the camera body
    followed by a move keeps the camera within [-100, innerWidth - 50] by
    [-100, innerHeight - 50]; as long as the target lies in that range the
    camera moves by exactly the displacement of the mouse.  After the release
    a move changes nothing, and a press on a button or input starts no
    drag. *)
Theorem dragging_keeps_the_camera_in_reach
    (innerWidth innerHeight clientX clientY dx dy : Q) (b : CameraBody.Body) :
  0 <= innerWidth -> 0 <= innerHeight ->
  let pressed := CameraBody.handleMouseDown false clientX clientY b in
  let moved :=
    CameraBody.handleMouseMove innerWidth innerHeight (clientX + dx) (clientY + dy)
      pressed in
  let px := fst (CameraBody.bodyPosition b) in
  let py := snd (CameraBody.bodyPosition b) in
  -100 <= fst (CameraBody.bodyPosition moved) /\
  fst (CameraBody.bodyPosition moved) <= innerWidth - 50 /\
  -100 <= snd (CameraBody.bodyPosition moved) /\
  snd (CameraBody.bodyPosition moved) <= innerHeight - 50 /\
  (-100 <= px + dx -> px + dx <= innerWidth - 50 ->
   fst (CameraBody.bodyPosition moved) == px + dx) /\
  (-100 <= py + dy -> py + dy <= innerHeight - 50 ->
   snd (CameraBody.bodyPosition moved) == py + dy) /\
  CameraBody.handleMouseMove innerWidth innerHeight clientX clientY
    (CameraBody.handleMouseUp moved) = CameraBody.handleMouseUp moved /\
  CameraBody.handleMouseDown true clientX clientY b = b.
Proof.
  intros Hw Hh pressed moved px py. subst pressed moved px py.
  unfold CameraBody.handleMouseMove, CameraBody.handleMouseDown, CameraBody.handleMouseUp.
  cbn [CameraBody.isDragging CameraBody.dragOffset CameraBody.bodyPosition negb fst snd].
  destruct (CameraBody.bodyPosition b) as [px py]. cbn [fst snd].
  destruct (clamp_between (-100) (clientX + dx - (clientX - px)) (innerWidth - 50))
    as (X1 & X2 & X3); [lra|].
  destruct (clamp_between (-100) (clientY + dy - (clientY - py)) (innerHeight - 50))
    as (Y1 & Y2 & Y3); [lra|].
  repeat split; try assumption.
  - intros H1 H2. rewrite X3; lra.
  - intros H1 H2. rewrite Y3; lra.
Qed.

Lemma dragging_keeps_the_camera_in_reach_witness :
  -100 <= fst (CameraBody.bodyPosition
                 (CameraBody.handleMouseMove 1440 900 (1000 + 5000) (600 + 0)
                    (CameraBody.handleMouseDown false 1000 600
                       {| CameraBody.bodyPosition := (900, 500);
                          CameraBody.isDragging := false;
                          CameraBody.dragOffset := (0, 0) |}))).
Proof.
  apply (dragging_keeps_the_camera_in_reach 1440 900 1000 600 5000 0
           {| CameraBody.bodyPosition := (900, 500); CameraBody.isDragging := false;
              CameraBody.dragOffset := (0, 0) |});
    discriminate.
Defined.

Lemma Qmin_idempotent_right (a b : Q) : Qmin (Qmin a b) b = Qmin a b.
Proof.
  unfold Qmin, GenericMinMax.gmin.
  destruct (Qcompare a b) eqn:E; rewrite ?E; try reflexivity.
  assert (H : Qcompare b b = Eq) by (apply Qeq_alt; reflexivity).
  rewrite H. reflexivity.
Qed.

Lemma Qmin_left_when_le (a b : Q) : a <= b -> Qmin a b = a.
Proof.
  intro H. unfold Qmin, GenericMinMax.gmin.
  destruct (Qcompare a b) eqn:E; try reflexivity.
  apply Qgt_alt in E. lra.
Qed.

(** X9.  [handleResize] never moves the camera right or down, leaves it at
    most at [innerWidth - 390] and [innerHeight - 260], leaves a camera that
    already fits where it is, is idempotent, and leaves the position set on
    mount where it is. *)
Theorem resize_only_pulls_the_camera_back
    (innerWidth innerHeight : Q) (prev : Q * Q) :
  let next := CameraBody.handleResize innerWidth innerHeight prev in
  fst next <= fst prev /\ snd next <= snd prev /\
  fst next <= innerWidth - 390 /\ snd next <= innerHeight - 260 /\
  (fst prev <= innerWidth - 390 -> snd prev <= innerHeight - 260 -> next = prev) /\
  CameraBody.handleResize innerWidth innerHeight next = next /\
  CameraBody.handleResize innerWidth innerHeight
    (CameraBody.initialPosition innerWidth innerHeight)
    = CameraBody.initialPosition innerWidth innerHeight.
Proof.
  intro next. subst next. unfold CameraBody.handleResize. destruct prev as [px py].
  cbn [fst snd]. repeat split.
  - apply Q.le_min_l.
  - apply Q.le_min_l.
  - apply Q.le_min_r.
  - apply Q.le_min_r.
  - intros H1 H2. rewrite (Qmin_left_when_le _ _ H1), (Qmin_left_when_le _ _ H2).
    reflexivity.
  - rewrite !Qmin_idempotent_right. reflexivity.
  - unfold CameraBody.initialPosition. cbn [fst snd].
    rewrite !Qmin_left_when_le by lra. reflexivity.
Qed.

Lemma resize_only_pulls_the_camera_back_witness :
  CameraBody.handleResize 1440 900 (900, 500) = (900, 500).
Proof.
  apply (resize_only_pulls_the_camera_back 1440 900 (900, 500)); discriminate.
Defined.

Lemma takePhoto_settings (R : Renderer) (subImage : Bitmap -> Q -> Q -> Q -> Bitmap)
    (contextOk : bool) (s : Camera) :
  isCameraOn (fst (takePhoto R subImage contextOk s)) = isCameraOn s /\
  (showSettings (fst (takePhoto R subImage contextOk s)) = showSettings s \/
   showSettings (fst (takePhoto R subImage contextOk s)) = false).
Proof.
  unfold takePhoto.
  destruct (videoRef s); [|split; [reflexivity|left; reflexivity]].
  destruct (captureCanvasRef s); [|split; [reflexivity|left; reflexivity]].
  destruct (isShooting s || negb (isCameraOn s))%bool;
    [split; [reflexivity|left; reflexivity]|].
  destruct (readyState v <? 2)%Z; [split; [reflexivity|left; reflexivity]|].
  destruct contextOk; split; try reflexivity; right; reflexivity.
Qed.

Lemma uiStep_keeps_settings_with_power (R : Renderer)
    (subImage : Bitmap -> Q -> Q -> Q -> Bitmap) (e : CameraBody.UiEvent) (s : Camera) :
  (showSettings s = true -> isCameraOn s = true) ->
  showSettings (CameraBody.uiStep R subImage e s) = true ->
  isCameraOn (CameraBody.uiStep R subImage e s) = true.
Proof.
  intros Hinv. destruct e as [| |refs outside|ok|s0 url now now'|p sx sy ai];
    cbn [CameraBody.uiStep].
  - unfold CameraBody.togglePower. cbn.
    destruct (isCameraOn s); [discriminate|]. intro H. reflexivity.
  - unfold CameraBody.clickSettings. destruct (isCameraOn s) eqn:E; cbn.
    + intros _. reflexivity.
    + rewrite E. exact Hinv.
  - unfold CameraBody.handleClickOutside.
    destruct (showSettings s && refs && outside)%bool; cbn; [discriminate|exact Hinv].
  - unfold clickShutter. destruct (shutterDisabled s); cbn [fst]; [exact Hinv|].
    destruct (takePhoto_settings R subImage ok s) as [Hon [Hs|Hs]];
      rewrite Hon, Hs; [exact Hinv|discriminate].
  - cbn. exact Hinv.
  - cbn. exact Hinv.
Qed.

(** X10.  Whatever the sequence of power, settings, click-outside and
    shutter events and of capture continuations, the settings panel is never
    open while the camera is off, provided this holds at the start (as it
    does on mount). *)
Theorem settings_panel_only_with_camera_on
    (R : Renderer) (subImage : Bitmap -> Q -> Q -> Q -> Bitmap)
    (es : list CameraBody.UiEvent) (s : Camera) :
  (showSettings s = true -> isCameraOn s = true) ->
  showSettings (CameraBody.uiRun R subImage es s) = true ->
  isCameraOn (CameraBody.uiRun R subImage es s) = true.
Proof.
  revert s. induction es as [|e es IH]; intros s Hinv; [exact Hinv|].
  cbn [CameraBody.uiRun fold_left]. apply IH.
  apply uiStep_keeps_settings_with_power, Hinv.
Qed.

Lemma settings_panel_only_with_camera_on_witness :
  isCameraOn (CameraBody.uiRun sampleRenderer sampleSubImage
                [CameraBody.Settings; CameraBody.Power; CameraBody.Settings]
                (CameraBody.mounted 1440 900 80 CINE_MOODY false)) = true.
Proof.
  apply (settings_panel_only_with_camera_on sampleRenderer sampleSubImage
           [CameraBody.Settings; CameraBody.Power; CameraBody.Settings]
           (CameraBody.mounted 1440 900 80 CINE_MOODY false)).
  - discriminate.
  - reflexivity.
Defined.

(** ** One capture, from the click to the photo *)

Section CaptureFacts.

Variable R : Renderer.
Variable subImage : Bitmap -> Q -> Q -> Q -> Bitmap.

Lemma ready_takePhoto (contextOk : bool) (s : Camera) :
  readyToShoot s ->
  clickShutter R subImage contextOk s = takePhoto R subImage contextOk s /\
  exists video canvas,
    videoRef s = Some video /\ captureCanvasRef s = Some canvas /\
    (readyState video <? 2)%Z = false.
Proof.
  intros ((video & Hv & Hr) & (canvas & Hc) & Hs & Hon & Herr). split.
  - unfold clickShutter, shutterDisabled. rewrite Hs, Hon, Herr. reflexivity.
  - exists video, canvas. repeat split; try assumption. apply Z.ltb_ge. exact Hr.
Qed.

Lemma filter_nil_iff {A : Type} (f : A -> bool) (l : list A) :
  List.filter f l = [] <-> forall a, In a l -> f a = false.
Proof.
  induction l as [|b l IH]; cbn [List.filter].
  - split; [intros _ a []|reflexivity].
  - destruct (f b) eqn:E; split.
    + discriminate.
    + intro H. rewrite (H b) in E; [discriminate|left; reflexivity].
    + intros H a [->|Ha]; [exact E|]. apply IH; assumption.
    + intro H. apply IH. intros a Ha. apply H. right. exact Ha.
Qed.

Lemma no_eject_dropAt (ts : list Task) (i : nat) :
  List.filter isEject ts = [] -> List.filter isEject (dropAt i ts) = [].
Proof.
  rewrite !filter_nil_iff. intros H t Ht. apply H.
  unfold dropAt in Ht. apply in_app_or in Ht. destruct Ht as [Ht|Ht].
  - rewrite <- (firstn_skipn i ts). apply in_or_app. left. exact Ht.
  - rewrite <- (firstn_skipn (S i) ts). apply in_or_app. right. exact Ht.
Qed.

Lemma no_eject_nth (ts : list Task) (i : nat) (t : Task) :
  List.filter isEject ts = [] -> nth_error ts i = Some t -> t = MotorSound.
Proof.
  intros H Hn. apply nth_error_In in Hn.
  destruct t as [|p sx sy ai]; [reflexivity|].
  assert (Hin : In (Eject p sx sy ai) (List.filter isEject ts)).
  { apply filter_In. split; [exact Hn|reflexivity]. }
  rewrite H in Hin. destruct Hin.
Qed.

Lemma held_step (e : Event) (ss : Session) :
  held ss -> held (step R subImage e ss) /\ deliveredBy e ss = [].
Proof.
  intros (Hs & Ha & Ht).
  assert (Htake : forall ok, takePhoto R subImage ok (camera ss) = (camera ss, [])).
  { intro ok. unfold takePhoto. destruct (videoRef (camera ss)); [|reflexivity].
    destruct (captureCanvasRef (camera ss)); [|reflexivity]. rewrite Hs. reflexivity. }
  destruct e as [ok|ok|i url now now'|i]; cbn [step deliveredBy].
  - unfold clickShutter, shutterDisabled. rewrite Hs. cbn [orb].
    rewrite absorb_nothing. repeat split; assumption.
  - rewrite Htake, absorb_nothing. repeat split; assumption.
  - rewrite Ha. destruct i; cbn [nth_error]; repeat split; assumption.
  - destruct (nth_error (timers ss) i) as [t|] eqn:E; [|repeat split; assumption].
    rewrite (no_eject_nth _ _ _ Ht E). split; [|reflexivity].
    unfold held. cbn [camera awaiting timers]. repeat split; try assumption.
    apply no_eject_dropAt, Ht.
Qed.

Lemma held_run (es : list Event) :
  forall ss, held ss ->
    held (run R subImage es ss) /\ delivered R subImage es ss = [].
Proof.
  induction es as [|e es IH]; intros ss H; [split; [exact H|reflexivity]|].
  cbn [run fold_left delivered].
  destruct (held_step e ss H) as [H' Hd]. rewrite Hd. cbn [app].
  apply IH, H'.
Qed.

End CaptureFacts.

(** X11.  From a camera that is ready, a click on the shutter sets
    [isShooting], closes the settings and puts one capture in flight; once
    the filter promise has settled and the eject timer has fired,
    [isShooting] is false again, [tempPhoto] is cleared, nothing is in
    flight, and [onPhotoTaken] has been called exactly once, with a developing
    photo that carries the filtered data URL, an empty caption and the
    eject position [position + (107, -224)]. *)
Theorem capture_cycle_delivers_one_photo
    (R : Renderer) (subImage : Bitmap -> Q -> Q -> Q -> Bitmap)
    (c : Camera) (filteredDataUrl : string) (now now' : Z) :
  readyToShoot c ->
  let es := [Click true; FilterSettled 0 filteredDataUrl now now'; TimerFires 1] in
  let pressed := step R subImage (Click true) (idle c) in
  let done := run R subImage es (idle c) in
  isShooting (camera pressed) = true /\
  showSettings (camera pressed) = false /\
  capturesInFlight pressed = 1%nat /\
  isShooting (camera done) = false /\
  tempPhoto (camera done) = None /\
  capturesInFlight done = 0%nat /\
  delivered R subImage es (idle c) =
    [OnPhotoTaken
       {| id := numberToString now; dataUrl := filteredDataUrl; caption := Some ""%string;
          timestamp := now'; isDeveloping := true; x := 0; y := 0; rotation := 0;
          zIndex := 0 |}
       (fst (position c) + 107) (snd (position c) - 224) (useAiCaption c)].
Proof.
  intros Hready es pressed done. subst es pressed done.
  destruct (ready_takePhoto R subImage true c Hready)
    as (Hclick & video & canvas & Hv & Hc & Hr).
  destruct Hready as (_ & _ & Hs & Hon & _).
  cbn [run fold_left delivered step idle camera awaiting timers deliveredBy].
  rewrite Hclick. unfold takePhoto. rewrite Hv, Hc, Hs, Hon, Hr. cbn [orb negb].
  cbn. repeat split.
Qed.

Lemma capture_cycle_delivers_one_photo_witness :
  isShooting (camera (run sampleRenderer sampleSubImage
                        [Click true; FilterSettled 0 samplePng 1763000000000 1763000000001;
                         TimerFires 1]
                        (idle readyCamera))) = false.
Proof.
  apply (capture_cycle_delivers_one_photo sampleRenderer sampleSubImage readyCamera
           samplePng 1763000000000 1763000000001).
  repeat split.
  - exists sampleVideo. split; [reflexivity|discriminate].
  - exists sampleCanvas. reflexivity.
Defined.

(** X12.  If [getContext('2d')] of the capture canvas returns null when
    the shutter is clicked, [isShooting] is set and nothing ever clears it:
    whatever happens afterwards the shutter stays disabled, no capture is in
    flight and no photo is ever handed to [onPhotoTaken]. *)
Theorem shutter_stays_held_without_context
    (R : Renderer) (subImage : Bitmap -> Q -> Q -> Q -> Bitmap)
    (c : Camera) (es : list Event) :
  readyToShoot c ->
  let pressed := step R subImage (Click false) (idle c) in
  let later := run R subImage es pressed in
  isShooting (camera later) = true /\
  shutterDisabled (camera later) = true /\
  capturesInFlight later = 0%nat /\
  delivered R subImage (Click false :: es) (idle c) = [].
Proof.
  intros Hready pressed later. subst pressed later.
  destruct (ready_takePhoto R subImage false c Hready)
    as (Hclick & video & canvas & Hv & Hc & Hr).
  destruct Hready as (_ & _ & Hs & Hon & _).
  assert (Hheld : held (step R subImage (Click false) (idle c))).
  { cbn [step idle camera awaiting timers]. rewrite Hclick. unfold takePhoto.
    rewrite Hv, Hc, Hs, Hon, Hr. cbn. repeat split. }
  destruct (held_run R subImage es _ Hheld) as ((H1 & H2 & H3) & Hd).
  split; [exact H1|]. split; [unfold shutterDisabled; rewrite H1; reflexivity|].
  split.
  - unfold capturesInFlight. rewrite H2, H3. reflexivity.
  - cbn [delivered deliveredBy app]. exact Hd.
Qed.

Lemma shutter_stays_held_without_context_witness :
  isShooting (camera (run sampleRenderer sampleSubImage
                        [TimerFires 0; Click true; FilterSettled 0 samplePng 1 2]
                        (step sampleRenderer sampleSubImage (Click false)
                           (idle readyCamera)))) = true.
Proof.
  apply (shutter_stays_held_without_context sampleRenderer sampleSubImage readyCamera
           [TimerFires 0; Click true; FilterSettled 0 samplePng 1 2]).
  repeat split.
  - exists sampleVideo. split; [reflexivity|discriminate].
  - exists sampleCanvas. reflexivity.
Defined.

(** X13.  A capture draws, mirrored and with the default compositing, the
    square of side [min(videoWidth, videoHeight)] that is centred in the
    frame: the offsets are non-negative, the square lies inside the frame
    with equal margins on both sides, and one of the two offsets is 0. *)
Theorem capture_crops_a_centred_square
    (R : Renderer) (subImage : Bitmap -> Q -> Q -> Q -> Bitmap)
    (s : Camera) (video : Video) (canvas : Canvas) :
  videoRef s = Some video ->
  captureCanvasRef s = Some canvas ->
  readyToShoot s ->
  let w := width (frame video) in
  let h := height (frame video) in
  exists (size : Z) (xOffset yOffset : Q) (st : DrawState) (context : Canvas),
    takePhoto R subImage true s =
      (updateCamera true false (tempPhoto s) (Some context) s,
       [PlaySound shutter; SetTimeout 400 MotorSound;
        AwaitFilter (toDataURL R 0.95 context) (activeFilter s) (beautyLevel s)]) /\
    calls context =
      calls canvas ++ [DrawImageCall st (subImage (frame video) xOffset yOffset
                                                  (inject_Z size))] /\
    transform st = [Translate (inject_Z size) 0; Scale (-1) 1] /\
    filter st = [] /\ globalCompositeOperation st = SourceOver /\ globalAlpha st = 1 /\
    size = Z.min w h /\
    0 <= xOffset /\ xOffset + inject_Z size <= inject_Z w /\
    0 <= yOffset /\ yOffset + inject_Z size <= inject_Z h /\
    xOffset + inject_Z size + xOffset == inject_Z w /\
    yOffset + inject_Z size + yOffset == inject_Z h /\
    (xOffset == 0 \/ yOffset == 0).
Proof.
  intros Hv Hc Hready w h.
  destruct Hready as ((video' & Hv' & Hr) & _ & Hs & Hon & _).
  rewrite Hv in Hv'. injection Hv' as <-.
  assert (Hlt : (readyState video <? 2)%Z = false) by (apply Z.ltb_ge; exact Hr).
  unfold takePhoto. rewrite Hv, Hc, Hs, Hon, Hlt. cbn [orb negb].
  fold w h.
  exists (Z.min w h), (inject_Z (w - Z.min w h) / 2), (inject_Z (h - Z.min w h) / 2).
  eexists. eexists. split; [reflexivity|].
  split; [reflexivity|]. split; [reflexivity|]. split; [reflexivity|].
  split; [reflexivity|]. split; [reflexivity|]. split; [reflexivity|].
  unfold Qdiv. change (/ 2) with (1 # 2).
  unfold Z.sub. rewrite !inject_Z_plus, !inject_Z_opp.
  assert (Hmw : inject_Z (Z.min w h) <= inject_Z w)
    by (rewrite <- Zle_Qle; apply Z.le_min_l).
  assert (Hmh : inject_Z (Z.min w h) <= inject_Z h)
    by (rewrite <- Zle_Qle; apply Z.le_min_r).
  repeat split; try lra.
  destruct (Z.min_spec w h) as [[_ E]|[_ E]]; rewrite E; [left|right]; lra.
Qed.

Lemma capture_crops_a_centred_square_witness :
  exists (size : Z) (xOffset yOffset : Q),
    size = 1%Z /\ 0 <= xOffset /\ xOffset + inject_Z size <= 2 /\ yOffset == 0.
Proof.
  destruct (capture_crops_a_centred_square sampleRenderer sampleSubImage readyCamera
              sampleVideo sampleCanvas eq_refl eq_refl)
    as (size & xo & yo & st & context & _ & _ & _ & _ & _ & _ & Hsize & Hx0 & Hx1
        & Hy0 & Hy1 & _ & Hyc & _).
  - repeat split.
    + exists sampleVideo. split; [reflexivity|discriminate].
    + exists sampleCanvas. reflexivity.
  - exists size, xo, yo. cbn in Hsize, Hx1, Hy1, Hyc.
    repeat split; try assumption. subst size. cbn in *. lra.
Defined.

(** ** The gallery *)

Lemma hasId_true (photoId : string) (p : Photo) :
  Gallery.hasId photoId p = true <-> id p = photoId.
Proof. unfold Gallery.hasId. apply String.eqb_eq. Qed.

Lemma hasId_false (photoId : string) (p : Photo) :
  Gallery.hasId photoId p = false <-> id p <> photoId.
Proof. unfold Gallery.hasId. apply String.eqb_neq. Qed.

Lemma findIndexFrom_cases (photoId : string) :
  forall (l : list Photo) (i : Z),
    (Gallery.findIndexFrom photoId l i = (-1)%Z /\
     forall p, In p l -> Gallery.hasId photoId p = false) \/
    (exists n p,
       nth_error l n = Some p /\ Gallery.hasId photoId p = true /\
       Gallery.findIndexFrom photoId l i = (i + Z.of_nat n)%Z).
Proof.
  induction l as [|q l IH]; intro i.
  - left. split; [reflexivity|intros p []].
  - cbn [Gallery.findIndexFrom]. destruct (Gallery.hasId photoId q) eqn:E.
    + right. exists 0%nat, q. repeat split; [exact E|lia].
    + destruct (IH (i + 1)%Z) as [[H1 H2]|(n & p & H1 & H2 & H3)].
      * left. split; [exact H1|]. intros p [<-|Hp]; [exact E|apply H2, Hp].
      * right. exists (S n), p. repeat split; [exact H1|exact H2|lia].
Qed.

Lemma unique_id_index (l : list Photo) (n m : nat) (p q : Photo) :
  NoDup (map id l) ->
  nth_error l n = Some p -> nth_error l m = Some q -> id p = id q -> n = m.
Proof.
  intros Hnd Hn Hm Hid.
  apply (proj1 (NoDup_nth_error (map id l)) Hnd).
  - rewrite length_map. apply nth_error_Some. congruence.
  - rewrite !nth_error_map, Hn, Hm. cbn. congruence.
Qed.

Lemma findIndex_of_member (l : list Photo) (n : nat) (p : Photo) :
  NoDup (map id l) -> nth_error l n = Some p ->
  Gallery.findIndex (id p) l = Z.of_nat n.
Proof.
  intros Hnd Hn. unfold Gallery.findIndex.
  destruct (findIndexFrom_cases (id p) l 0) as [[_ H]|(m & q & Hm & Hq & ->)].
  - apply nth_error_In in Hn. specialize (H p Hn).
    apply hasId_false in H. congruence.
  - apply hasId_true in Hq. rewrite (unique_id_index l n m p q Hnd Hn Hm); [lia|].
    congruence.
Qed.

Lemma arrayAt_nat (l : list Photo) (n : nat) :
  Gallery.arrayAt l (Z.of_nat n) = nth_error l n.
Proof.
  unfold Gallery.arrayAt.
  destruct (Z.of_nat n <? 0)%Z eqn:E; [apply Z.ltb_lt in E; lia|].
  rewrite Nat2Z.id. reflexivity.
Qed.

Lemma arrayAt_member (l : list Photo) (i : Z) (p : Photo) :
  Gallery.arrayAt l i = Some p -> In p l.
Proof.
  unfold Gallery.arrayAt. destruct (i <? 0)%Z; [discriminate|].
  apply nth_error_In.
Qed.

Lemma syncSelected_keeps (a : Gallery.App) :
  Gallery.photos (Gallery.syncSelected a) = Gallery.photos a /\
  Gallery.maxZIndex (Gallery.syncSelected a) = Gallery.maxZIndex a /\
  Gallery.dragState (Gallery.syncSelected a) = Gallery.dragState a.
Proof.
  unfold Gallery.syncSelected. destruct (Gallery.selectedPhoto a) as [sel|];
    [|repeat split].
  destruct (find (Gallery.hasId (id sel)) (Gallery.photos a)); repeat split.
Qed.

Lemma syncSelected_selection (a : Gallery.App) :
  match Gallery.selectedPhoto a with
  | None => Gallery.selectedPhoto (Gallery.syncSelected a) = None
  | Some sel =>
      exists sel', Gallery.selectedPhoto (Gallery.syncSelected a) = Some sel' /\
                   id sel' = id sel
  end.
Proof.
  unfold Gallery.syncSelected. destruct (Gallery.selectedPhoto a) as [sel|] eqn:E;
    [|exact E].
  destruct (find (Gallery.hasId (id sel)) (Gallery.photos a)) as [freshPhoto|] eqn:F.
  - exists freshPhoto. split; [reflexivity|].
    apply find_some in F. apply hasId_true, F.
  - exists sel. split; [exact E|reflexivity].
Qed.

Lemma find_of_member (l : list Photo) (n : nat) (q : Photo) :
  NoDup (map id l) -> nth_error l n = Some q ->
  find (Gallery.hasId (id q)) l = Some q.
Proof.
  revert n. induction l as [|p l IH]; intros n Hnd Hn; [destruct n; discriminate|].
  cbn [map] in Hnd. inversion Hnd as [|? ? Hnotin Hnd']; subst.
  destruct n as [|n]; cbn [nth_error] in Hn; cbn [find].
  - injection Hn as ->. unfold Gallery.hasId. rewrite String.eqb_refl. reflexivity.
  - destruct (Gallery.hasId (id q) p) eqn:E.
    + apply hasId_true in E. exfalso. apply Hnotin. rewrite E.
      apply in_map, (nth_error_In _ _ Hn).
    + apply (IH n Hnd' Hn).
Qed.

Lemma filter_twice {A : Type} (f : A -> bool) (l : list A) :
  List.filter f (List.filter f l) = List.filter f l.
Proof.
  induction l as [|p l IH]; [reflexivity|].
  cbn [List.filter]. destruct (f p) eqn:E; [|exact IH].
  cbn [List.filter]. rewrite E, IH. reflexivity.
Qed.

Lemma delete_again (photoId : string) (a : Gallery.App) :
  Gallery.handleDeletePhoto photoId
    (Gallery.syncSelected (Gallery.handleDeletePhoto photoId a))
  = Gallery.syncSelected (Gallery.handleDeletePhoto photoId a).
Proof.
  remember (Gallery.handleDeletePhoto photoId a) as a' eqn:Ea.
  assert (Hph : Gallery.photos a'
                = List.filter (fun p => negb (Gallery.hasId photoId p)) (Gallery.photos a))
    by (subst a'; reflexivity).
  assert (Hse : forall sel, Gallery.selectedPhoto a' = Some sel ->
                            Gallery.hasId photoId sel = false).
  { subst a'. cbn [Gallery.handleDeletePhoto Gallery.selectedPhoto]. intros sel H.
    unfold Gallery.handleDeletePhoto in H. cbn [Gallery.selectedPhoto] in H.
    destruct (Gallery.selectedPhoto a) as [s|]; [|discriminate].
    destruct (Gallery.hasId photoId s) eqn:E; [discriminate|]. congruence. }
  clear Ea.
  destruct (syncSelected_keeps a') as (Hp & _ & _).
  pose proof (syncSelected_selection a') as Hs.
  assert (Hsel : forall sel, Gallery.selectedPhoto (Gallery.syncSelected a') = Some sel ->
                             Gallery.hasId photoId sel = false).
  { intros sel H. destruct (Gallery.selectedPhoto a') as [s|] eqn:E; [|congruence].
    destruct Hs as (sel' & Hs & Hid). rewrite Hs in H. injection H as ->.
    specialize (Hse s eq_refl). unfold Gallery.hasId in *. rewrite Hid. exact Hse. }
  rewrite Hph in Hp. clear Hs Hse Hph.
  unfold Gallery.handleDeletePhoto.
  destruct (Gallery.syncSelected a') as [ph se mz ds].
  cbn [Gallery.photos Gallery.selectedPhoto Gallery.maxZIndex Gallery.dragState] in *.
  subst ph. rewrite filter_twice.
  destruct se as [sel|]; [rewrite (Hsel sel eq_refl)|]; reflexivity.
Qed.

(** X14.  After [handleDeletePhoto] the photos left are exactly those with
    another id, the selection is kept only if it has another id (and is then
    still in the gallery if it was), deleting an id that no photo has changes
    no photo, and deleting the same id again, once the selection has been
    synchronised, changes nothing. *)
Theorem delete_removes_the_photo_and_its_selection
    (photoId : string) (a : Gallery.App) :
  let a' := Gallery.handleDeletePhoto photoId a in
  (forall p, In p (Gallery.photos a') <-> In p (Gallery.photos a) /\ id p <> photoId) /\
  (forall sel, Gallery.selectedPhoto a' = Some sel ->
     Gallery.selectedPhoto a = Some sel /\ id sel <> photoId /\
     (In sel (Gallery.photos a) -> In sel (Gallery.photos a'))) /\
  ((forall p, In p (Gallery.photos a) -> id p <> photoId) ->
   Gallery.photos a' = Gallery.photos a) /\
  Gallery.handleDeletePhoto photoId (Gallery.syncSelected a') = Gallery.syncSelected a'.
Proof.
  intro a'. subst a'. unfold Gallery.handleDeletePhoto.
  cbn [Gallery.photos Gallery.selectedPhoto Gallery.maxZIndex Gallery.dragState].
  split; [|split; [|split]].
  - intro p. rewrite filter_In, negb_true_iff, hasId_false. reflexivity.
  - intros sel H. destruct (Gallery.selectedPhoto a) as [s|]; [|discriminate].
    destruct (Gallery.hasId photoId s) eqn:E; [discriminate|].
    injection H as <-. apply hasId_false in E. repeat split; try assumption.
    intro Hin. apply filter_In. split; [exact Hin|].
    apply negb_true_iff, hasId_false, E.
  - intro H. apply forallb_filter_id. apply forallb_forall. intros p Hp.
    apply negb_true_iff, hasId_false, H, Hp.
  - apply delete_again.
Qed.

Lemma delete_removes_the_photo_and_its_selection_witness :
  Gallery.photos
    (Gallery.handleDeletePhoto "no such id"
       {| Gallery.photos := [samplePhoto None]; Gallery.selectedPhoto := None;
          Gallery.maxZIndex := 11; Gallery.dragState := None |})
  = [samplePhoto None].
Proof.
  apply (proj1 (proj2 (proj2
           (delete_removes_the_photo_and_its_selection "no such id"
              {| Gallery.photos := [samplePhoto None]; Gallery.selectedPhoto := None;
                 Gallery.maxZIndex := 11; Gallery.dragState := None |})))).
  intros p [<-|[]]. discriminate.
Defined.

(** X15.  With pairwise different ids, [handleDeleteFromModal] removes
    exactly the selected photo and selects a photo that is still in the
    gallery; it selects none only when the gallery has become empty. *)
Theorem modal_delete_selects_a_remaining_photo (a : Gallery.App) (sel : Photo) :
  NoDup (map id (Gallery.photos a)) ->
  Gallery.selectedPhoto a = Some sel ->
  let a' := Gallery.handleDeleteFromModal a in
  (forall p, In p (Gallery.photos a') <-> In p (Gallery.photos a) /\ id p <> id sel) /\
  match Gallery.selectedPhoto a' with
  | Some next => In next (Gallery.photos a')
  | None => Gallery.photos a' = []
  end.
Proof.
  intros Hnd Hsel a'. subst a'. unfold Gallery.handleDeleteFromModal. rewrite Hsel.
  cbn [Gallery.photos Gallery.selectedPhoto].
  split.
  - intro p. rewrite filter_In, negb_true_iff, hasId_false. reflexivity.
  - set (l := Gallery.photos a) in *.
    assert (Hkeep : forall p, In p l -> id p <> id sel ->
                      In p (List.filter (fun p => negb (Gallery.hasId (id sel) p)) l)).
    { intros p Hp Hne. apply filter_In. split; [exact Hp|].
      apply negb_true_iff, hasId_false, Hne. }
    unfold Gallery.findIndex.
    destruct (findIndexFrom_cases (id sel) l 0) as [[-> Hnone]|(n & p & Hn & Hp & ->)].
    + destruct l as [|q l'] eqn:El.
      * reflexivity.
      * change (Gallery.arrayAt (q :: l') (-1 + 1)) with (Some q).
        cbn [Gallery.orElse].
        apply Hkeep; [left; reflexivity|]. apply hasId_false, Hnone. left. reflexivity.
    + apply hasId_true in Hp.
      replace (0 + Z.of_nat n + 1)%Z with (Z.of_nat (S n)) by lia.
      rewrite arrayAt_nat.
      destruct (nth_error l (S n)) as [q|] eqn:Eq; cbn [Gallery.orElse].
      * apply Hkeep; [apply (nth_error_In _ _ Eq)|]. intro Hid.
        assert (S n = n) by (apply (unique_id_index l (S n) n q p Hnd Eq Hn); congruence).
        lia.
      * destruct n as [|n'].
        -- change (Gallery.arrayAt l (0 + Z.of_nat 0 - 1)) with (@None Photo).
           destruct l as [|q1 [|q2 l']]; try discriminate.
           cbn in Hn. injection Hn as ->. cbn [List.filter].
           assert (E : Gallery.hasId (id sel) p = true) by (apply hasId_true, Hp).
           rewrite E. reflexivity.
        -- replace (0 + Z.of_nat (S n') - 1)%Z with (Z.of_nat n') by lia.
           rewrite arrayAt_nat.
           destruct (nth_error l n') as [q|] eqn:Eq'.
           ++ apply Hkeep; [apply (nth_error_In _ _ Eq')|]. intro Hid.
              assert (n' = S n')
                by (apply (unique_id_index l n' (S n') q p Hnd Eq' Hn); congruence).
              lia.
           ++ apply nth_error_None in Eq'.
              assert (S n' < length l)%nat by (apply nth_error_Some; congruence).
              lia.
Qed.

Lemma modal_delete_selects_a_remaining_photo_witness :
  Gallery.selectedPhoto (Gallery.handleDeleteFromModal twoPhotos) = Some laterPhoto /\
  In laterPhoto (Gallery.photos (Gallery.handleDeleteFromModal twoPhotos)) /\
  ~ In (samplePhoto None) (Gallery.photos (Gallery.handleDeleteFromModal twoPhotos)).
Proof.
  destruct (modal_delete_selects_a_remaining_photo twoPhotos (samplePhoto None)
              ltac:(repeat constructor; cbn; intuition discriminate)
              eq_refl) as [Hphotos Hnext].
  split; [reflexivity|]. split; [exact Hnext|].
  intro Hin. apply Hphotos in Hin. destruct Hin as [_ Hid]. apply Hid. reflexivity.
Defined.

Lemma findIndex_bounds (photoId : string) (l : list Photo) :
  (-1 <= Gallery.findIndex photoId l < Z.of_nat (length l))%Z.
Proof.
  unfold Gallery.findIndex.
  destruct (findIndexFrom_cases photoId l 0) as [[-> _]|(n & p & Hn & _ & ->)].
  - lia.
  - assert (n < length l)%nat by (apply nth_error_Some; congruence). lia.
Qed.

Lemma arrayAt_in_range (l : list Photo) (i : Z) :
  (0 <= i < Z.of_nat (length l))%Z -> exists p, Gallery.arrayAt l i = Some p /\ In p l.
Proof.
  intro H. replace i with (Z.of_nat (Z.to_nat i)) by lia. rewrite arrayAt_nat.
  destruct (nth_error l (Z.to_nat i)) as [p|] eqn:E.
  - exists p. split; [reflexivity|apply (nth_error_In _ _ E)].
  - apply nth_error_None in E. lia.
Qed.

Lemma prev_stays_in_the_gallery (a : Gallery.App) :
  Gallery.handlePrevPhoto a = a \/
  exists p, In p (Gallery.photos a) /\
            Gallery.handlePrevPhoto a = Gallery.select (Some p) a.
Proof.
  unfold Gallery.handlePrevPhoto, Gallery.getNavigationProps.
  destruct (Gallery.selectedPhoto a) as [sel|]; [|left; reflexivity].
  pose proof (findIndex_bounds (id sel) (Gallery.photos a)) as Hb.
  destruct (0 <? Gallery.findIndex (id sel) (Gallery.photos a))%Z eqn:E;
    [|left; reflexivity].
  apply Z.ltb_lt in E.
  destruct (arrayAt_in_range (Gallery.photos a)
              (Gallery.findIndex (id sel) (Gallery.photos a) - 1)) as (p & Hp & Hin);
    [lia|].
  right. exists p. rewrite Hp. split; [exact Hin|reflexivity].
Qed.

Lemma next_stays_in_the_gallery (a : Gallery.App) :
  Gallery.handleNextPhoto a = a \/
  exists p, In p (Gallery.photos a) /\
            Gallery.handleNextPhoto a = Gallery.select (Some p) a.
Proof.
  unfold Gallery.handleNextPhoto, Gallery.getNavigationProps.
  destruct (Gallery.selectedPhoto a) as [sel|]; [|left; reflexivity].
  pose proof (findIndex_bounds (id sel) (Gallery.photos a)) as Hb.
  destruct (Gallery.findIndex (id sel) (Gallery.photos a)
              <? Z.of_nat (length (Gallery.photos a)) - 1)%Z eqn:E;
    [|destruct (0 <? Gallery.findIndex (id sel) (Gallery.photos a))%Z; left; reflexivity].
  apply Z.ltb_lt in E.
  destruct (arrayAt_in_range (Gallery.photos a)
              (Gallery.findIndex (id sel) (Gallery.photos a) + 1)) as (p & Hp & Hin);
    [lia|].
  right. exists p. rewrite Hp. split; [exact Hin|].
  destruct (0 <? Gallery.findIndex (id sel) (Gallery.photos a))%Z; reflexivity.
Qed.

(** X16.  Previous, next and the keys of the modal never change the
    photos or the counter, and leave the selection as it is or move it to a
    photo of the gallery; only Escape closes the modal. *)
Theorem navigation_stays_in_the_gallery (key : Gallery.Key) (a : Gallery.App) :
  let stays (a' : Gallery.App) :=
    Gallery.photos a' = Gallery.photos a /\
    Gallery.maxZIndex a' = Gallery.maxZIndex a /\
    (Gallery.selectedPhoto a' = Gallery.selectedPhoto a \/
     exists p, Gallery.selectedPhoto a' = Some p /\ In p (Gallery.photos a)) in
  stays (Gallery.handlePrevPhoto a) /\
  stays (Gallery.handleNextPhoto a) /\
  (stays (Gallery.handleKeyDown key a) \/
   (key = Gallery.Escape /\ Gallery.handleKeyDown key a = Gallery.select None a)).
Proof.
  intro stays.
  assert (Hprev : stays (Gallery.handlePrevPhoto a)).
  { destruct (prev_stays_in_the_gallery a) as [->|(p & Hin & ->)]; unfold stays.
    - repeat split. left. reflexivity.
    - repeat split. right. exists p. split; [reflexivity|exact Hin]. }
  assert (Hnext : stays (Gallery.handleNextPhoto a)).
  { destruct (next_stays_in_the_gallery a) as [->|(p & Hin & ->)]; unfold stays.
    - repeat split. left. reflexivity.
    - repeat split. right. exists p. split; [reflexivity|exact Hin]. }
  assert (Hsame : stays a) by (unfold stays; repeat split; left; reflexivity).
  split; [exact Hprev|]. split; [exact Hnext|].
  unfold Gallery.handleKeyDown.
  destruct (Gallery.selectedPhoto a) as [sel|] eqn:Es; [|left; exact Hsame].
  destruct (Gallery.getNavigationProps a) as [[hasPrev hasNext] idx].
  destruct key.
  - left. destruct hasPrev; assumption.
  - left. destruct hasNext; assumption.
  - right. split; reflexivity.
  - left. exact Hsame.
Qed.

(** X17.  With pairwise different ids and the [n]-th photo selected:
    next selects photo [n + 1] and previous, after the selection has been
    synchronised, returns to photo [n]; next on the last photo and previous
    on the first change nothing. *)
Theorem next_then_previous_returns (a : Gallery.App) (n : nat) (p sel : Photo) :
  NoDup (map id (Gallery.photos a)) ->
  nth_error (Gallery.photos a) n = Some p ->
  Gallery.selectedPhoto a = Some sel ->
  id sel = id p ->
  (forall q, nth_error (Gallery.photos a) (S n) = Some q ->
     Gallery.selectedPhoto (Gallery.handleNextPhoto a) = Some q /\
     Gallery.selectedPhoto
       (Gallery.handlePrevPhoto (Gallery.syncSelected (Gallery.handleNextPhoto a)))
     = Some p) /\
  (nth_error (Gallery.photos a) (S n) = None -> Gallery.handleNextPhoto a = a) /\
  (n = 0%nat -> Gallery.handlePrevPhoto a = a).
Proof.
  intros Hnd Hn Hsel Hid.
  assert (Hidx : Gallery.findIndex (id sel) (Gallery.photos a) = Z.of_nat n).
  { rewrite Hid. apply findIndex_of_member; assumption. }
  split; [|split].
  - intros q Hq.
    assert (Hlen : (S n < length (Gallery.photos a))%nat)
      by (apply nth_error_Some; congruence).
    assert (Hnext : Gallery.handleNextPhoto a = Gallery.select (Some q) a).
    { unfold Gallery.handleNextPhoto, Gallery.getNavigationProps. rewrite Hsel, Hidx.
      assert (E : (Z.of_nat n <? Z.of_nat (length (Gallery.photos a)) - 1)%Z = true)
        by (apply Z.ltb_lt; lia).
      rewrite E. replace (Z.of_nat n + 1)%Z with (Z.of_nat (S n)) by lia.
      rewrite arrayAt_nat, Hq. destruct (0 <? Z.of_nat n)%Z; reflexivity. }
    rewrite Hnext. split; [reflexivity|].
    assert (Hsync : Gallery.syncSelected (Gallery.select (Some q) a)
                    = Gallery.select (Some q) a).
    { unfold Gallery.syncSelected, Gallery.select.
      cbn [Gallery.selectedPhoto Gallery.photos].
      rewrite (find_of_member _ (S n) q Hnd Hq). reflexivity. }
    rewrite Hsync.
    unfold Gallery.handlePrevPhoto, Gallery.getNavigationProps, Gallery.select.
    cbn [Gallery.selectedPhoto Gallery.photos].
    rewrite (findIndex_of_member _ (S n) q Hnd Hq).
    assert (E : (0 <? Z.of_nat (S n))%Z = true) by (apply Z.ltb_lt; lia).
    rewrite E. replace (Z.of_nat (S n) - 1)%Z with (Z.of_nat n) by lia.
    rewrite arrayAt_nat, Hn. reflexivity.
  - intro Hnone. apply nth_error_None in Hnone.
    unfold Gallery.handleNextPhoto, Gallery.getNavigationProps. rewrite Hsel, Hidx.
    assert (E : (Z.of_nat n <? Z.of_nat (length (Gallery.photos a)) - 1)%Z = false)
      by (apply Z.ltb_ge; lia).
    rewrite E. destruct (0 <? Z.of_nat n)%Z; reflexivity.
  - intros ->. unfold Gallery.handlePrevPhoto, Gallery.getNavigationProps.
    rewrite Hsel, Hidx. reflexivity.
Qed.

Lemma next_then_previous_returns_witness :
  Gallery.selectedPhoto (Gallery.handleNextPhoto twoPhotos) = Some laterPhoto /\
  Gallery.selectedPhoto
    (Gallery.handlePrevPhoto (Gallery.syncSelected (Gallery.handleNextPhoto twoPhotos)))
  = Some (samplePhoto None).
Proof.
  apply (proj1 (next_then_previous_returns twoPhotos 0 (samplePhoto None)
                  (samplePhoto None)
                  ltac:(repeat constructor; cbn; intuition discriminate)
                  eq_refl eq_refl eq_refl)
           laterPhoto eq_refl).
Defined.

Lemma organizeFrom_nth (random : RandomSource) :
  in_unit_interval random ->
  forall (l : list Photo) (k : nat) (i0 : Z) (i : nat) (p' : Photo),
    nth_error (Gallery.organizeFrom random k i0 l) i = Some p' ->
    exists p,
      nth_error l i = Some p /\
      id p' = id p /\ dataUrl p' = dataUrl p /\ caption p' = caption p /\
      timestamp p' = timestamp p /\ isDeveloping p' = isDeveloping p /\
      zIndex p' = (i0 + Z.of_nat i + 1)%Z /\
      40 <= x p' /\ x p' < 60 /\ 90 <= y p' /\ y p' < 110 /\
      -6 <= rotation p' /\ rotation p' < 6.
Proof.
  intro Hr. induction l as [|p l IH]; intros k i0 i p' H.
  - destruct i; discriminate.
  - destruct i as [|i]; cbn [Gallery.organizeFrom nth_error] in H.
    + injection H as <-. exists p. cbn.
      destruct (Hr k) as [A0 A1]. destruct (Hr (S k)) as [B0 B1].
      destruct (Hr (S (S k))) as [C0 C1].
      repeat split; try lra. lia.
    + destruct (IH _ _ _ _ H) as (q & Hq & Hrest).
      exists q. split; [exact Hq|].
      replace (i0 + Z.of_nat (S i) + 1)%Z with (i0 + 1 + Z.of_nat i + 1)%Z by lia.
      exact Hrest.
Qed.

Lemma organizeFrom_zIndex (random : RandomSource) :
  forall (l : list Photo) (k : nat) (i0 : Z) (i : nat) (p' : Photo),
    nth_error (Gallery.organizeFrom random k i0 l) i = Some p' ->
    zIndex p' = (i0 + Z.of_nat i + 1)%Z.
Proof.
  induction l as [|p l IH]; intros k i0 i p' H.
  - destruct i; discriminate.
  - destruct i as [|i]; cbn [Gallery.organizeFrom nth_error] in H.
    + injection H as <-. cbn. lia.
    + rewrite (IH _ _ _ _ H). lia.
Qed.

Lemma organizeFrom_length (random : RandomSource) :
  forall (l : list Photo) (k : nat) (i0 : Z),
    length (Gallery.organizeFrom random k i0 l) = length l.
Proof.
  induction l as [|p l IH]; intros k i0; [reflexivity|].
  cbn [Gallery.organizeFrom length]. rewrite IH. reflexivity.
Qed.

(** X18.  [organizePhotos] keeps the number of photos and their id, image,
    caption, timestamp and developing flag, gives the [i]-th photo
    [zIndex = i + 1], below the new counter [length + 1], and puts every photo
    within 10 pixels of the anchor (50, 100) with a rotation in [-6, 6). *)
Theorem organize_stacks_in_list_order
    (random : RandomSource) (k : nat) (a : Gallery.App) :
  in_unit_interval random ->
  let a' := Gallery.organizePhotos random k a in
  length (Gallery.photos a') = length (Gallery.photos a) /\
  Gallery.maxZIndex a' = (Z.of_nat (length (Gallery.photos a)) + 1)%Z /\
  Gallery.selectedPhoto a' = Gallery.selectedPhoto a /\
  forall i p',
    nth_error (Gallery.photos a') i = Some p' ->
    exists p,
      nth_error (Gallery.photos a) i = Some p /\
      id p' = id p /\ dataUrl p' = dataUrl p /\ caption p' = caption p /\
      timestamp p' = timestamp p /\ isDeveloping p' = isDeveloping p /\
      zIndex p' = (Z.of_nat i + 1)%Z /\
      (zIndex p' < Gallery.maxZIndex a')%Z /\
      40 <= x p' /\ x p' < 60 /\ 90 <= y p' /\ y p' < 110 /\
      -6 <= rotation p' /\ rotation p' < 6.
Proof.
  intros Hr a'. subst a'. unfold Gallery.organizePhotos.
  cbn [Gallery.photos Gallery.maxZIndex Gallery.selectedPhoto].
  split; [apply organizeFrom_length|]. split; [reflexivity|]. split; [reflexivity|].
  intros i p' H.
  assert (Hi : (i < length (Gallery.photos a))%nat).
  { rewrite <- (organizeFrom_length random _ k 0). apply nth_error_Some. congruence. }
  destruct (organizeFrom_nth random Hr _ _ _ _ _ H)
    as (p & Hp & H1 & H2 & H3 & H4 & H5 & Hz & Hrest).
  exists p. repeat split; try tauto; rewrite Hz; lia.
Qed.

Lemma organize_stacks_in_list_order_witness :
  length (Gallery.photos
            (Gallery.organizePhotos sampleRandom 0
               {| Gallery.photos := [samplePhoto None; samplePhoto None];
                  Gallery.selectedPhoto := None; Gallery.maxZIndex := 40;
                  Gallery.dragState := None |})) = 2%nat.
Proof.
  apply (organize_stacks_in_list_order sampleRandom 0
           {| Gallery.photos := [samplePhoto None; samplePhoto None];
              Gallery.selectedPhoto := None; Gallery.maxZIndex := 40;
              Gallery.dragState := None |}
           sampleRandom_in_unit_interval).
Defined.

Lemma Forall_map_zIndex (P : Z -> Prop) (f : Photo -> Photo) (l : list Photo) :
  (forall p, zIndex (f p) = zIndex p) ->
  Forall (fun p => P (zIndex p)) l -> Forall (fun p => P (zIndex p)) (map f l).
Proof.
  intros Hf H. induction H as [|p l Hp _ IH]; cbn; constructor; [|exact IH].
  rewrite Hf. exact Hp.
Qed.

Lemma maxOf_upper_bound (zs : list Z) :
  forall z, (z <= Gallery.maxOf z zs)%Z /\
            Forall (fun v => (v <= Gallery.maxOf z zs)%Z) zs.
Proof.
  unfold Gallery.maxOf. induction zs as [|v zs IH]; intro z; cbn [fold_left].
  - split; [lia|constructor].
  - destruct (IH (Z.max z v)) as [H1 H2]. split; [lia|].
    constructor; [lia|exact H2].
Qed.

Lemma belowCounter_weaken (l : list Photo) (m m' : Z) :
  (m <= m')%Z ->
  Forall (fun p => (zIndex p <= m)%Z) l -> Forall (fun p => (zIndex p <= m')%Z) l.
Proof.
  intros Hm H. eapply Forall_impl; [|exact H]. cbn. intros p Hp. lia.
Qed.

Lemma keyDown_keeps_photos (key : Gallery.Key) (a : Gallery.App) :
  Gallery.photos (Gallery.handleKeyDown key a) = Gallery.photos a /\
  Gallery.maxZIndex (Gallery.handleKeyDown key a) = Gallery.maxZIndex a.
Proof.
  assert (Hprev : Gallery.photos (Gallery.handlePrevPhoto a) = Gallery.photos a /\
                  Gallery.maxZIndex (Gallery.handlePrevPhoto a) = Gallery.maxZIndex a)
    by (destruct (prev_stays_in_the_gallery a) as [->|(p & _ & ->)]; split; reflexivity).
  assert (Hnext : Gallery.photos (Gallery.handleNextPhoto a) = Gallery.photos a /\
                  Gallery.maxZIndex (Gallery.handleNextPhoto a) = Gallery.maxZIndex a)
    by (destruct (next_stays_in_the_gallery a) as [->|(p & _ & ->)]; split; reflexivity).
  unfold Gallery.handleKeyDown.
  destruct (Gallery.selectedPhoto a); [|split; reflexivity].
  destruct (Gallery.getNavigationProps a) as [[hasPrev hasNext] idx].
  destruct key; [destruct hasPrev|destruct hasNext| |]; try assumption; split; reflexivity.
Qed.

Lemma belowCounter_sync (a : Gallery.App) :
  Gallery.belowCounter a -> Gallery.belowCounter (Gallery.syncSelected a).
Proof.
  unfold Gallery.belowCounter. destruct (syncSelected_keeps a) as (-> & -> & _).
  exact (fun H => H).
Qed.

Lemma act_keeps_gallery_below_counter (e : Gallery.Action) (d : Gallery.Desk) :
  (forall i, e <> Gallery.ColorSettles i) ->
  Gallery.belowCounter (Gallery.app d) ->
  Gallery.belowCounter (Gallery.app (Gallery.act e d)).
Proof.
  intros Hne H. destruct d as [a pending]. cbn [Gallery.app] in H.
  destruct e as [saved|dta sp iw ih ai|n|i sx sy r|i|i c|i|i c|cx cy i|cx cy|cx cy
                 |random k| |i| |key];
    cbn [Gallery.act Gallery.handled Gallery.app Gallery.pendingPhotos Gallery.photoTaken];
    try apply belowCounter_sync; unfold Gallery.belowCounter in *.
  - destruct saved as [saved|]; [|exact H]. unfold Gallery.loadPhotos.
    cbn [Gallery.photos Gallery.maxZIndex].
    destruct saved as [|p saved]; [constructor|].
    cbn [map]. destruct (maxOf_upper_bound (map zIndex (map Gallery.withDeveloped saved))
                           (zIndex (Gallery.withDeveloped p))) as [H1 H2].
    constructor; [lia|].
    rewrite Forall_map in H2. eapply Forall_impl; [|exact H2]. cbn. intros q Hq. lia.
  - cbn [Gallery.photos Gallery.maxZIndex].
    apply (belowCounter_weaken _ (Gallery.maxZIndex a)); [lia|exact H].
  - destruct (Hne n eq_refl).
  - cbn. apply (Forall_map_zIndex (fun z => (z <= Gallery.maxZIndex a)%Z)); [|exact H].
    intro p. destruct (Gallery.hasId i p); reflexivity.
  - cbn. apply (Forall_map_zIndex (fun z => (z <= Gallery.maxZIndex a)%Z)); [|exact H].
    intro p. destruct (Gallery.hasId i p); reflexivity.
  - cbn. apply (Forall_map_zIndex (fun z => (z <= Gallery.maxZIndex a)%Z)); [|exact H].
    intro p. destruct (_ && _)%bool; reflexivity.
  - cbn. apply (Forall_map_zIndex (fun z => (z <= Gallery.maxZIndex a)%Z)); [|exact H].
    intro p. destruct (_ && _)%bool; reflexivity.
  - cbn. apply (Forall_map_zIndex (fun z => (z <= Gallery.maxZIndex a)%Z)); [|exact H].
    intro p. destruct (String.eqb (id p) i); reflexivity.
  - unfold Gallery.handleMouseDown.
    destruct (find (Gallery.hasId i) (Gallery.photos a)) as [found|]; [|exact H].
    cbn [Gallery.photos Gallery.maxZIndex].
    rewrite Forall_map. eapply Forall_impl; [|exact H]. cbn. intros q Hq.
    destruct (Gallery.hasId i q); cbn; lia.
  - unfold Gallery.handleMouseMove. destruct (Gallery.dragState a) as [d|]; [|exact H].
    cbn [Gallery.photos Gallery.maxZIndex].
    apply (Forall_map_zIndex (fun z => (z <= Gallery.maxZIndex a)%Z)); [|exact H].
    intro p. destruct (Gallery.hasId (Gallery.dragId d) p); reflexivity.
  - unfold Gallery.handleMouseUp. destruct (Gallery.dragState a); exact H.
  - unfold Gallery.organizePhotos. cbn [Gallery.photos Gallery.maxZIndex].
    apply Forall_forall. intros p' Hin.
    destruct (In_nth_error _ _ Hin) as [n Hn].
    assert (Hlt : (n < length (Gallery.photos a))%nat).
    { rewrite <- (organizeFrom_length random _ k 0). apply nth_error_Some. congruence. }
    rewrite (organizeFrom_zIndex random _ _ _ _ _ Hn). lia.
  - unfold Gallery.clearPhotos. destruct (length (Gallery.photos a) =? 0)%nat;
      [exact H|constructor].
  - unfold Gallery.handleDeletePhoto. cbn [Gallery.photos Gallery.maxZIndex].
    apply Forall_forall. intros p Hp. apply filter_In in Hp.
    rewrite Forall_forall in H. apply H, Hp.
  - unfold Gallery.handleDeleteFromModal.
    destruct (Gallery.selectedPhoto a) as [sel|]; [|exact H].
    cbn [Gallery.photos Gallery.maxZIndex].
    apply Forall_forall. intros q Hq. apply filter_In in Hq.
    rewrite Forall_forall in H. apply H, Hq.
  - destruct (keyDown_keeps_photos key a) as [Hp Hm]. rewrite Hp, Hm. exact H.
Qed.

Lemma act_keeps_or_raises_counter (e : Gallery.Action) (d : Gallery.Desk) :
  Gallery.resetsCounter e = false ->
  (Gallery.maxZIndex (Gallery.app d)
   <= Gallery.maxZIndex (Gallery.app (Gallery.act e d)))%Z.
Proof.
  intro Hr. destruct d as [a pending].
  destruct e as [saved|dta sp iw ih ai|n|i sx sy r|i|i c|i|i c|cx cy i|cx cy|cx cy
                 |random k| |i| |key]; try discriminate Hr;
    cbn [Gallery.act Gallery.handled Gallery.app Gallery.pendingPhotos Gallery.photoTaken];
    try match goal with
        | |- context [Gallery.syncSelected ?b] =>
            destruct (syncSelected_keeps b) as (_ & -> & _)
        end;
    cbn [Gallery.maxZIndex Gallery.withPhotos]; try lia.
  - destruct (nth_error pending n);
      cbn [Gallery.app]; [|lia].
    destruct (syncSelected_keeps (Gallery.photoAppended t a)) as (_ & -> & _).
    cbn. lia.
  - unfold Gallery.handleMouseDown. destruct (find _ _); cbn [Gallery.maxZIndex]; lia.
  - unfold Gallery.handleMouseMove. destruct (Gallery.dragState a);
      cbn [Gallery.maxZIndex]; lia.
  - unfold Gallery.handleMouseUp. destruct (Gallery.dragState a);
      cbn [Gallery.maxZIndex]; lia.
  - unfold Gallery.clearPhotos. destruct (_ =? _)%nat; cbn [Gallery.maxZIndex]; lia.
  - unfold Gallery.handleDeletePhoto. cbn [Gallery.maxZIndex]. lia.
  - unfold Gallery.handleDeleteFromModal. destruct (Gallery.selectedPhoto a);
      cbn [Gallery.maxZIndex]; lia.
  - rewrite (proj2 (keyDown_keeps_photos key a)). lia.
Qed.

Lemma act_keeps_pending (e : Gallery.Action) (d : Gallery.Desk) :
  (forall dta sp iw ih ai, e <> Gallery.Take dta sp iw ih ai) ->
  (forall i, e <> Gallery.ColorSettles i) ->
  Gallery.pendingPhotos (Gallery.act e d) = Gallery.pendingPhotos d.
Proof.
  intros Ht Hc.
  destruct e; try reflexivity; [destruct (Ht _ _ _ _ _ eq_refl)|destruct (Hc _ eq_refl)].
Qed.

Lemma act_keeps_all_below_counter (e : Gallery.Action) (d : Gallery.Desk) :
  Gallery.allBelowCounter d ->
  Gallery.resetsCounter e = false \/ Gallery.pendingPhotos d = [] ->
  Gallery.allBelowCounter (Gallery.act e d).
Proof.
  intros [Hg Hp] Hcalm.
  destruct e as [saved|dta sp iw ih ai|n|i sx sy r|i|i c|i|i c|cx cy i|cx cy|cx cy
                 |random k| |i| |key].
  3: { (* the photo joins the gallery *)
    destruct d as [a pending]. cbn [Gallery.app Gallery.pendingPhotos] in *.
    cbn [Gallery.act Gallery.app Gallery.pendingPhotos].
    destruct (nth_error pending n) as [t|] eqn:En;
      [|split; [exact Hg|exact Hp]].
    split; cbn [Gallery.app Gallery.pendingPhotos].
    - apply belowCounter_sync. unfold Gallery.belowCounter, Gallery.photoAppended,
        AppAiConfig.handlePhotoTaken in *.
      cbn [Gallery.photos Gallery.maxZIndex Gallery.withPhotos].
      apply Forall_app. split; [exact Hg|].
      constructor; [|constructor]. rewrite Forall_forall in Hp.
      apply (Hp t (nth_error_In _ _ En)).
    - destruct (syncSelected_keeps (Gallery.photoAppended t a)) as (_ & -> & _).
      cbn [Gallery.photoAppended Gallery.withPhotos Gallery.maxZIndex].
      unfold dropAt. apply Forall_app. rewrite Forall_forall in Hp.
      split; apply Forall_forall; intros q Hq; apply Hp;
        rewrite <- (firstn_skipn n pending); apply in_or_app.
      + left. exact Hq.
      + right. rewrite <- (firstn_skipn 1 (skipn n pending)). apply in_or_app. right.
        rewrite skipn_skipn. exact Hq. }
  2: { (* the call up to the await *)
    destruct d as [a pending]. cbn [Gallery.app Gallery.pendingPhotos] in *.
    cbn [Gallery.act Gallery.photoTaken]. split; cbn [Gallery.app Gallery.pendingPhotos].
    - unfold Gallery.belowCounter in *. cbn [Gallery.photos Gallery.maxZIndex].
      apply (belowCounter_weaken _ (Gallery.maxZIndex a)); [lia|exact Hg].
    - cbn [Gallery.maxZIndex]. apply Forall_app. split.
      + eapply Forall_impl; [|exact Hp]. cbn. intros q Hq. lia.
      + constructor; [cbn; lia|constructor]. }
  all: split; [apply act_keeps_gallery_below_counter; [discriminate|exact Hg]|].
  all: rewrite act_keeps_pending by discriminate.
  all: destruct Hcalm as [Hr|Hnil];
    [|rewrite Hnil; constructor].
  all: try discriminate Hr.
  all: pose proof (act_keeps_or_raises_counter _ d Hr) as Hmono.
  all: eapply Forall_impl; [|exact Hp]; intros q Hq; cbv beta in *; lia.
Qed.

(** X19.  [handlePhotoTaken] takes the [zIndex] of the new photo from the
    counter before it awaits [getDominantColor] and appends the photo
    afterwards.  As long as the counter is not reset ([organizePhotos],
    [loadPhotos]) while such a call waits, no photo of the gallery and no
    waiting photo ever has a [zIndex] above [maxZIndex], whatever the
    sequence of actions; and in the state reached every action other than
    the append of a waiting photo keeps the photos of the gallery at or below
    the counter. *)
Theorem no_photo_lies_above_the_counter (es : list Gallery.Action) (d : Gallery.Desk) :
  Gallery.allBelowCounter d ->
  Gallery.calm es d = true ->
  Gallery.allBelowCounter (Gallery.acts es d) /\
  forall e, (forall i, e <> Gallery.ColorSettles i) ->
    Gallery.belowCounter (Gallery.app (Gallery.act e (Gallery.acts es d))).
Proof.
  intros H Hcalm.
  assert (Hall : Gallery.allBelowCounter (Gallery.acts es d)).
  { revert d H Hcalm. induction es as [|e es IH]; intros d H Hcalm; [exact H|].
    cbn [Gallery.acts fold_left]. cbn [Gallery.calm] in Hcalm.
    apply andb_true_iff in Hcalm. destruct Hcalm as [Hnow Hlater].
    apply IH; [|exact Hlater]. apply act_keeps_all_below_counter; [exact H|].
    apply orb_true_iff in Hnow. destruct Hnow as [Hr|Hnil].
    - left. apply negb_true_iff, Hr.
    - right. apply Nat.eqb_eq in Hnil. apply length_zero_iff_nil, Hnil. }
  split; [exact Hall|].
  intros e He. apply act_keeps_gallery_below_counter; [exact He|apply Hall].
Qed.

Lemma no_photo_lies_above_the_counter_witness :
  Gallery.allBelowCounter
    (Gallery.acts
       [Gallery.Take (samplePhoto None) (Some (1007, 276)) 1440 900 true;
        Gallery.ColorSettles 0;
        Gallery.MouseDown 1010 280 "1763000000000";
        Gallery.Organize sampleRandom 0]
       Gallery.emptyDesk).
Proof.
  apply (proj1 (no_photo_lies_above_the_counter
                  [Gallery.Take (samplePhoto None) (Some (1007, 276)) 1440 900 true;
                   Gallery.ColorSettles 0;
                   Gallery.MouseDown 1010 280 "1763000000000";
                   Gallery.Organize sampleRandom 0]
                  Gallery.emptyDesk
                  (conj (Forall_nil _) (Forall_nil _))
                  eq_refl)).
Defined.

(** X20.  With no photo above the counter: a press on a photo raises the
    counter by one and gives that [zIndex] to the pressed photo, every other
    photo staying strictly below; a press on an unknown id changes nothing;
    and [handlePhotoTaken] gives the new photo the raised counter as
    [zIndex], strictly above every photo in the gallery at the time of the
    call, and later appends it as the last photo. *)
Theorem pressed_or_new_photo_is_on_top
    (clientX clientY : Q) (photoId : string) (a : Gallery.App) :
  Gallery.belowCounter a ->
  let pressed := Gallery.handleMouseDown clientX clientY photoId a in
  ((forall p, In p (Gallery.photos a) -> id p <> photoId) -> pressed = a) /\
  ((exists p, In p (Gallery.photos a) /\ id p = photoId) ->
   Gallery.maxZIndex pressed = (Gallery.maxZIndex a + 1)%Z /\
   map id (Gallery.photos pressed) = map id (Gallery.photos a) /\
   forall q, In q (Gallery.photos pressed) ->
     (id q = photoId -> zIndex q = Gallery.maxZIndex pressed) /\
     (id q <> photoId -> (zIndex q < Gallery.maxZIndex pressed)%Z)) /\
  (forall newPhotoData startPos innerWidth innerHeight isAiEnabled,
     let taken := Gallery.photoTaken newPhotoData startPos innerWidth innerHeight
                    isAiEnabled a in
     let newPhoto := Gallery.newPhotoOf (fst taken) in
     Gallery.photos (snd taken) = Gallery.photos a /\
     id newPhoto = id newPhotoData /\ dataUrl newPhoto = dataUrl newPhotoData /\
     zIndex newPhoto = Gallery.maxZIndex (snd taken) /\
     Forall (fun p => (zIndex p < zIndex newPhoto)%Z) (Gallery.photos a) /\
     forall b, Gallery.photos (Gallery.photoAppended (fst taken) b)
               = Gallery.photos b ++ [newPhoto]).
Proof.
  intros Hinv pressed. subst pressed. unfold Gallery.belowCounter in Hinv.
  split; [|split].
  - intro Hnone. unfold Gallery.handleMouseDown.
    destruct (find (Gallery.hasId photoId) (Gallery.photos a)) as [found|] eqn:E;
      [|reflexivity].
    apply find_some in E. destruct E as [Hin Hid]. apply hasId_true in Hid.
    destruct (Hnone found Hin Hid).
  - intros (p & Hin & Hid). unfold Gallery.handleMouseDown.
    destruct (find (Gallery.hasId photoId) (Gallery.photos a)) as [found|] eqn:E.
    + cbn [Gallery.photos Gallery.maxZIndex]. split; [reflexivity|]. split.
      * rewrite map_map. apply map_ext. intro q.
        destruct (Gallery.hasId photoId q); reflexivity.
      * intros q Hq. apply in_map_iff in Hq. destruct Hq as (q0 & <- & Hq0).
        rewrite Forall_forall in Hinv. specialize (Hinv q0 Hq0).
        destruct (Gallery.hasId photoId q0) eqn:Eq.
        -- cbn. split; [reflexivity|]. apply hasId_true in Eq. intro Hne. congruence.
        -- apply hasId_false in Eq. split; [intro He; congruence|]. intros _. lia.
    + exfalso. apply (find_none _ _ E) in Hin. apply hasId_false in Hin. congruence.
  - intros d sp iw ih ai taken newPhoto. subst newPhoto taken.
    unfold Gallery.photoTaken, Gallery.newPhotoOf, Gallery.photoAppended,
      AppAiConfig.handlePhotoTaken.
    cbn [fst snd Gallery.photos Gallery.maxZIndex Gallery.withPhotos Gallery.takenData
         Gallery.takenStart Gallery.takenInnerWidth Gallery.takenInnerHeight
         Gallery.takenZ Gallery.takenAi].
    split; [reflexivity|]. split; [reflexivity|]. split; [reflexivity|].
    split; [reflexivity|]. split; [|reflexivity].
    eapply Forall_impl; [|exact Hinv]. cbn. intros p Hp. lia.
Qed.

Lemma pressed_or_new_photo_is_on_top_witness :
  Gallery.maxZIndex
    (Gallery.handleMouseDown 10 10 "1763000000000"
       {| Gallery.photos := [samplePhoto None]; Gallery.selectedPhoto := None;
          Gallery.maxZIndex := 11; Gallery.dragState := None |}) = 12%Z.
Proof.
  apply (proj1 (proj2
           (pressed_or_new_photo_is_on_top 10 10 "1763000000000"
              {| Gallery.photos := [samplePhoto None]; Gallery.selectedPhoto := None;
                 Gallery.maxZIndex := 11; Gallery.dragState := None |}
              ltac:(repeat constructor; discriminate)))).
  exists (samplePhoto None). split; [left; reflexivity|reflexivity].
Defined.

(** X21.  A press on a photo followed by a move displaces the photos with
    that id to the pressed photo's position plus the displacement of the
    mouse, keeping their id, image, caption, rotation and developing flag,
    and leaves every other photo as it is. *)
Theorem dragging_moves_only_the_pressed_photo
    (clientX clientY dx dy : Q) (photoId : string) (a : Gallery.App) (pressed : Photo) :
  find (Gallery.hasId photoId) (Gallery.photos a) = Some pressed ->
  let moved :=
    Gallery.handleMouseMove (clientX + dx) (clientY + dy)
      (Gallery.syncSelected (Gallery.handleMouseDown clientX clientY photoId a)) in
  Forall2 (fun p p' =>
             if Gallery.hasId photoId p
             then x p' == x pressed + dx /\ y p' == y pressed + dy /\
                  id p' = id p /\ dataUrl p' = dataUrl p /\ caption p' = caption p /\
                  rotation p' = rotation p /\ isDeveloping p' = isDeveloping p
             else p' = p)
          (Gallery.photos a) (Gallery.photos moved).
Proof.
  intros Hfind moved. subst moved.
  set (b := Gallery.handleMouseDown clientX clientY photoId a).
  assert (Hb : Gallery.photos
                 (Gallery.handleMouseMove (clientX + dx) (clientY + dy)
                    (Gallery.syncSelected b))
               = Gallery.photos
                   (Gallery.handleMouseMove (clientX + dx) (clientY + dy) b)).
  { unfold Gallery.handleMouseMove.
    destruct (syncSelected_keeps b) as (Hp & _ & Hd). rewrite Hd.
    destruct (Gallery.dragState b); cbn [Gallery.photos]; rewrite Hp; reflexivity. }
  rewrite Hb. subst b.
  unfold Gallery.handleMouseMove, Gallery.handleMouseDown. rewrite Hfind.
  cbn [Gallery.dragState Gallery.photos Gallery.selectedPhoto Gallery.startX
       Gallery.startY Gallery.initialX Gallery.initialY Gallery.dragId].
  rewrite map_map. apply Forall2_map_self. intro p.
  destruct (Gallery.hasId photoId p) eqn:E.
  - change (Gallery.hasId photoId (Gallery.withZIndex (Gallery.maxZIndex a + 1) p))
      with (Gallery.hasId photoId p). rewrite E. cbn.
    repeat split; ring.
  - rewrite E. reflexivity.
Qed.

Lemma dragging_moves_only_the_pressed_photo_witness :
  Forall2 (fun p p' =>
             if Gallery.hasId "1763000000000" p
             then x p' == x (samplePhoto None) + 30 /\ y p' == y (samplePhoto None) + 40 /\
                  id p' = id p /\ dataUrl p' = dataUrl p /\ caption p' = caption p /\
                  rotation p' = rotation p /\ isDeveloping p' = isDeveloping p
             else p' = p)
    [samplePhoto None]
    (Gallery.photos
       (Gallery.handleMouseMove (10 + 30) (10 + 40)
          (Gallery.syncSelected
             (Gallery.handleMouseDown 10 10 "1763000000000"
                {| Gallery.photos := [samplePhoto None];
                   Gallery.selectedPhoto := Some (samplePhoto None);
                   Gallery.maxZIndex := 11; Gallery.dragState := None |})))).
Proof.
  apply (dragging_moves_only_the_pressed_photo 10 10 30 40 "1763000000000"
           {| Gallery.photos := [samplePhoto None];
              Gallery.selectedPhoto := Some (samplePhoto None);
              Gallery.maxZIndex := 11; Gallery.dragState := None |}
           (samplePhoto None) eq_refl).
Defined.

(** X22.  A release ends the drag and changes no photo; it opens the
    pressed photo when the mouse is within 5 pixels of the press on both
    axes, and leaves the selection alone when it is 5 pixels or more away on
    one axis; afterwards moves and releases do nothing. *)
Theorem release_near_the_press_opens_the_photo
    (clientX clientY : Q) (a : Gallery.App) (d : Gallery.DragState) :
  Gallery.dragState a = Some d ->
  let released := Gallery.handleMouseUp clientX clientY a in
  Gallery.dragState released = None /\
  Gallery.photos released = Gallery.photos a /\
  (Qabs (clientX - Gallery.startX d) < 5 -> Qabs (clientY - Gallery.startY d) < 5 ->
   forall p, find (Gallery.hasId (Gallery.dragId d)) (Gallery.photos a) = Some p ->
     Gallery.selectedPhoto released = Some p) /\
  (5 <= Qabs (clientX - Gallery.startX d) \/ 5 <= Qabs (clientY - Gallery.startY d) ->
   Gallery.selectedPhoto released = Gallery.selectedPhoto a) /\
  (forall X Y, Gallery.handleMouseMove X Y (Gallery.syncSelected released)
               = Gallery.syncSelected released) /\
  (forall X Y, Gallery.handleMouseUp X Y (Gallery.syncSelected released)
               = Gallery.syncSelected released).
Proof.
  intros Hd released.
  assert (Hnone : Gallery.dragState (Gallery.syncSelected released) = None).
  { destruct (syncSelected_keeps released) as (_ & _ & ->).
    subst released. unfold Gallery.handleMouseUp. rewrite Hd. reflexivity. }
  assert (Hmove : forall X Y, Gallery.handleMouseMove X Y (Gallery.syncSelected released)
                              = Gallery.syncSelected released)
    by (intros X Y; unfold Gallery.handleMouseMove; rewrite Hnone; reflexivity).
  assert (Hup : forall X Y, Gallery.handleMouseUp X Y (Gallery.syncSelected released)
                            = Gallery.syncSelected released)
    by (intros X Y; unfold Gallery.handleMouseUp; rewrite Hnone; reflexivity).
  split; [|split; [|split; [|split; [|split; [exact Hmove|exact Hup]]]]];
    clear Hnone Hmove Hup; subst released; unfold Gallery.handleMouseUp; rewrite Hd;
    cbn [Gallery.dragState Gallery.photos Gallery.selectedPhoto].
  - reflexivity.
  - reflexivity.
  - intros Hx Hy p Hp. rewrite (proj2 (Qgtb_true _ _) Hx), (proj2 (Qgtb_true _ _) Hy).
    cbn [andb]. rewrite Hp. reflexivity.
  - intros [H|H]; apply Qgtb_false in H; rewrite H; [|rewrite andb_false_r]; reflexivity.
Qed.

Lemma release_near_the_press_opens_the_photo_witness :
  Gallery.selectedPhoto
    (Gallery.handleMouseUp 12 9
       {| Gallery.photos := [samplePhoto None]; Gallery.selectedPhoto := None;
          Gallery.maxZIndex := 12;
          Gallery.dragState :=
            Some {| Gallery.dragId := "1763000000000"; Gallery.startX := 10;
                    Gallery.startY := 10; Gallery.initialX := 120;
                    Gallery.initialY := 80 |} |})
  = Some (samplePhoto None).
Proof.
  apply (proj1 (proj2 (proj2
           (release_near_the_press_opens_the_photo 12 9
              {| Gallery.photos := [samplePhoto None]; Gallery.selectedPhoto := None;
                 Gallery.maxZIndex := 12;
                 Gallery.dragState :=
                   Some {| Gallery.dragId := "1763000000000"; Gallery.startX := 10;
                           Gallery.startY := 10; Gallery.initialX := 120;
                           Gallery.initialY := 80 |} |}
              {| Gallery.dragId := "1763000000000"; Gallery.startX := 10;
                 Gallery.startY := 10; Gallery.initialX := 120;
                 Gallery.initialY := 80 |}
              eq_refl))));
    reflexivity.
Defined.

Lemma map_commute {A : Type} (f g : A -> A) (l : list A) :
  (forall a, f (g a) = g (f a)) -> map f (map g l) = map g (map f l).
Proof. intro H. rewrite !map_map. apply map_ext. exact H. Qed.

(** X23.  The landing timer, the developing timer, the arrival or failure
    of the AI caption and a caption edit touch different fields: each of the
    two timers commutes with each of the caption updates, and the two timers
    commute with each other. *)
Theorem timers_and_captions_commute
    (i j : string) (stackX stackY landingRotation : Q) (c : string) (l : list Photo) :
  Gallery.developed i (AppAiConfig.captionResolved j c l)
    = AppAiConfig.captionResolved j c (Gallery.developed i l) /\
  Gallery.landed i stackX stackY landingRotation (AppAiConfig.captionResolved j c l)
    = AppAiConfig.captionResolved j c (Gallery.landed i stackX stackY landingRotation l) /\
  Gallery.developed i (AppAiConfig.captionFailed j l)
    = AppAiConfig.captionFailed j (Gallery.developed i l) /\
  Gallery.landed i stackX stackY landingRotation (AppAiConfig.captionFailed j l)
    = AppAiConfig.captionFailed j (Gallery.landed i stackX stackY landingRotation l) /\
  Gallery.developed i (handleUpdateCaption j c l)
    = handleUpdateCaption j c (Gallery.developed i l) /\
  Gallery.landed i stackX stackY landingRotation (handleUpdateCaption j c l)
    = handleUpdateCaption j c (Gallery.landed i stackX stackY landingRotation l) /\
  Gallery.developed i (Gallery.landed j stackX stackY landingRotation l)
    = Gallery.landed j stackX stackY landingRotation (Gallery.developed i l).
Proof.
  unfold Gallery.developed, Gallery.landed, AppAiConfig.captionResolved,
    AppAiConfig.captionFailed, handleUpdateCaption, Gallery.hasId.
  repeat split; apply map_commute; intro p;
    destruct (String.eqb (id p) i) eqn:Ei; destruct (String.eqb (id p) j) eqn:Ej;
    cbn [andb];
    try destruct (captionIs (caption p) "✨ Writing...") eqn:Ec;
    try destruct (noCaption (caption p)) eqn:En;
    cbn [orb id caption withCaption Gallery.withDeveloped Gallery.withLanding];
    rewrite ?Ei, ?Ej, ?Ec, ?En; cbn [andb orb]; reflexivity.
Qed.

(** X24.  [loadPhotos] keeps the number, ids, images and captions of the
    stored photos, marks every one as developed and sets the counter
    strictly above every [zIndex]; an empty store leaves the counter, and a
    store that is not an array leaves everything, as it was. *)
Theorem loaded_photos_are_developed_and_below_the_counter
    (saved : list Photo) (a : Gallery.App) :
  let a' := Gallery.loadPhotos (Some saved) a in
  length (Gallery.photos a') = length saved /\
  map id (Gallery.photos a') = map id saved /\
  map dataUrl (Gallery.photos a') = map dataUrl saved /\
  map caption (Gallery.photos a') = map caption saved /\
  Forall (fun p => isDeveloping p = false) (Gallery.photos a') /\
  Forall (fun p => (zIndex p < Gallery.maxZIndex a')%Z) (Gallery.photos a') /\
  (saved = [] -> Gallery.maxZIndex a' = Gallery.maxZIndex a) /\
  Gallery.loadPhotos None a = a.
Proof.
  intro a'. subst a'. unfold Gallery.loadPhotos.
  cbn [Gallery.photos Gallery.maxZIndex].
  split; [apply length_map|].
  split; [rewrite map_map; reflexivity|].
  split; [rewrite map_map; reflexivity|].
  split; [rewrite map_map; reflexivity|].
  split; [rewrite Forall_map; apply Forall_forall; reflexivity|].
  split; [|split; [intros ->; reflexivity|reflexivity]].
  destruct saved as [|p saved]; [constructor|].
  cbn [map].
  destruct (maxOf_upper_bound (map zIndex (map Gallery.withDeveloped saved))
              (zIndex (Gallery.withDeveloped p))) as [H1 H2].
  constructor; [lia|].
  rewrite Forall_map in H2. eapply Forall_impl; [|exact H2]. cbn. intros q Hq. lia.
Qed.

Lemma loaded_photos_are_developed_and_below_the_counter_witness :
  Gallery.maxZIndex (Gallery.loadPhotos (Some []) Gallery.emptyApp) = 10%Z.
Proof.
  apply (proj1 (proj2 (proj2 (proj2 (proj2 (proj2 (proj2
           (loaded_photos_are_developed_and_below_the_counter [] Gallery.emptyApp)))))))).
  reflexivity.
Defined.

(** ** The caption service *)

Lemma list_of_append (s t : string) :
  list_ascii_of_string (s ++ t) = list_ascii_of_string s ++ list_ascii_of_string t.
Proof. induction s as [|c s IH]; cbn; [reflexivity|]. rewrite IH. reflexivity. Qed.

Lemma startsWith_app (pre l : list ascii) :
  CaptionService.startsWith pre (pre ++ l) = true.
Proof.
  induction pre as [|c pre IH]; cbn; [reflexivity|].
  rewrite Ascii.eqb_refl. exact IH.
Qed.

Lemma startsWith_longer (pre : list ascii) :
  forall l m, CaptionService.startsWith pre l = true ->
              CaptionService.startsWith pre (l ++ m) = true.
Proof.
  induction pre as [|c pre IH]; intros l m H; [reflexivity|].
  destruct l as [|d l]; [discriminate|]. cbn in *.
  apply andb_true_iff in H. destruct H as [H1 H2]. rewrite H1. cbn. apply IH, H2.
Qed.

Lemma endsWith_append (s t : string) : CaptionService.endsWith (s ++ t) t = true.
Proof.
  unfold CaptionService.endsWith. rewrite list_of_append, rev_app_distr.
  apply startsWith_app.
Qed.

Lemma strip_without_trailing_slash (s : string) (c : ascii) (l : list ascii) :
  rev (list_ascii_of_string s) = c :: l -> c <> "/"%char ->
  CaptionService.stripTrailingSlashes s = s.
Proof.
  intros H Hc. unfold CaptionService.stripTrailingSlashes. rewrite H.
  cbn [CaptionService.dropSlashes].
  destruct (Ascii.eqb c "/") eqn:E; [apply Ascii.eqb_eq in E; contradiction|].
  rewrite <- H, rev_involutive. apply string_of_list_ascii_of_string.
Qed.

Lemma strip_one_trailing_slash (s : string) (c : ascii) (l : list ascii) :
  rev (list_ascii_of_string s) = c :: l -> c <> "/"%char ->
  CaptionService.stripTrailingSlashes (s ++ "/") = s.
Proof.
  intros H Hc. unfold CaptionService.stripTrailingSlashes.
  rewrite list_of_append, rev_app_distr. cbn [list_ascii_of_string rev app].
  cbn [CaptionService.dropSlashes]. rewrite Ascii.eqb_refl. rewrite H.
  cbn [CaptionService.dropSlashes].
  destruct (Ascii.eqb c "/") eqn:E; [apply Ascii.eqb_eq in E; contradiction|].
  rewrite <- H, rev_involutive. apply string_of_list_ascii_of_string.
Qed.

Lemma complete_endpoint_shape (s : string) :
  CaptionService.endsWith s "/chat/completions" = true ->
  exists l, rev (list_ascii_of_string s) = "s"%char :: l /\ s <> ""%string.
Proof.
  unfold CaptionService.endsWith. intro H.
  remember (rev (list_ascii_of_string "/chat/completions")) as suffix eqn:Es.
  vm_compute in Es. subst suffix.
  destruct (rev (list_ascii_of_string s)) as [|c l] eqn:E; [discriminate|].
  cbn [CaptionService.startsWith] in H. apply andb_true_iff in H. destruct H as [H _].
  apply Ascii.eqb_eq in H. subst c. exists l. split; [reflexivity|].
  intros ->. discriminate.
Qed.

Lemma scheme_survives_a_slash (s : string) :
  CaptionService.hasHttpScheme s = true ->
  CaptionService.hasHttpScheme (s ++ "/") = true.
Proof.
  unfold CaptionService.hasHttpScheme. rewrite list_of_append, map_app.
  intro H. apply orb_true_iff in H. apply orb_true_iff.
  destruct H as [H|H]; [left|right]; apply startsWith_longer, H.
Qed.

(** X25.  The URL that [generatePhotoCaption] requests always ends with
    [/chat/completions]; an empty base URL gives
    [https://api.openai.com/v1/chat/completions]; and a base URL that already
    is a complete http(s) endpoint is used unchanged, also when it is
    followed by a slash. *)
Theorem endpoint_always_ends_with_chat_completions (baseUrl : string) :
  CaptionService.endsWith (CaptionService.endpoint baseUrl) "/chat/completions" = true /\
  CaptionService.endpoint "" = "https://api.openai.com/v1/chat/completions"%string /\
  (CaptionService.hasHttpScheme baseUrl = true ->
   CaptionService.endsWith baseUrl "/chat/completions" = true ->
   CaptionService.endpoint baseUrl = baseUrl /\
   CaptionService.endpoint (baseUrl ++ "/") = baseUrl).
Proof.
  split; [|split].
  - unfold CaptionService.endpoint. cbv zeta.
    set (url := CaptionService.stripTrailingSlashes _).
    destruct (CaptionService.endsWith url "/chat/completions") eqn:E; cbn [negb].
    + exact E.
    + apply endsWith_append.
  - reflexivity.
  - intros Hscheme Hends.
    destruct (complete_endpoint_shape baseUrl Hends) as (l & Hrev & Hne).
    assert (Hc : "s"%char <> "/"%char) by discriminate.
    apply String.eqb_neq in Hne. split.
    + unfold CaptionService.endpoint. cbv zeta. rewrite Hne, Hscheme.
      cbn [negb andb]. rewrite Hne.
      rewrite (strip_without_trailing_slash _ _ _ Hrev Hc), Hends. reflexivity.
    + unfold CaptionService.endpoint. cbv zeta.
      assert (Hne' : String.eqb (baseUrl ++ "/") "" = false).
      { clear. destruct baseUrl; reflexivity. }
      rewrite Hne', (scheme_survives_a_slash _ Hscheme). cbn [negb andb].
      rewrite Hne'.
      rewrite (strip_one_trailing_slash _ _ _ Hrev Hc), Hends. reflexivity.
Qed.

Lemma endpoint_always_ends_with_chat_completions_witness :
  CaptionService.endpoint "https://api.example.com/v1/chat/completions/"
  = "https://api.example.com/v1/chat/completions"%string.
Proof.
  apply (proj2 (proj2 (endpoint_always_ends_with_chat_completions
                         "https://api.example.com/v1/chat/completions")));
    reflexivity.
Defined.

Lemma trimmedOrDefault_not_empty (W : CaptionService.World) (text : option string) :
  CaptionService.trimmedOrDefault W text <> ""%string.
Proof.
  unfold CaptionService.trimmedOrDefault. destruct text as [t|]; [|discriminate].
  destruct (String.eqb (CaptionService.trim W t) "") eqn:E; [discriminate|].
  apply String.eqb_neq, E.
Qed.

(** X26.  [generatePhotoCaption] never returns an empty caption and sends
    at most one request.  Without a config or when disabled it returns
    ["Beautiful Moment"] without any request; with the OpenAI provider a
    missing key throws before any request, and otherwise the one request
    goes to the URL built from the base URL.  The earlier revision always
    returns a non-empty caption and never throws. *)
Theorem caption_service_never_returns_an_empty_caption
    (W : CaptionService.World) (base64Image : string)
    (config : option CaptionService.AiConfig) :
  let result := CaptionService.generatePhotoCaption W base64Image config in
  let v1 := CaptionService.generatePhotoCaptionV1 W base64Image in
  (forall caption, fst result = CaptionService.Returned caption -> caption <> ""%string) /\
  (length (snd result) <= 1)%nat /\
  ((config = None \/ exists c, config = Some c /\ CaptionService.enabled c = false) ->
   result = (CaptionService.Returned "Beautiful Moment", [])) /\
  (forall c oc,
     config = Some c -> CaptionService.enabled c = true ->
     CaptionService.provider c = "openai"%string ->
     CaptionService.openaiConfig c = Some oc ->
     (CaptionService.apiKey oc = ""%string ->
      result = (CaptionService.Thrown "OpenAI API Key is missing", [])) /\
     (CaptionService.apiKey oc <> ""%string ->
      snd result = [CaptionService.endpoint (CaptionService.baseUrl oc)])) /\
  (exists caption, fst v1 = CaptionService.Returned caption /\ caption <> ""%string).
Proof.
  intros result v1. subst result v1.
  unfold CaptionService.generatePhotoCaption, CaptionService.generatePhotoCaptionV1.
  split; [|split; [|split; [|split]]].
  - intros caption.
    destruct config as [c|]; [|intro H; injection H as <-; discriminate].
    destruct (CaptionService.enabled c); cbn [negb];
      [|intro H; injection H as <-; discriminate].
    destruct (if String.eqb (CaptionService.provider c) "openai"
              then CaptionService.openaiConfig c else None) as [oc|].
    + destruct (String.eqb (CaptionService.apiKey oc) ""); [discriminate|].
      cbn [fst]. destruct (CaptionService.fetch W _); try discriminate.
      intro H. injection H as <-. apply trimmedOrDefault_not_empty.
    + destruct (String.eqb (CaptionService.API_KEY W) "");
        [intro H; injection H as <-; discriminate|].
      cbn [fst]. destruct (CaptionService.generateContent W base64Image);
        [|discriminate].
      intro H. injection H as <-. apply trimmedOrDefault_not_empty.
  - destruct config as [c|]; [|cbn; lia].
    destruct (CaptionService.enabled c); cbn [negb]; [|cbn; lia].
    destruct (if String.eqb (CaptionService.provider c) "openai"
              then CaptionService.openaiConfig c else None) as [oc|].
    + destruct (String.eqb (CaptionService.apiKey oc) ""); cbn; lia.
    + destruct (String.eqb (CaptionService.API_KEY W) ""); cbn; lia.
  - intros [->|(c & -> & Hc)]; [reflexivity|]. rewrite Hc. reflexivity.
  - intros c oc -> Hen Hprov Hoc. rewrite Hen, Hprov. cbn [negb].
    rewrite String.eqb_refl, Hoc. split.
    + intros ->. reflexivity.
    + intro Hne. apply String.eqb_neq in Hne. rewrite Hne. reflexivity.
  - destruct (String.eqb (CaptionService.API_KEY W) "").
    + eexists. split; [reflexivity|discriminate].
    + cbn [fst]. destruct (CaptionService.generateContent W base64Image).
      * eexists. split; [reflexivity|apply trimmedOrDefault_not_empty].
      * eexists. split; [reflexivity|discriminate].
Qed.

Lemma caption_service_never_returns_an_empty_caption_witness :
  CaptionService.generatePhotoCaption
    {| CaptionService.API_KEY := ""; CaptionService.fetch := fun _ => CaptionService.OkBody None;
       CaptionService.generateContent := fun _ => CaptionService.GeminiText None;
       CaptionService.trim := fun s => s |}
    samplePng None
  = (CaptionService.Returned "Beautiful Moment", []).
Proof.
  apply (proj1 (proj2 (proj2
           (caption_service_never_returns_an_empty_caption
              {| CaptionService.API_KEY := "";
                 CaptionService.fetch := fun _ => CaptionService.OkBody None;
                 CaptionService.generateContent := fun _ => CaptionService.GeminiText None;
                 CaptionService.trim := fun s => s |}
              samplePng None)))).
  left. reflexivity.
Defined.

(** ** The caption handlers *)

(** X27.  In both revisions the handlers that run when the AI caption
    arrives or fails change at most the caption of photos with the id of the
    new photo, and no other field of any photo; the number and order of the
    photos are kept.  On failure the first revision resets to
    ["Beautiful Moment"] only a caption that still is its placeholder, and
    the second touches nothing.  A caption the user has edited to a
    non-empty text other than the placeholder survives the arrival of the AI
    caption and its failure. *)
Theorem caption_handlers_touch_only_the_caption
    (newPhotoId aiCaption : string) (prev : list Photo) :
  Forall2 (captionOnly anyCaption newPhotoId aiCaption)
    prev (AppAiConfig.captionResolved newPhotoId aiCaption prev) /\
  Forall2 (captionOnly (isPlaceholder AppAiConfig.writing) newPhotoId
             AppAiConfig.beautifulMoment)
    prev (AppAiConfig.captionFailed newPhotoId prev) /\
  Forall2 (captionOnly anyCaption newPhotoId aiCaption)
    prev (AppEnableAi.captionResolved newPhotoId aiCaption prev) /\
  AppEnableAi.captionFailed newPhotoId prev = prev /\
  (forall newPhotoData startPos innerWidth innerHeight z,
     map caption (AppAiConfig.handlePhotoTaken newPhotoData startPos innerWidth
                    innerHeight z true prev)
       = map caption prev ++ [Some AppAiConfig.writing] /\
     map caption (AppEnableAi.handlePhotoTaken newPhotoData startPos innerWidth
                    innerHeight z true prev)
       = map caption prev ++ [Some AppEnableAi.beautifulMoment]) /\
  (forall edited : string,
     edited <> ""%string ->
     (edited <> AppAiConfig.writing ->
      AppAiConfig.captionResolved newPhotoId aiCaption
        (handleUpdateCaption newPhotoId edited prev)
        = handleUpdateCaption newPhotoId edited prev /\
      AppAiConfig.captionFailed newPhotoId
        (handleUpdateCaption newPhotoId edited prev)
        = handleUpdateCaption newPhotoId edited prev) /\
     (edited <> AppEnableAi.beautifulMoment ->
      AppEnableAi.captionResolved newPhotoId aiCaption
        (handleUpdateCaption newPhotoId edited prev)
        = handleUpdateCaption newPhotoId edited prev)).
Proof.
  split; [|split; [|split; [|split; [|split]]]].
  - apply Forall2_map_self. intro p. unfold captionOnly, anyCaption.
    destruct (String.eqb (id p) newPhotoId) eqn:Eid; cbn [andb]; [|left; reflexivity].
    apply String.eqb_eq in Eid.
    destruct (captionIs (caption p) "✨ Writing..." || noCaption (caption p));
      [right; auto|left; reflexivity].
  - apply Forall2_map_self. intro p. unfold captionOnly, isPlaceholder.
    destruct (String.eqb (id p) newPhotoId) eqn:Eid; cbn [andb]; [|left; reflexivity].
    apply String.eqb_eq in Eid.
    destruct (captionIs (caption p) "✨ Writing...") eqn:Ec; [|left; reflexivity].
    right. apply captionIs_true in Ec. auto.
  - apply Forall2_map_self. intro p. unfold captionOnly, anyCaption.
    destruct (String.eqb (id p) newPhotoId) eqn:Eid; cbn [andb]; [|left; reflexivity].
    apply String.eqb_eq in Eid.
    destruct (captionIs (caption p) "Beautiful Moment" || noCaption (caption p));
      [right; auto|left; reflexivity].
  - reflexivity.
  - intros newPhotoData startPos innerWidth innerHeight z.
    unfold AppAiConfig.handlePhotoTaken, AppEnableAi.handlePhotoTaken.
    rewrite !map_app. split; reflexivity.
  - intros edited Hne. split; intro Hph; [split|];
      unfold AppAiConfig.captionResolved, AppAiConfig.captionFailed,
             AppEnableAi.captionResolved, handleUpdateCaption;
      apply map_map_id; intro p;
      destruct (String.eqb (id p) newPhotoId) eqn:Eid;
      cbn [id caption withCaption]; rewrite Eid; cbn [andb]; try reflexivity.
    + rewrite (edited_caption_guards edited "✨ Writing..." Hne Hph). reflexivity.
    + pose proof (edited_caption_guards edited "✨ Writing..." Hne Hph) as Hg.
      apply orb_false_iff in Hg. destruct Hg as [Hg _]. rewrite Hg. reflexivity.
    + rewrite (edited_caption_guards edited "Beautiful Moment" Hne Hph). reflexivity.
Qed.

Lemma caption_handlers_touch_only_the_caption_witness :
  AppAiConfig.captionResolved "1763000000000" "Golden hour"
    (handleUpdateCaption "1763000000000" "Grandma's porch"
       [samplePhoto (Some AppAiConfig.writing)])
  = handleUpdateCaption "1763000000000" "Grandma's porch"
      [samplePhoto (Some AppAiConfig.writing)].
Proof.
  apply (proj2 (proj2 (proj2 (proj2 (proj2
           (caption_handlers_touch_only_the_caption "1763000000000"%string
              "Golden hour"%string [samplePhoto (Some AppAiConfig.writing)])))))
           "Grandma's porch"%string); discriminate.
Defined.
